(** * ECIT acquisition: the spreadsheet parser, embedded and verified

    A shallow embedding of [server/src/services/excelParser.ts]: the value
    reader ([cellValue], [cellNum], [cellStr]), the label mapper
    ([normalizeLabel], [LABEL_MAPPINGS], [mapLabelToField]), the year and
    label column finders, the three block segmentation strategies, the block
    parser and the orchestrator [parseExcelBuffer].

    Modelling conventions.
    - A JavaScript string is the list of its UTF-16 code units ([jstring]).
    - A JavaScript number is NaN, an infinity or a finite double, written
      by a decimal [m * 10^e] that denotes it; a number read from a text
      is the double nearest to the decimal that the text spells
      ([numberValue]), written by the shortest decimal that reads back as
      it.  The two zeros are one value: the parser only compares numbers
      and prints them, which does not tell the zeros apart.
    - A worksheet is observed through its name, [rowCount], [columnCount]
      and the values of its cells, which the parser only reads.
    - The calendar year read by [new Date().getFullYear()] is an explicit
      argument ([currentYear]) of every function that depends on it; the
      local time zone of the process is in the [getFullYear] of the date
      cells.
    - A thrown [Error] is the [Err] constructor of the result; the only
      exception that the parser does not raise itself is the RangeError of
      [toISOString] on an Invalid Date, whose calls are followed by the
      [...Throws] definitions. *)

From Stdlib Require Import List ZArith NArith Bool String Ascii Lia Sorted.
From Stdlib Require Import FunctionalExtensionality.
Import ListNotations.

Open Scope Z_scope.

(* ------------------------------------------------------------------ *)
(** ** JavaScript strings *)

Module Js.

Definition cunit := N.
Definition jstring := list cunit.

(** Source text is UTF-8; string values are UTF-16. *)
Fixpoint utf16_of_utf8 (bs : list N) : jstring :=
  match bs with
  | [] => []
  | b :: t =>
    if (b <? 128)%N then b :: utf16_of_utf8 t
    else if (b <? 224)%N then
      match t with
      | b2 :: t2 => ((b - 192) * 64 + (b2 - 128))%N :: utf16_of_utf8 t2
      | _ => [65533%N]
      end
    else if (b <? 240)%N then
      match t with
      | b2 :: b3 :: t3 =>
        ((b - 224) * 4096 + (b2 - 128) * 64 + (b3 - 128))%N :: utf16_of_utf8 t3
      | _ => [65533%N]
      end
    else
      match t with
      | b2 :: b3 :: b4 :: t4 =>
        let cp := ((b - 240) * 262144 + (b2 - 128) * 4096
                   + (b3 - 128) * 64 + (b4 - 128))%N in
        let v := (cp - 65536)%N in
        (55296 + v / 1024)%N :: (56320 + v mod 1024)%N :: utf16_of_utf8 t4
      | _ => [65533%N]
      end
  end.

(** [u "text"] is the JavaScript string literal ["text"]. *)
Definition u (s : string) : jstring :=
  utf16_of_utf8 (map N_of_ascii (list_ascii_of_string s)).

Definition str_eqb (a b : jstring) : bool :=
  if list_eq_dec N.eq_dec a b then true else false.

Definition length (s : jstring) : Z := Z.of_nat (List.length s).

(** WhiteSpace and LineTerminator code units: what [\s] matches and what
    [trim] removes. *)
Definition isWhite (c : cunit) : bool :=
  ((9 <=? c) && (c <=? 13) || (c =? 32) || (c =? 160) || (c =? 5760)
   || (8192 <=? c) && (c <=? 8202) || (c =? 8232) || (c =? 8233)
   || (c =? 8239) || (c =? 8287) || (c =? 12288) || (c =? 65279))%N.

Definition isLineTerminator (c : cunit) : bool :=
  ((c =? 10) || (c =? 13) || (c =? 8232) || (c =? 8233))%N.

Definition isDigit (c : cunit) : bool := ((48 <=? c) && (c <=? 57))%N.

Definition isWordChar (c : cunit) : bool :=
  (isDigit c || (65 <=? c) && (c <=? 90) || (97 <=? c) && (c <=? 122)
   || (c =? 95))%N.

Fixpoint trimStart (s : jstring) : jstring :=
  match s with
  | c :: t => if isWhite c then trimStart t else s
  | [] => []
  end.

Definition trimEnd (s : jstring) : jstring := rev (trimStart (rev s)).

Definition trim (s : jstring) : jstring := trimEnd (trimStart s).

(** [toLowerCase] on Basic Latin, Latin-1 Supplement and the Greek capital
    delta (the alphabets of the label table); other code units are kept. *)
Definition lowerUnit (c : cunit) : cunit :=
  (if (65 <=? c) && (c <=? 90) then c + 32
   else if (192 <=? c) && (c <=? 222) && negb (c =? 215) then c + 32
   else if c =? 916 then 948
   else c)%N.

Definition toLowerCase (s : jstring) : jstring := map lowerUnit s.

Fixpoint startsWith (p s : jstring) : bool :=
  match p, s with
  | [], _ => true
  | a :: p', b :: s' => (a =? b)%N && startsWith p' s'
  | _ :: _, [] => false
  end.

(** [s.includes(p)] *)
Fixpoint includes (p s : jstring) : bool :=
  startsWith p s || match s with [] => false | _ :: t => includes p t end.

(** [s.indexOf(c)] for a one-character pattern; -1 when absent. *)
Fixpoint indexOfFrom (i : Z) (c : cunit) (s : jstring) : Z :=
  match s with
  | [] => -1
  | x :: t => if (x =? c)%N then i else indexOfFrom (i + 1) c t
  end.

Definition indexOf (c : cunit) (s : jstring) : Z := indexOfFrom 0 c s.

(** [s.replace(/[class]/g, empty)] *)
Definition removeAll (cls : cunit -> bool) (s : jstring) : jstring :=
  filter (fun c => negb (cls c)) s.

(** [s.replace(/[class]/g, r)] for a one-character replacement. *)
Definition replaceAll (cls : cunit -> bool) (r : cunit) (s : jstring) : jstring :=
  map (fun c => if cls c then r else c) s.

(** [s.replace("a", "b")] with a string pattern: the first occurrence only. *)
Fixpoint replaceFirst (a b : cunit) (s : jstring) : jstring :=
  match s with
  | [] => []
  | x :: t => if (x =? a)%N then b :: t else x :: replaceFirst a b t
  end.

(** [s.substring(0, n)] *)
Definition substring0 (n : nat) (s : jstring) : jstring := firstn n s.

(** [parts.join(sep)] *)
Fixpoint join (sep : jstring) (parts : list jstring) : jstring :=
  match parts with
  | [] => []
  | [p] => p
  | p :: rest => p ++ sep ++ join sep rest
  end.

Definition comma : cunit := 44%N.
Definition dot : cunit := 46%N.

(* ---------------------------------------------------------------- *)
(** ** JavaScript numbers *)

(** [Fin m e] is the double written [m * 10^e]; values built by [mkFin]
    have no trailing zero in [m], so a decimal has one term.  The numbers
    that the parser makes itself are read from texts by [parseFloat], which
    rounds to the nearest double ([numberValue]); [parseInt] is applied to
    four digits only, and the integer constants of the source and the
    calendar year ([ofZ]) are below [2^53]: these are exact. *)
Inductive number :=
| NaN
| Infinity (negative : bool)
| Fin (m e : Z).

Fixpoint stripZeros (fuel : nat) (m e : Z) : Z * Z :=
  match fuel with
  | O => (m, e)
  | S f =>
    if m =? 0 then (0, 0)
    else if m mod 10 =? 0 then stripZeros f (m / 10) (e + 1)
    else (m, e)
  end.

Definition mkFin (m e : Z) : number :=
  let '(m', e') := stripZeros (S (Z.to_nat (Z.log2 (Z.abs m)))) m e in
  Fin m' e'.

Definition ofZ (z : Z) : number := mkFin z 0.

Definition isNaN (x : number) : bool :=
  match x with NaN => true | _ => false end.

(** Numeric order, by scaling both mantissas to the smaller exponent;
    every comparison with NaN is false. *)
Definition cmpFin (m1 e1 m2 e2 : Z) : comparison :=
  let e := Z.min e1 e2 in
  Z.compare (m1 * 10 ^ (e1 - e)) (m2 * 10 ^ (e2 - e)).

Definition ltb (x y : number) : bool :=
  match x, y with
  | NaN, _ | _, NaN => false
  | Infinity true, Infinity true => false
  | Infinity true, _ => true
  | _, Infinity true => false
  | Infinity false, _ => false
  | _, Infinity false => true
  | Fin m1 e1, Fin m2 e2 =>
    match cmpFin m1 e1 m2 e2 with Lt => true | _ => false end
  end.

Definition eqb (x y : number) : bool :=
  match x, y with
  | Fin m1 e1, Fin m2 e2 =>
    match cmpFin m1 e1 m2 e2 with Eq => true | _ => false end
  | Infinity a, Infinity b => Bool.eqb a b
  | _, _ => false
  end.

Definition leb (x y : number) : bool := ltb x y || eqb x y.
Definition gtb (x y : number) : bool := ltb y x.
Definition geb (x y : number) : bool := leb y x.

(** Decimal digits of a natural number, most significant first. *)
Fixpoint digitsOfUint (d : Decimal.uint) : jstring :=
  match d with
  | Decimal.Nil => []
  | Decimal.D0 r => 48%N :: digitsOfUint r
  | Decimal.D1 r => 49%N :: digitsOfUint r
  | Decimal.D2 r => 50%N :: digitsOfUint r
  | Decimal.D3 r => 51%N :: digitsOfUint r
  | Decimal.D4 r => 52%N :: digitsOfUint r
  | Decimal.D5 r => 53%N :: digitsOfUint r
  | Decimal.D6 r => 54%N :: digitsOfUint r
  | Decimal.D7 r => 55%N :: digitsOfUint r
  | Decimal.D8 r => 56%N :: digitsOfUint r
  | Decimal.D9 r => 57%N :: digitsOfUint r
  end.

Definition digitsOfN (n : N) : jstring := digitsOfUint (N.to_uint n).

Definition zeros (n : Z) : jstring := repeat 48%N (Z.to_nat n).

(** [String(z)] for an integer. *)
Definition intToString (z : Z) : jstring :=
  if z <? 0 then 45%N :: digitsOfN (Z.to_N (- z)) else digitsOfN (Z.to_N z).

(** Number::toString (radix 10), from the digits [s] of the mantissa,
    their count [k] and the position [n] of the decimal point. *)
Definition finToString (m e : Z) : jstring :=
  if m =? 0 then u "0" else
  let sign := if m <? 0 then u "-" else [] in
  let s := digitsOfN (Z.to_N (Z.abs m)) in
  let k := length s in
  let n := e + k in
  sign ++
  (if (k <=? n) && (n <=? 21) then s ++ zeros (n - k)
   else if (0 <? n) && (n <=? 21) then
     firstn (Z.to_nat n) s ++ u "." ++ skipn (Z.to_nat n) s
   else if (-6 <? n) && (n <=? 0) then u "0." ++ zeros (- n) ++ s
   else
     let ex := (if n - 1 <? 0 then u "-" else u "+")
               ++ digitsOfN (Z.to_N (Z.abs (n - 1))) in
     if k =? 1 then s ++ u "e" ++ ex
     else firstn 1 s ++ u "." ++ skipn 1 s ++ u "e" ++ ex).

Definition numberToString (x : number) : jstring :=
  match x with
  | NaN => u "NaN"
  | Infinity false => u "Infinity"
  | Infinity true => u "-Infinity"
  | Fin m e => let '(m', e') := stripZeros (S (Z.to_nat (Z.log2 (Z.abs m)))) m e in
               finToString m' e'
  end.

(** *** The Number value of a decimal

    A decimal literal denotes the double nearest to it, ties going to the
    even significand (IEEE 754 binary64, round to nearest even): integers
    above [2^53] and most fractions are not kept exactly, a magnitude of
    [2^1024 - 2^970] or more is Infinity, one of [2^-1075] or less is
    zero. *)

(** The number of decimal digits of a positive integer. *)
Definition decimalLength (n : Z) : Z :=
  Z.of_nat (Decimal.nb_digits (N.to_uint (Z.to_N n))).

(** The fraction [n / d] divided by [2^k]. *)
Definition scaleBinary (n d k : Z) : Z * Z :=
  if k >=? 0 then (n, d * 2 ^ k) else (n * 2 ^ (- k), d).

(** The double nearest to the positive fraction [n / d]: [Some (q, k)] is
    [q * 2^k], with [2^52 <= q < 2^53], or with [k = -1074] and
    [q < 2^52] for a subnormal value and for zero; [None] is the overflow. *)
Definition roundBinary64 (n d : Z) : option (Z * Z) :=
  let k1 := Z.log2 n - Z.log2 d - 52 in
  let '(a1, b1) := scaleBinary n d k1 in
  let k2 := if a1 / b1 >=? 2 ^ 52 then k1 else k1 - 1 in
  let k := Z.max k2 (-1074) in
  let '(a, b) := scaleBinary n d k in
  let q0 := a / b in
  let r := a mod b in
  let q := if 2 * r >? b then q0 + 1
           else if (2 * r =? b) && Z.odd q0 then q0 + 1
           else q0 in
  let '(q', k') := if q =? 2 ^ 53 then (2 ^ 52, k + 1) else (q, k) in
  if k' >? 971 then None else Some (q', k').

(** [q * 2^k] and [s * 10^t] as fractions. *)
Definition binaryFraction (q k : Z) : Z * Z :=
  if k >=? 0 then (q * 2 ^ k, 1) else (q, 2 ^ (- k)).

Definition decimalFraction (s t : Z) : Z * Z :=
  if t >=? 0 then (s * 10 ^ t, 1) else (s, 10 ^ (- t)).

Definition readsBackAs (q k s t : Z) : bool :=
  let '(n, d) := decimalFraction s t in
  match roundBinary64 n d with
  | Some (q', k') => (q' =? q) && (k' =? k)
  | None => false
  end.

(** The decimal of [digits] digits nearest to the positive double
    [q * 2^k] among those that read back as it, when there is one. *)
Definition decimalOfLength (q k digits : Z) : option (Z * Z) :=
  let '(n, d) := binaryFraction q k in
  let l0 := decimalLength n - decimalLength d in
  let l := if (if l0 >=? 0 then n >=? d * 10 ^ l0 else n * 10 ^ (- l0) >=? d)
           then l0 else l0 - 1 in
  let t := l - (digits - 1) in
  let '(a, b) := if t >=? 0 then (n, d * 10 ^ t) else (n * 10 ^ (- t), d) in
  let lo := a / b in
  let hi := lo + 1 in
  let r := a mod b in
  let okLo := readsBackAs q k lo t in
  let okHi := readsBackAs q k hi t in
  let preferHi := (2 * r >? b) || ((2 * r =? b) && Z.odd lo) in
  if okLo && okHi then Some (if preferHi then hi else lo, t)
  else if okLo then Some (lo, t)
  else if okHi then Some (hi, t)
  else None.

(** The shortest decimal that reads back as [q * 2^k], which is how
    Number::toString writes the double; seventeen digits always do. *)
Fixpoint shortestFrom (fuel : nat) (q k digits : Z) : Z * Z :=
  match fuel with
  | O => (q, 0)
  | S f =>
    match decimalOfLength q k digits with
    | Some st => st
    | None => shortestFrom f q k (digits + 1)
    end
  end.

Definition shortestDecimal (q k : Z) : Z * Z := shortestFrom 17 q k 1.

(** The Number value of the decimal [m * 10^e].  A decimal of more than
    400 integer digits is beyond the largest double and one below
    [10^-400] is below half the smallest. *)
Definition numberValue (m e : Z) : number :=
  if m =? 0 then Fin 0 0
  else
    let a := Z.abs m in
    let size := e + decimalLength a in
    if size >? 400 then Infinity (m <? 0)
    else if size <? -400 then Fin 0 0
    else
      let '(n, d) := decimalFraction a e in
      match roundBinary64 n d with
      | None => Infinity (m <? 0)
      | Some (q, k) =>
        if q =? 0 then Fin 0 0
        else
          let '(s, t) := shortestDecimal q k in
          mkFin (if m <? 0 then - s else s) t
      end.

(** *** parseFloat *)

Fixpoint takeDigits (s : jstring) : jstring * jstring :=
  match s with
  | c :: t => if isDigit c then let '(d, r) := takeDigits t in (c :: d, r)
              else ([], s)
  | [] => ([], [])
  end.

Definition digitsValue (d : jstring) : Z :=
  fold_left (fun acc c => acc * 10 + (Z.of_N c - 48)) d 0.

(** The exponent part [e[+-]digits], when present and well formed. *)
Definition takeExponent (s : jstring) : Z :=
  match s with
  | c :: t =>
    if ((c =? 101) || (c =? 69))%N then
      let '(neg, t') :=
        match t with
        | sg :: t1 => if (sg =? 45)%N then (true, t1)
                      else if (sg =? 43)%N then (false, t1) else (false, t)
        | [] => (false, t)
        end in
      let '(d, _) := takeDigits t' in
      match d with
      | [] => 0
      | _ => if neg then - digitsValue d else digitsValue d
      end
    else 0
  | [] => 0
  end.

(** [parseFloat(s)]: leading white space is skipped, then the longest
    prefix that is a decimal literal is read, and its Number value is the
    result; NaN when there is none. *)
Definition parseFloat (s0 : jstring) : number :=
  let s := trimStart s0 in
  let '(neg, s1) :=
    match s with
    | c :: t => if (c =? 45)%N then (true, t)
                else if (c =? 43)%N then (false, t) else (false, s)
    | [] => (false, s)
    end in
  if startsWith (u "Infinity") s1 then Infinity neg
  else
    let '(ip, r1) := takeDigits s1 in
    let '(fp, r2) :=
      match r1 with
      | c :: t => if (c =? dot)%N then takeDigits t else ([], r1)
      | [] => ([], r1)
      end in
    match ip ++ fp with
    | [] => NaN
    | ds =>
      let m := digitsValue ds in
      numberValue (if neg then - m else m) (takeExponent r2 - length fp)
    end.

(** [parseInt(s)] on a string of decimal digits; the parser applies it to
    the four digits of a year, where the integer is exact. *)
Definition parseIntDigits (d : jstring) : number := ofZ (digitsValue d).

End Js.

(* ------------------------------------------------------------------ *)
(** ** Regular expressions

    The patterns of the parser are written as in the source and read by
    [regex]; [test] decides [pattern.test(s)] with Brzozowski derivatives.
    The assertions [^], [$] and [\b] look at the code units around the
    current position (no pattern of the parser sets the multiline flag). *)

Module Regex.
Import Js.

Inductive re :=
| Empty
| Eps
| Class (cls : cunit -> bool)
| Cat (a b : re)
| Alt (a b : re)
| Star (a : re)
| Bol
| Eol
| WordB.

Definition isWordAt (o : option cunit) : bool :=
  match o with Some c => isWordChar c | None => false end.

Fixpoint nullable (prev next : option cunit) (r : re) : bool :=
  match r with
  | Empty => false
  | Eps => true
  | Class _ => false
  | Cat a b => nullable prev next a && nullable prev next b
  | Alt a b => nullable prev next a || nullable prev next b
  | Star _ => true
  | Bol => match prev with None => true | Some _ => false end
  | Eol => match next with None => true | Some _ => false end
  | WordB => negb (Bool.eqb (isWordAt prev) (isWordAt next))
  end.

Definition cat (a b : re) : re :=
  match a, b with
  | Empty, _ => Empty
  | _, Empty => Empty
  | Eps, _ => b
  | _, _ => Cat a b
  end.

Definition alt (a b : re) : re :=
  match a, b with
  | Empty, _ => b
  | _, Empty => a
  | _, _ => Alt a b
  end.

Fixpoint deriv (prev : option cunit) (c : cunit) (r : re) : re :=
  match r with
  | Empty | Eps | Bol | Eol | WordB => Empty
  | Class cls => if cls c then Eps else Empty
  | Cat a b =>
    alt (cat (deriv prev c a) b)
        (if nullable prev (Some c) a then deriv prev c b else Empty)
  | Alt a b => alt (deriv prev c a) (deriv prev c b)
  | Star a => cat (deriv prev c a) (Star a)
  end.

Fixpoint matchesFrom (prev : option cunit) (r : re) (s : jstring) : bool :=
  match s with
  | [] => nullable prev None r
  | c :: t => matchesFrom (Some c) (deriv prev c r) t
  end.

Definition anything : re := Star (Class (fun _ => true)).

(** [pattern.test(s)]: some substring of [s] matches. *)
Definition test (r : re) (s : jstring) : bool :=
  matchesFrom None (Cat anything (Cat r anything)) s.

(** *** Reading a pattern *)

Definition lit (ci : bool) (c : cunit) : re :=
  if ci then
    Class (fun x => (x =? c)%N
                    || ((65 <=? c) && (c <=? 90) && (x =? c + 32))%N
                    || ((97 <=? c) && (c <=? 122) && (x =? c - 32))%N)
  else Class (fun x => (x =? c)%N).

Definition escapeClass (c : cunit) : cunit -> bool :=
  if (c =? 115)%N then isWhite                       (* \s *)
  else if (c =? 100)%N then isDigit                  (* \d *)
  else if (c =? 119)%N then isWordChar               (* \w *)
  else fun x => (x =? c)%N.

(** The members of a [[...]] class, up to the closing bracket. *)
Fixpoint classItems (s : jstring) : option ((cunit -> bool) * jstring) :=
  match s with
  | [] => None
  | c :: t =>
    if (c =? 93)%N then Some (fun _ => false, t)
    else if (c =? 92)%N then
      match t with
      | e :: t' =>
        match classItems t' with
        | Some (f, r) => Some (fun x => escapeClass e x || f x, r)
        | None => None
        end
      | [] => None
      end
    else
      match classItems t with
      | Some (f, r) => Some (fun x => (x =? c)%N || f x, r)
      | None => None
      end
  end.

Definition quantified (a : re) (s : jstring) : re * jstring :=
  match s with
  | q :: t =>
    if (q =? 63)%N then (Alt a Eps, t)
    else if (q =? 42)%N then (Star a, t)
    else if (q =? 43)%N then (Cat a (Star a), t)
    else (a, s)
  | [] => (a, s)
  end.

Fixpoint disjunction (fuel : nat) (ci : bool) (s : jstring)
  : option (re * jstring) :=
  match fuel with
  | O => None
  | S f =>
    match alternative f ci s with
    | Some (a, r) =>
      match r with
      | c :: t =>
        if (c =? 124)%N then
          match disjunction f ci t with
          | Some (b, r') => Some (Alt a b, r')
          | None => None
          end
        else Some (a, r)
      | [] => Some (a, r)
      end
    | None => None
    end
  end
with alternative (fuel : nat) (ci : bool) (s : jstring)
  : option (re * jstring) :=
  match fuel with
  | O => None
  | S f =>
    match s with
    | [] => Some (Eps, s)
    | c :: t =>
      if ((c =? 124) || (c =? 41))%N then Some (Eps, s)
      else
        match atom f ci s with
        | Some (a, r) =>
          let '(a', r') := quantified a r in
          match alternative f ci r' with
          | Some (b, r'') => Some (Cat a' b, r'')
          | None => None
          end
        | None => None
        end
    end
  end
with atom (fuel : nat) (ci : bool) (s : jstring) : option (re * jstring) :=
  match fuel with
  | O => None
  | S f =>
    match s with
    | [] => None
    | c :: t =>
      if (c =? 40)%N then                                   (* ( or (?: *)
        let body := if startsWith (u "?:") t then skipn 2 t else t in
        match disjunction f ci body with
        | Some (a, r) =>
          match r with
          | c' :: r' => if (c' =? 41)%N then Some (a, r') else None
          | [] => None
          end
        | None => None
        end
      else if (c =? 91)%N then                              (* [...] *)
        match t with
        | n :: t' =>
          if (n =? 94)%N then
            match classItems t' with
            | Some (f', r) => Some (Class (fun x => negb (f' x)), r)
            | None => None
            end
          else
            match classItems t with
            | Some (f', r) => Some (Class f', r)
            | None => None
            end
        | [] => None
        end
      else if (c =? 92)%N then                              (* \x *)
        match t with
        | e :: t' =>
          if (e =? 98)%N then Some (WordB, t')
          else if ((e =? 115) || (e =? 100) || (e =? 119))%N
               then Some (Class (escapeClass e), t')
          else Some (lit ci e, t')
        | [] => None
        end
      else if (c =? 46)%N then
        Some (Class (fun x => negb (isLineTerminator x)), t)
      else if (c =? 94)%N then Some (Bol, t)
      else if (c =? 36)%N then Some (Eol, t)
      else Some (lit ci c, t)
    end
  end.

Definition parse (ci : bool) (src : string) : option re :=
  let s := u src in
  match disjunction (4 * List.length s + 8) ci s with
  | Some (r, []) => Some r
  | _ => None
  end.

(** [regex "src"] is the literal [/src/]; [regexI "src"] is [/src/i]. *)
Definition regex (src : string) : re :=
  match parse false src with Some r => r | None => Empty end.

Definition regexI (src : string) : re :=
  match parse true src with Some r => r | None => Empty end.

End Regex.

Import Js Regex.

(* ------------------------------------------------------------------ *)
(** ** Cells and worksheets *)

(** A [Date] is observed through the two methods the parser calls:
    [getFullYear], the year in the local time zone of the process, which is
    NaN on an Invalid Date; and [toISOString], the UTC text of a valid
    date.  On an Invalid Date [toISOString] throws a RangeError, and the
    field is not read ([cellStrThrows] below). *)
Record JsDate := mkDate {
  toISOString : jstring;
  getFullYear : number
}.

Definition isInvalidDate (d : JsDate) : bool := isNaN (getFullYear d).

(** What a cell can hold once formulas and rich text are resolved.
    [JObject] is any other object: an error value, a hyperlink, a formula
    object without a [result] key. *)
Inductive JsValue :=
| JNumber (n : number)
| JString (s : jstring)
| JBoolean (b : bool)
| JDate (d : JsDate)
| JObject.

(** [cell.value]: [CellFormula] is [{ formula, result }], [CellSharedFormula]
    is [{ sharedFormula, result }] (a null or missing result is [None]),
    [CellRichText] is [{ richText }] with the [text] of each run. *)
Inductive CellValue :=
| CellNull
| CellPlain (v : JsValue)
| CellFormula (result : option JsValue)
| CellSharedFormula (result : option JsValue)
| CellRichText (richText : list jstring).

(** A worksheet as it is loaded.  Reading a cell beyond the last column of
    a row makes ExcelJS create an empty cell there, so [ws.columnCount] may
    grow while the parser runs; the new cells are null, and no search of the
    parser finds anything in a null cell, so the results are those of the
    counts as loaded.  Only the column count printed in the diagnostic of
    [noDataMessage] can differ from the one of the running program. *)
Record Worksheet := mkSheet {
  ws_name : jstring;
  rowCount : Z;
  columnCount : Z;
  getCell : Z -> Z -> CellValue     (* ws.getRow(r).getCell(c) *)
}.

Definition cellValue (cell : CellValue) : option JsValue :=
  match cell with
  | CellNull => None
  | CellFormula result => result
  | CellSharedFormula result => result
  | CellRichText richText =>
    match trim (List.concat richText) with
    | [] => None
    | s => Some (JString s)
    end
  | CellPlain v => Some v
  end.

(** [String(v)]; a [Date] never reaches it. *)
Definition stringOf (v : JsValue) : jstring :=
  match v with
  | JNumber n => numberToString n
  | JString s => s
  | JBoolean true => u "true"
  | JBoolean false => u "false"
  | JDate d => toISOString d
  | JObject => u "[object Object]"
  end.

Definition isBlank (c : cunit) : bool := isWhite c || (c =? 160)%N.

(** The [cleaned] text that [cellNum] hands to [parseFloat]. *)
Definition cleanNumeric (s : jstring) : jstring :=
  let hasComma := includes (u ",") s in
  let hasDot := includes (u ".") s in
  if hasComma && negb hasDot then
    (* comma is the decimal separator, spaces are thousands *)
    replaceFirst comma dot (removeAll isBlank s)
  else if hasComma && hasDot then
    let commaIdx := indexOf comma s in
    let dotIdx := indexOf dot s in
    if dotIdx <? commaIdx then
      (* European: dot is thousands, comma is decimal *)
      replaceFirst comma dot
        (removeAll (fun c => isBlank c || (c =? dot)%N) s)
    else
      (* English: comma is thousands, dot is decimal *)
      removeAll (fun c => isBlank c || (c =? comma)%N) s
  else
    removeAll isBlank s.

Definition isSentinel (s : jstring) : bool :=
  str_eqb s [] || str_eqb s (u "-") || str_eqb s (u "--")
  || str_eqb s (u "n/a") || str_eqb s (u "N/A").

(** [isNaN(n) ? null : n] *)
Definition numberOrNull (n : number) : option number :=
  if isNaN n then None else Some n.

Definition cellNum (cell : CellValue) : option number :=
  match cellValue cell with
  | None => None
  | Some (JDate _) => None
  | Some (JNumber v) => numberOrNull v
  | Some v =>
    let s := trim (stringOf v) in
    if isSentinel s then None
    else numberOrNull (parseFloat (cleanNumeric s))
  end.

Definition cellStr (cell : CellValue) : jstring :=
  match cellValue cell with
  | None => []
  | Some (JDate d) => toISOString d
  | Some v => trim (stringOf v)
  end.

(** [cellStr(cell)] throws: the cell holds an Invalid Date, on which
    [v.toISOString()] raises a RangeError.  [cellStr] above is the text of
    a call that returns. *)
Definition cellStrThrows (cell : CellValue) : bool :=
  match cellValue cell with
  | Some (JDate d) => isInvalidDate d
  | _ => false
  end.

(** A loop that calls [cellStr] on the cells [cs] in order and leaves at
    the first for which [stop] holds: does one of its calls throw? *)
Fixpoint readsUntilThrow (stop : CellValue -> bool) (cs : list CellValue)
  : bool :=
  match cs with
  | [] => false
  | c :: t => cellStrThrows c || (negb (stop c) && readsUntilThrow stop t)
  end.

(* ------------------------------------------------------------------ *)
(** ** Row label normalization and mapping *)

(** [.replace(/\s+/g, " ")]: every run of white space becomes one space. *)
Fixpoint collapseFrom (inRun : bool) (s : jstring) : jstring :=
  match s with
  | [] => []
  | c :: t =>
    if isWhite c then
      if inRun then collapseFrom true t else 32%N :: collapseFrom true t
    else c :: collapseFrom false t
  end.

Definition collapseSpaces (s : jstring) : jstring := collapseFrom false s.

(** [.replace(/[,.:;()]+$/g, empty)]: the trailing run of these is removed. *)
Definition isTrailingPunct (c : cunit) : bool :=
  ((c =? 44) || (c =? 46) || (c =? 58) || (c =? 59) || (c =? 40) || (c =? 41))%N.

Fixpoint dropWhile (f : cunit -> bool) (s : jstring) : jstring :=
  match s with
  | c :: t => if f c then dropWhile f t else s
  | [] => []
  end.

Definition stripTrailing (f : cunit -> bool) (s : jstring) : jstring :=
  rev (dropWhile f (rev s)).

(** The double and the single quote, which the third [replace] deletes. *)
Definition isQuote (c : cunit) : bool := ((c =? 34) || (c =? 39))%N.

Definition normalizeLabel (raw : jstring) : jstring :=
  trim (removeAll isQuote
          (stripTrailing isTrailingPunct (collapseSpaces (toLowerCase raw)))).

(** The numeric properties of [PeriodYear]; the label table names no other key. *)
Inductive FieldKey :=
| F_revenue_total
| F_revenue_managed_services
| F_revenue_professional_services
| F_revenue_other
| F_revenue_organic
| F_revenue_ma
| F_revenue_growth
| F_organic_growth
| F_acquired_revenue
| F_ebitda_total
| F_ebitda_margin
| F_ebitda_managed_services
| F_ebitda_professional_services
| F_ebitda_central_costs
| F_ebitda_organic
| F_ebitda_ma
| F_margin_managed_services
| F_margin_professional_services
| F_margin_central_costs
| F_capex
| F_capex_pct_revenue
| F_change_nwc
| F_other_cash_flow_items
| F_operating_fcf
| F_minority_interest
| F_operating_fcf_excl_minorities
| F_cash_conversion
| F_share_count
| F_nibd
| F_option_debt
| F_adjustments
| F_enterprise_value
| F_equity_value
| F_preferred_equity
| F_per_share_pre
| F_mip_amount
| F_tso_amount
| F_warrants_amount
| F_eqv_post_dilution
| F_per_share_post.

Definition allFields : list FieldKey :=
  [F_revenue_total;
   F_revenue_managed_services;
   F_revenue_professional_services;
   F_revenue_other;
   F_revenue_organic;
   F_revenue_ma;
   F_revenue_growth;
   F_organic_growth;
   F_acquired_revenue;
   F_ebitda_total;
   F_ebitda_margin;
   F_ebitda_managed_services;
   F_ebitda_professional_services;
   F_ebitda_central_costs;
   F_ebitda_organic;
   F_ebitda_ma;
   F_margin_managed_services;
   F_margin_professional_services;
   F_margin_central_costs;
   F_capex;
   F_capex_pct_revenue;
   F_change_nwc;
   F_other_cash_flow_items;
   F_operating_fcf;
   F_minority_interest;
   F_operating_fcf_excl_minorities;
   F_cash_conversion;
   F_share_count;
   F_nibd;
   F_option_debt;
   F_adjustments;
   F_enterprise_value;
   F_equity_value;
   F_preferred_equity;
   F_per_share_pre;
   F_mip_amount;
   F_tso_amount;
   F_warrants_amount;
   F_eqv_post_dilution;
   F_per_share_post].

(** The property name a key stands for. *)
Definition fieldName (k : FieldKey) : jstring :=
  match k with
  | F_revenue_total => u "revenue_total"
  | F_revenue_managed_services => u "revenue_managed_services"
  | F_revenue_professional_services => u "revenue_professional_services"
  | F_revenue_other => u "revenue_other"
  | F_revenue_organic => u "revenue_organic"
  | F_revenue_ma => u "revenue_ma"
  | F_revenue_growth => u "revenue_growth"
  | F_organic_growth => u "organic_growth"
  | F_acquired_revenue => u "acquired_revenue"
  | F_ebitda_total => u "ebitda_total"
  | F_ebitda_margin => u "ebitda_margin"
  | F_ebitda_managed_services => u "ebitda_managed_services"
  | F_ebitda_professional_services => u "ebitda_professional_services"
  | F_ebitda_central_costs => u "ebitda_central_costs"
  | F_ebitda_organic => u "ebitda_organic"
  | F_ebitda_ma => u "ebitda_ma"
  | F_margin_managed_services => u "margin_managed_services"
  | F_margin_professional_services => u "margin_professional_services"
  | F_margin_central_costs => u "margin_central_costs"
  | F_capex => u "capex"
  | F_capex_pct_revenue => u "capex_pct_revenue"
  | F_change_nwc => u "change_nwc"
  | F_other_cash_flow_items => u "other_cash_flow_items"
  | F_operating_fcf => u "operating_fcf"
  | F_minority_interest => u "minority_interest"
  | F_operating_fcf_excl_minorities => u "operating_fcf_excl_minorities"
  | F_cash_conversion => u "cash_conversion"
  | F_share_count => u "share_count"
  | F_nibd => u "nibd"
  | F_option_debt => u "option_debt"
  | F_adjustments => u "adjustments"
  | F_enterprise_value => u "enterprise_value"
  | F_equity_value => u "equity_value"
  | F_preferred_equity => u "preferred_equity"
  | F_per_share_pre => u "per_share_pre"
  | F_mip_amount => u "mip_amount"
  | F_tso_amount => u "tso_amount"
  | F_warrants_amount => u "warrants_amount"
  | F_eqv_post_dilution => u "eqv_post_dilution"
  | F_per_share_post => u "per_share_post"
  end.

Record PeriodYear := mkPeriod {
  year : number;
  period_date : jstring;
  period_label : jstring;
  period_type : jstring;
  revenue_total : option number;
  revenue_managed_services : option number;
  revenue_professional_services : option number;
  revenue_other : option number;
  revenue_organic : option number;
  revenue_ma : option number;
  revenue_growth : option number;
  organic_growth : option number;
  acquired_revenue : option number;
  ebitda_total : option number;
  ebitda_margin : option number;
  ebitda_managed_services : option number;
  ebitda_professional_services : option number;
  ebitda_central_costs : option number;
  ebitda_organic : option number;
  ebitda_ma : option number;
  margin_managed_services : option number;
  margin_professional_services : option number;
  margin_central_costs : option number;
  capex : option number;
  capex_pct_revenue : option number;
  change_nwc : option number;
  other_cash_flow_items : option number;
  operating_fcf : option number;
  minority_interest : option number;
  operating_fcf_excl_minorities : option number;
  cash_conversion : option number;
  share_count : option number;
  nibd : option number;
  option_debt : option number;
  adjustments : option number;
  enterprise_value : option number;
  equity_value : option number;
  preferred_equity : option number;
  per_share_pre : option number;
  mip_amount : option number;
  tso_amount : option number;
  warrants_amount : option number;
  eqv_post_dilution : option number;
  per_share_post : option number
}.

(** [p[k]] *)
Definition getField (p : PeriodYear) (k : FieldKey) : option number :=
  match k with
  | F_revenue_total => revenue_total p
  | F_revenue_managed_services => revenue_managed_services p
  | F_revenue_professional_services => revenue_professional_services p
  | F_revenue_other => revenue_other p
  | F_revenue_organic => revenue_organic p
  | F_revenue_ma => revenue_ma p
  | F_revenue_growth => revenue_growth p
  | F_organic_growth => organic_growth p
  | F_acquired_revenue => acquired_revenue p
  | F_ebitda_total => ebitda_total p
  | F_ebitda_margin => ebitda_margin p
  | F_ebitda_managed_services => ebitda_managed_services p
  | F_ebitda_professional_services => ebitda_professional_services p
  | F_ebitda_central_costs => ebitda_central_costs p
  | F_ebitda_organic => ebitda_organic p
  | F_ebitda_ma => ebitda_ma p
  | F_margin_managed_services => margin_managed_services p
  | F_margin_professional_services => margin_professional_services p
  | F_margin_central_costs => margin_central_costs p
  | F_capex => capex p
  | F_capex_pct_revenue => capex_pct_revenue p
  | F_change_nwc => change_nwc p
  | F_other_cash_flow_items => other_cash_flow_items p
  | F_operating_fcf => operating_fcf p
  | F_minority_interest => minority_interest p
  | F_operating_fcf_excl_minorities => operating_fcf_excl_minorities p
  | F_cash_conversion => cash_conversion p
  | F_share_count => share_count p
  | F_nibd => nibd p
  | F_option_debt => option_debt p
  | F_adjustments => adjustments p
  | F_enterprise_value => enterprise_value p
  | F_equity_value => equity_value p
  | F_preferred_equity => preferred_equity p
  | F_per_share_pre => per_share_pre p
  | F_mip_amount => mip_amount p
  | F_tso_amount => tso_amount p
  | F_warrants_amount => warrants_amount p
  | F_eqv_post_dilution => eqv_post_dilution p
  | F_per_share_post => per_share_post p
  end.

(** [p[k] = v] *)
Definition setField (p : PeriodYear) (k : FieldKey) (v : number) : PeriodYear :=
  let '(mkPeriod y d l t a0 a1 a2 a3 a4 a5 a6 a7 a8 a9 a10 a11 a12 a13 a14 a15 a16 a17 a18 a19 a20 a21 a22 a23 a24 a25 a26 a27 a28 a29 a30 a31 a32 a33 a34 a35 a36 a37 a38 a39) := p in
  match k with
  | F_revenue_total =>
    mkPeriod y d l t (Some v) a1 a2 a3 a4 a5 a6 a7 a8 a9 a10 a11 a12 a13 a14 a15 a16 a17 a18 a19 a20 a21 a22 a23 a24 a25 a26 a27 a28 a29 a30 a31 a32 a33 a34 a35 a36 a37 a38 a39
  | F_revenue_managed_services =>
    mkPeriod y d l t a0 (Some v) a2 a3 a4 a5 a6 a7 a8 a9 a10 a11 a12 a13 a14 a15 a16 a17 a18 a19 a20 a21 a22 a23 a24 a25 a26 a27 a28 a29 a30 a31 a32 a33 a34 a35 a36 a37 a38 a39
  | F_revenue_professional_services =>
    mkPeriod y d l t a0 a1 (Some v) a3 a4 a5 a6 a7 a8 a9 a10 a11 a12 a13 a14 a15 a16 a17 a18 a19 a20 a21 a22 a23 a24 a25 a26 a27 a28 a29 a30 a31 a32 a33 a34 a35 a36 a37 a38 a39
  | F_revenue_other =>
    mkPeriod y d l t a0 a1 a2 (Some v) a4 a5 a6 a7 a8 a9 a10 a11 a12 a13 a14 a15 a16 a17 a18 a19 a20 a21 a22 a23 a24 a25 a26 a27 a28 a29 a30 a31 a32 a33 a34 a35 a36 a37 a38 a39
  | F_revenue_organic =>
    mkPeriod y d l t a0 a1 a2 a3 (Some v) a5 a6 a7 a8 a9 a10 a11 a12 a13 a14 a15 a16 a17 a18 a19 a20 a21 a22 a23 a24 a25 a26 a27 a28 a29 a30 a31 a32 a33 a34 a35 a36 a37 a38 a39
  | F_revenue_ma =>
    mkPeriod y d l t a0 a1 a2 a3 a4 (Some v) a6 a7 a8 a9 a10 a11 a12 a13 a14 a15 a16 a17 a18 a19 a20 a21 a22 a23 a24 a25 a26 a27 a28 a29 a30 a31 a32 a33 a34 a35 a36 a37 a38 a39
  | F_revenue_growth =>
    mkPeriod y d l t a0 a1 a2 a3 a4 a5 (Some v) a7 a8 a9 a10 a11 a12 a13 a14 a15 a16 a17 a18 a19 a20 a21 a22 a23 a24 a25 a26 a27 a28 a29 a30 a31 a32 a33 a34 a35 a36 a37 a38 a39
  | F_organic_growth =>
    mkPeriod y d l t a0 a1 a2 a3 a4 a5 a6 (Some v) a8 a9 a10 a11 a12 a13 a14 a15 a16 a17 a18 a19 a20 a21 a22 a23 a24 a25 a26 a27 a28 a29 a30 a31 a32 a33 a34 a35 a36 a37 a38 a39
  | F_acquired_revenue =>
    mkPeriod y d l t a0 a1 a2 a3 a4 a5 a6 a7 (Some v) a9 a10 a11 a12 a13 a14 a15 a16 a17 a18 a19 a20 a21 a22 a23 a24 a25 a26 a27 a28 a29 a30 a31 a32 a33 a34 a35 a36 a37 a38 a39
  | F_ebitda_total =>
    mkPeriod y d l t a0 a1 a2 a3 a4 a5 a6 a7 a8 (Some v) a10 a11 a12 a13 a14 a15 a16 a17 a18 a19 a20 a21 a22 a23 a24 a25 a26 a27 a28 a29 a30 a31 a32 a33 a34 a35 a36 a37 a38 a39
  | F_ebitda_margin =>
    mkPeriod y d l t a0 a1 a2 a3 a4 a5 a6 a7 a8 a9 (Some v) a11 a12 a13 a14 a15 a16 a17 a18 a19 a20 a21 a22 a23 a24 a25 a26 a27 a28 a29 a30 a31 a32 a33 a34 a35 a36 a37 a38 a39
  | F_ebitda_managed_services =>
    mkPeriod y d l t a0 a1 a2 a3 a4 a5 a6 a7 a8 a9 a10 (Some v) a12 a13 a14 a15 a16 a17 a18 a19 a20 a21 a22 a23 a24 a25 a26 a27 a28 a29 a30 a31 a32 a33 a34 a35 a36 a37 a38 a39
  | F_ebitda_professional_services =>
    mkPeriod y d l t a0 a1 a2 a3 a4 a5 a6 a7 a8 a9 a10 a11 (Some v) a13 a14 a15 a16 a17 a18 a19 a20 a21 a22 a23 a24 a25 a26 a27 a28 a29 a30 a31 a32 a33 a34 a35 a36 a37 a38 a39
  | F_ebitda_central_costs =>
    mkPeriod y d l t a0 a1 a2 a3 a4 a5 a6 a7 a8 a9 a10 a11 a12 (Some v) a14 a15 a16 a17 a18 a19 a20 a21 a22 a23 a24 a25 a26 a27 a28 a29 a30 a31 a32 a33 a34 a35 a36 a37 a38 a39
  | F_ebitda_organic =>
    mkPeriod y d l t a0 a1 a2 a3 a4 a5 a6 a7 a8 a9 a10 a11 a12 a13 (Some v) a15 a16 a17 a18 a19 a20 a21 a22 a23 a24 a25 a26 a27 a28 a29 a30 a31 a32 a33 a34 a35 a36 a37 a38 a39
  | F_ebitda_ma =>
    mkPeriod y d l t a0 a1 a2 a3 a4 a5 a6 a7 a8 a9 a10 a11 a12 a13 a14 (Some v) a16 a17 a18 a19 a20 a21 a22 a23 a24 a25 a26 a27 a28 a29 a30 a31 a32 a33 a34 a35 a36 a37 a38 a39
  | F_margin_managed_services =>
    mkPeriod y d l t a0 a1 a2 a3 a4 a5 a6 a7 a8 a9 a10 a11 a12 a13 a14 a15 (Some v) a17 a18 a19 a20 a21 a22 a23 a24 a25 a26 a27 a28 a29 a30 a31 a32 a33 a34 a35 a36 a37 a38 a39
  | F_margin_professional_services =>
    mkPeriod y d l t a0 a1 a2 a3 a4 a5 a6 a7 a8 a9 a10 a11 a12 a13 a14 a15 a16 (Some v) a18 a19 a20 a21 a22 a23 a24 a25 a26 a27 a28 a29 a30 a31 a32 a33 a34 a35 a36 a37 a38 a39
  | F_margin_central_costs =>
    mkPeriod y d l t a0 a1 a2 a3 a4 a5 a6 a7 a8 a9 a10 a11 a12 a13 a14 a15 a16 a17 (Some v) a19 a20 a21 a22 a23 a24 a25 a26 a27 a28 a29 a30 a31 a32 a33 a34 a35 a36 a37 a38 a39
  | F_capex =>
    mkPeriod y d l t a0 a1 a2 a3 a4 a5 a6 a7 a8 a9 a10 a11 a12 a13 a14 a15 a16 a17 a18 (Some v) a20 a21 a22 a23 a24 a25 a26 a27 a28 a29 a30 a31 a32 a33 a34 a35 a36 a37 a38 a39
  | F_capex_pct_revenue =>
    mkPeriod y d l t a0 a1 a2 a3 a4 a5 a6 a7 a8 a9 a10 a11 a12 a13 a14 a15 a16 a17 a18 a19 (Some v) a21 a22 a23 a24 a25 a26 a27 a28 a29 a30 a31 a32 a33 a34 a35 a36 a37 a38 a39
  | F_change_nwc =>
    mkPeriod y d l t a0 a1 a2 a3 a4 a5 a6 a7 a8 a9 a10 a11 a12 a13 a14 a15 a16 a17 a18 a19 a20 (Some v) a22 a23 a24 a25 a26 a27 a28 a29 a30 a31 a32 a33 a34 a35 a36 a37 a38 a39
  | F_other_cash_flow_items =>
    mkPeriod y d l t a0 a1 a2 a3 a4 a5 a6 a7 a8 a9 a10 a11 a12 a13 a14 a15 a16 a17 a18 a19 a20 a21 (Some v) a23 a24 a25 a26 a27 a28 a29 a30 a31 a32 a33 a34 a35 a36 a37 a38 a39
  | F_operating_fcf =>
    mkPeriod y d l t a0 a1 a2 a3 a4 a5 a6 a7 a8 a9 a10 a11 a12 a13 a14 a15 a16 a17 a18 a19 a20 a21 a22 (Some v) a24 a25 a26 a27 a28 a29 a30 a31 a32 a33 a34 a35 a36 a37 a38 a39
  | F_minority_interest =>
    mkPeriod y d l t a0 a1 a2 a3 a4 a5 a6 a7 a8 a9 a10 a11 a12 a13 a14 a15 a16 a17 a18 a19 a20 a21 a22 a23 (Some v) a25 a26 a27 a28 a29 a30 a31 a32 a33 a34 a35 a36 a37 a38 a39
  | F_operating_fcf_excl_minorities =>
    mkPeriod y d l t a0 a1 a2 a3 a4 a5 a6 a7 a8 a9 a10 a11 a12 a13 a14 a15 a16 a17 a18 a19 a20 a21 a22 a23 a24 (Some v) a26 a27 a28 a29 a30 a31 a32 a33 a34 a35 a36 a37 a38 a39
  | F_cash_conversion =>
    mkPeriod y d l t a0 a1 a2 a3 a4 a5 a6 a7 a8 a9 a10 a11 a12 a13 a14 a15 a16 a17 a18 a19 a20 a21 a22 a23 a24 a25 (Some v) a27 a28 a29 a30 a31 a32 a33 a34 a35 a36 a37 a38 a39
  | F_share_count =>
    mkPeriod y d l t a0 a1 a2 a3 a4 a5 a6 a7 a8 a9 a10 a11 a12 a13 a14 a15 a16 a17 a18 a19 a20 a21 a22 a23 a24 a25 a26 (Some v) a28 a29 a30 a31 a32 a33 a34 a35 a36 a37 a38 a39
  | F_nibd =>
    mkPeriod y d l t a0 a1 a2 a3 a4 a5 a6 a7 a8 a9 a10 a11 a12 a13 a14 a15 a16 a17 a18 a19 a20 a21 a22 a23 a24 a25 a26 a27 (Some v) a29 a30 a31 a32 a33 a34 a35 a36 a37 a38 a39
  | F_option_debt =>
    mkPeriod y d l t a0 a1 a2 a3 a4 a5 a6 a7 a8 a9 a10 a11 a12 a13 a14 a15 a16 a17 a18 a19 a20 a21 a22 a23 a24 a25 a26 a27 a28 (Some v) a30 a31 a32 a33 a34 a35 a36 a37 a38 a39
  | F_adjustments =>
    mkPeriod y d l t a0 a1 a2 a3 a4 a5 a6 a7 a8 a9 a10 a11 a12 a13 a14 a15 a16 a17 a18 a19 a20 a21 a22 a23 a24 a25 a26 a27 a28 a29 (Some v) a31 a32 a33 a34 a35 a36 a37 a38 a39
  | F_enterprise_value =>
    mkPeriod y d l t a0 a1 a2 a3 a4 a5 a6 a7 a8 a9 a10 a11 a12 a13 a14 a15 a16 a17 a18 a19 a20 a21 a22 a23 a24 a25 a26 a27 a28 a29 a30 (Some v) a32 a33 a34 a35 a36 a37 a38 a39
  | F_equity_value =>
    mkPeriod y d l t a0 a1 a2 a3 a4 a5 a6 a7 a8 a9 a10 a11 a12 a13 a14 a15 a16 a17 a18 a19 a20 a21 a22 a23 a24 a25 a26 a27 a28 a29 a30 a31 (Some v) a33 a34 a35 a36 a37 a38 a39
  | F_preferred_equity =>
    mkPeriod y d l t a0 a1 a2 a3 a4 a5 a6 a7 a8 a9 a10 a11 a12 a13 a14 a15 a16 a17 a18 a19 a20 a21 a22 a23 a24 a25 a26 a27 a28 a29 a30 a31 a32 (Some v) a34 a35 a36 a37 a38 a39
  | F_per_share_pre =>
    mkPeriod y d l t a0 a1 a2 a3 a4 a5 a6 a7 a8 a9 a10 a11 a12 a13 a14 a15 a16 a17 a18 a19 a20 a21 a22 a23 a24 a25 a26 a27 a28 a29 a30 a31 a32 a33 (Some v) a35 a36 a37 a38 a39
  | F_mip_amount =>
    mkPeriod y d l t a0 a1 a2 a3 a4 a5 a6 a7 a8 a9 a10 a11 a12 a13 a14 a15 a16 a17 a18 a19 a20 a21 a22 a23 a24 a25 a26 a27 a28 a29 a30 a31 a32 a33 a34 (Some v) a36 a37 a38 a39
  | F_tso_amount =>
    mkPeriod y d l t a0 a1 a2 a3 a4 a5 a6 a7 a8 a9 a10 a11 a12 a13 a14 a15 a16 a17 a18 a19 a20 a21 a22 a23 a24 a25 a26 a27 a28 a29 a30 a31 a32 a33 a34 a35 (Some v) a37 a38 a39
  | F_warrants_amount =>
    mkPeriod y d l t a0 a1 a2 a3 a4 a5 a6 a7 a8 a9 a10 a11 a12 a13 a14 a15 a16 a17 a18 a19 a20 a21 a22 a23 a24 a25 a26 a27 a28 a29 a30 a31 a32 a33 a34 a35 a36 (Some v) a38 a39
  | F_eqv_post_dilution =>
    mkPeriod y d l t a0 a1 a2 a3 a4 a5 a6 a7 a8 a9 a10 a11 a12 a13 a14 a15 a16 a17 a18 a19 a20 a21 a22 a23 a24 a25 a26 a27 a28 a29 a30 a31 a32 a33 a34 a35 a36 a37 (Some v) a39
  | F_per_share_post =>
    mkPeriod y d l t a0 a1 a2 a3 a4 a5 a6 a7 a8 a9 a10 a11 a12 a13 a14 a15 a16 a17 a18 a19 a20 a21 a22 a23 a24 a25 a26 a27 a28 a29 a30 a31 a32 a33 a34 a35 a36 a37 a38 (Some v)
  end.

Definition FieldKey_eq_dec (a b : FieldKey) : {a = b} + {a <> b}.
Proof. decide equality. Defined.

(** [a === b] on keys *)
Definition isField (a b : FieldKey) : bool :=
  if FieldKey_eq_dec a b then true else false.

(** Bilingual (NO + EN) label to field mapping, each entry the source of
    its pattern and the field; the first match wins. *)
Definition LABEL_MAPPINGS : list (string * FieldKey) :=
  (* Revenue / Omsetning *)
  [ ("^(total\s+)?revenue$", F_revenue_total)
  ; ("^(total\s+)?omsetning$", F_revenue_total)
  ; ("^(totale?\s+)?driftsinntekter$", F_revenue_total)
  ; ("^inntekter?\s*(total)?$", F_revenue_total)
  ; ("^turnover$", F_revenue_total)
  ; ("^net\s+(revenue|sales)", F_revenue_total)
  ; ("^netto\s+omsetning", F_revenue_total)
  ; ("^salgsinntekt", F_revenue_total)
  (* Revenue subcategories *)
  ; ("managed\s+services?\s*(revenue|omsetning)?", F_revenue_managed_services)
  ; ("^a&p$", F_revenue_managed_services)
  ; ("^accounting\s*(&|and)\s*payroll", F_revenue_managed_services)
  ; ("professional\s+services?\s*(revenue|omsetning)?", F_revenue_professional_services)
  ; ("^advisory$", F_revenue_professional_services)
  ; ("^rådgivning$", F_revenue_professional_services)
  ; ("^licen[sc]e[sr]?$", F_revenue_other)
  ; ("(other|annen|øvrig)\s*(revenue|omsetning|inntekt)", F_revenue_other)
  ; ("organic\s*(revenue|omsetning)", F_revenue_organic)
  ; ("organisk\s*(omsetning|inntekt)", F_revenue_organic)
  ; ("(m&a|ma|acquired)\s*(revenue|omsetning)", F_revenue_ma)
  ; ("oppkjøpt\s*(omsetning|inntekt)", F_revenue_ma)
  (* Acquired revenue *)
  ; ("acquired\s+revenue", F_acquired_revenue)
  ; ("oppkjøpt\s+omsetning", F_acquired_revenue)
  (* Revenue growth *)
  ; ("^(total\s+)?(revenue|omsetning)\s*(growth|vekst)", F_revenue_growth)
  ; ("^(total\s+)?vekst\s*%?$", F_revenue_growth)
  ; ("^%\s*growth$", F_revenue_growth)
  (* Organic growth *)
  ; ("organic\s+growth", F_organic_growth)
  ; ("organisk\s+vekst", F_organic_growth)
  (* EBITDA *)
  ; ("^(total\s+)?ebitda$", F_ebitda_total)
  ; ("^(total\s+)?ebitda\s*\(?(pre|ex|excl)", F_ebitda_total)
  ; ("^driftsresultat\s*(før\s*avskr)?", F_ebitda_total)
  (* EBITDA margin *)
  ; ("^ebitda\s*(%|margin|prosent)", F_ebitda_margin)
  ; ("^ebitda-margin", F_ebitda_margin)
  ; ("^margin\s*%?$", F_ebitda_margin)
  (* EBITDA subcategories *)
  ; ("ebitda\s*managed", F_ebitda_managed_services)
  ; ("ebitda\s*professional", F_ebitda_professional_services)
  ; ("^(central|sentrale?)\s*(costs?|kostnader?)", F_ebitda_central_costs)
  ; ("ebitda\s*organic", F_ebitda_organic)
  ; ("ebitda\s*organisk", F_ebitda_organic)
  ; ("^organic\s+ebitda", F_ebitda_organic)
  ; ("^organisk\s+ebitda", F_ebitda_organic)
  ; ("ebitda\s*(m&a|ma|acquired)", F_ebitda_ma)
  (* Cash flow / Kontantstrøm *)
  ; ("^capex$", F_capex)
  ; ("^(total\s+)?capex", F_capex)
  ; ("^investering(er)?$", F_capex)
  ; ("capex.*%\s*(of\s+)?rev", F_capex_pct_revenue)
  ; ("capex\s*%", F_capex_pct_revenue)
  ; ("^(change\s+in\s+)?n(et\s+)?w(orking\s+)?c(apital)?", F_change_nwc)
  ; ("^endring\s*(i\s+)?arbeidskapital", F_change_nwc)
  ; ("^δ?\s*nwc", F_change_nwc)
  ; ("^working\s*capital\s*(change)?", F_change_nwc)
  ; ("^other\s*(cash\s*flow|cf)\s*(items)?", F_other_cash_flow_items)
  ; ("^andre\s*(kontantstrøm|cf)\s*(poster)?", F_other_cash_flow_items)
  ; ("^øvrige\s*(poster|kontantstrøm)", F_other_cash_flow_items)
  ; ("^operating\s*(fcf|free\s*cash\s*flow)$", F_operating_fcf)
  ; ("^operasjonell\s*(fcf|fri\s*kontantstrøm)", F_operating_fcf)
  ; ("^op\.?\s*fcf", F_operating_fcf)
  ; ("^(total\s+)?fcf$", F_operating_fcf)
  ; ("^fri\s*kontantstrøm", F_operating_fcf)
  ; ("^minority\s*(interest)?$", F_minority_interest)
  ; ("^minoritet(sinteresse)?", F_minority_interest)
  ; ("^(operating\s+)?fcf\s*(excl|ex|etter)\s*minor", F_operating_fcf_excl_minorities)
  ; ("^cash\s*conversion", F_cash_conversion)
  ; ("^kontant(konvertering|omregning)", F_cash_conversion)
  (* Equity bridge / Aksjebroanalyse *)
  ; ("^number\s+of\s+shares", F_share_count)
  ; ("^antall\s+aksjer", F_share_count)
  ; ("^aksjer\s*(utestående)?$", F_share_count)
  ; ("^nibd", F_nibd)
  ; ("^net(to)?\s*(interest\s+bearing\s+)?debt", F_nibd)
  ; ("^netto\s*(rente(bærende)?\s*)?gjeld", F_nibd)
  ; ("^option\s*debt", F_option_debt)
  ; ("^opsjonsgjeld", F_option_debt)
  ; ("^adjustments?$", F_adjustments)
  ; ("^justeringer?$", F_adjustments)
  ; ("^ev$", F_enterprise_value)
  ; ("^enterprise\s+value", F_enterprise_value)
  ; ("^selskapsverdi$", F_enterprise_value)
  ; ("^virksomhetsverdi$", F_enterprise_value)
  ; ("^eqv$", F_equity_value)
  ; ("^equity\s+value", F_equity_value)
  ; ("^egenkapitalverdi$", F_equity_value)
  ; ("^pref(erred)?(\s+eq(uity)?)?$", F_preferred_equity)
  ; ("^preferanse(aksjer)?$", F_preferred_equity)
  ; ("per\s+share.*before", F_per_share_pre)
  ; ("per\s+share.*pre", F_per_share_pre)
  ; ("per\s+aksje.*før", F_per_share_pre)
  ; ("^verdi\s*per\s*aksje\s*\(?(pre|før)", F_per_share_pre)
  ; ("^mip$", F_mip_amount)
  ; ("^mip\s+share", F_mip_amount)
  ; ("^tso$", F_tso_amount)
  ; ("^tso\s+warrant", F_tso_amount)
  ; ("^ex(isting)?\s*warr(a|e)nts?", F_warrants_amount)
  ; ("^eksisterende\s*warrants?", F_warrants_amount)
  ; ("eqv.*post", F_eqv_post_dilution)
  ; ("post\s*(mip|dilution)", F_eqv_post_dilution)
  ; ("egenkapital.*etter\s*(utvanning)?", F_eqv_post_dilution)
  ; ("per\s+share.*post", F_per_share_post)
  ; ("per\s+aksje.*etter", F_per_share_post)
  ; ("^verdi\s*per\s*aksje\s*\(?(post|etter)", F_per_share_post)
  ]%string.

Inductive SectionName := sec_revenue | sec_ebitda | sec_cashflow | sec_equity.

Record ParseContext := mkCtx {
  lastSection : option SectionName;
  lastField : option FieldKey
}.

Definition isSection (a : option SectionName) (b : SectionName) : bool :=
  match a, b with
  | Some sec_revenue, sec_revenue | Some sec_ebitda, sec_ebitda
  | Some sec_cashflow, sec_cashflow | Some sec_equity, sec_equity => true
  | _, _ => false
  end.

Definition lastFieldIs (ctx : ParseContext) (k : FieldKey) : bool :=
  match lastField ctx with Some f => isField f k | None => false end.

(** The context update of a table match. *)
Definition noteField (ctx : ParseContext) (field : FieldKey) : ParseContext :=
  {| lastField := Some field;
     lastSection :=
       if startsWith (u "revenue") (fieldName field) then Some sec_revenue
       else if startsWith (u "ebitda") (fieldName field) then Some sec_ebitda
       else if isField field F_capex || isField field F_change_nwc
               || isField field F_operating_fcf
               || isField field F_cash_conversion
               || isField field F_other_cash_flow_items
            then Some sec_cashflow
       else if isField field F_share_count || isField field F_nibd
               || isField field F_enterprise_value
               || isField field F_equity_value
            then Some sec_equity
       else lastSection ctx |}.

(** The loop over [LABEL_MAPPINGS]: the first pattern that matches [l]. *)
Fixpoint firstMapping (table : list (string * FieldKey)) (l : jstring)
  : option FieldKey :=
  match table with
  | [] => None
  | (pattern, field) :: rest =>
    if test (regex pattern) l then Some field else firstMapping rest l
  end.

(** [mapLabelToField(label, ctx)] returns the field and the context as the
    call leaves it. *)
Definition mapLabelToField (label : jstring) (ctx : option ParseContext)
  : option FieldKey * option ParseContext :=
  let l := normalizeLabel label in
  match l with
  | [] => (None, ctx)
  | _ =>
    match firstMapping LABEL_MAPPINGS l with
    | Some field => (Some field, option_map (fun c => noteField c field) ctx)
    | None =>
      match ctx with
      | None => (None, ctx)
      | Some c =>
        if test (regex "^%\s*vekst$") l || test (regex "^%\s*growth$") l then
          if isSection (lastSection c) sec_ebitda then (None, ctx)
          else (Some F_revenue_growth, ctx)
        else if test (regex "^%\s*margin$") l then
          if lastFieldIs c F_ebitda_managed_services
             || lastFieldIs c F_revenue_managed_services
          then (Some F_margin_managed_services, ctx)
          else if lastFieldIs c F_ebitda_professional_services
                  || lastFieldIs c F_revenue_professional_services
          then (Some F_margin_professional_services, ctx)
          else if lastFieldIs c F_ebitda_central_costs
          then (Some F_margin_central_costs, ctx)
          else if isSection (lastSection c) sec_ebitda
                  || lastFieldIs c F_ebitda_total
                  || lastFieldIs c F_ebitda_organic
          then (Some F_ebitda_margin, ctx)
          else if isSection (lastSection c) sec_revenue
          then (Some F_ebitda_margin, ctx)
          else (Some F_ebitda_margin, ctx)
        else (None, ctx)
      end
    end
  end.

(* ------------------------------------------------------------------ *)
(** ** Loops over rows and columns *)

(** The values [a, a+1, ..., b] of a [for (i = a; i <= b; i++)] loop. *)
Definition fromTo (a b : Z) : list Z :=
  map (fun i => a + Z.of_nat i) (seq 0 (Z.to_nat (b - a + 1))).

(* ------------------------------------------------------------------ *)
(** ** Input parameter detection *)

(** A key of [InputParameters] is absent ([None]), present but undefined
    ([Some None], after [params.k = v1 ?? undefined] with a null [v1]) or
    holds a number. *)
Record InputParameters := mkParams {
  shares_completion : option (option number);
  shares_year_end : option (option number);
  tso_warrants_count : option (option number);
  tso_warrants_price : option (option number);
  mip_share_pct : option (option number);
  existing_warrants_count : option (option number);
  existing_warrants_price : option (option number);
  acquired_companies_multiple : option (option number);
  acquired_with_shares_pct : option (option number);
  ev_multiple : option (option number);
  pref_growth_rate : option (option number)
}.

Definition noParams : InputParameters :=
  mkParams None None None None None None None None None None None.

Definition isSet {A} (o : option A) : bool :=
  match o with Some _ => true | None => false end.

(** [Object.keys(params).length] *)
Definition keyCount (p : InputParameters) : Z :=
  Z.of_nat (List.length (filter (fun b : bool => b)
    [isSet (shares_completion p); isSet (shares_year_end p);
     isSet (tso_warrants_count p); isSet (tso_warrants_price p);
     isSet (mip_share_pct p); isSet (existing_warrants_count p);
     isSet (existing_warrants_price p);
     isSet (acquired_companies_multiple p);
     isSet (acquired_with_shares_pct p); isSet (ev_multiple p);
     isSet (pref_growth_rate p)])).

(** [params.k === undefined] *)
Definition isUndefined (o : option (option number)) : bool :=
  match o with Some (Some _) => false | _ => true end.

Definition inputRow (ws : Worksheet) (labelCol r : Z) (params : InputParameters)
  : InputParameters :=
  let label := normalizeLabel (cellStr (getCell ws r labelCol)) in
  let v1 := cellNum (getCell ws r (labelCol + 1)) in
  let v2 := cellNum (getCell ws r (labelCol + 2)) in
  let '(mkParams sc sy tc tp mp ec ep am aw ev pg) := params in
  if includes (u "number of ord shares completion") label
     || includes (u "antall ordinære aksjer ved closing") label then
    mkParams (Some v1) sy tc tp mp ec ep am aw ev pg
  else if includes (u "number of ord shares") label
          || includes (u "number of  ord shares") label
          || includes (u "antall ordinære aksjer") label then
    mkParams sc (Some v1) tc tp mp ec ep am aw ev pg
  else if (includes (u "tso warrants") label
           || includes (u "tso-warranter") label)
          && negb (includes (u "share") label) then
    mkParams sc sy (Some v1)
             (match v2 with Some _ => Some v2 | None => tp end)
             mp ec ep am aw ev pg
  else if includes (u "mip share") label || includes (u "mip andel") label
          || includes (u "mip-andel") label then
    mkParams sc sy tc tp (Some v1) ec ep am aw ev pg
  else if includes (u "existing warrants share") label
          || includes (u "eksisterende warranter") label then
    mkParams sc sy tc tp mp (Some v1)
             (match v2 with Some _ => Some v2 | None => ep end)
             am aw ev pg
  else if includes (u "acquired companies multiple") label
          || includes (u "oppkjøpsmultippel") label then
    mkParams sc sy tc tp mp ec ep
             (match v2, v1 with
              | Some _, _ => Some v2
              | None, Some _ => Some v1
              | None, None => am
              end)
             aw ev pg
  else if includes (u "acquired with shares") label
          || includes (u "oppkjøp med aksjer") label then
    mkParams sc sy tc tp mp ec ep am
             (match v2, v1 with
              | Some _, _ => Some v2
              | None, Some _ => Some v1
              | None, None => aw
              end)
             ev pg
  else params.

Definition parseInputParameters (ws : Worksheet) (endRow labelCol : Z)
  : InputParameters :=
  fold_left (fun params r => inputRow ws labelCol r params)
            (fromTo 1 (endRow - 1)) noParams.

(* ------------------------------------------------------------------ *)
(** ** Year detection *)

Record YearColumn := mkYearCol { col : Z; yc_year : number }.

Definition inYearRange (v : number) : bool :=
  geb v (ofZ 2020) && leb v (ofZ 2040).

(** [v.match(/(?:FY)?(\d{4})/)]: the leftmost match captures the first four
    consecutive digits of [v] (an optional FY before them changes nothing
    of the capture). *)
Fixpoint firstFourDigits (s : jstring) : option jstring :=
  match s with
  | [] => None
  | c :: t =>
    match s with
    | d1 :: d2 :: d3 :: d4 :: _ =>
      if isDigit d1 && isDigit d2 && isDigit d3 && isDigit d4
      then Some [d1; d2; d3; d4]
      else firstFourDigits t
    | _ => None
    end
  end.

Definition yearOfCell (cell : CellValue) : option number :=
  match cellValue cell with
  | Some (JNumber v) => if inYearRange v then Some v else None
  | Some (JString v) =>
    match firstFourDigits v with
    | Some m1 =>
      let y := parseIntDigits m1 in
      if inYearRange y then Some y else None
    | None => None
    end
  | Some (JDate v) =>
    let y := getFullYear v in
    if inYearRange y then Some y else None
  | _ => None
  end.

(** [candidates.sort((a, b) => a.col - b.col)], as a stable insertion sort. *)
Fixpoint insertByCol (x : YearColumn) (l : list YearColumn) : list YearColumn :=
  match l with
  | [] => [x]
  | y :: t => if col x <? col y then x :: l else y :: insertByCol x t
  end.

Definition sortByCol (l : list YearColumn) : list YearColumn :=
  fold_right insertByCol [] l.

(** The [filter] with the [seen] set: the first column of every year. *)
Fixpoint uniqueYears (seen : list number) (l : list YearColumn)
  : list YearColumn :=
  match l with
  | [] => []
  | c :: t =>
    if existsb (Js.eqb (yc_year c)) seen then uniqueYears seen t
    else c :: uniqueYears (yc_year c :: seen) t
  end.

Definition rowCandidates (ws : Worksheet) (r maxCol : Z) : list YearColumn :=
  flat_map (fun c =>
              match yearOfCell (getCell ws r c) with
              | Some yearNum => [mkYearCol c yearNum]
              | None => []
              end)
           (fromTo 1 maxCol).

Record YearHeader := mkYearHeader {
  headerRow : Z;
  yearCols : list YearColumn
}.

Fixpoint findYearHeaderIn (ws : Worksheet) (maxCol minCols : Z) (rows : list Z)
  : option YearHeader :=
  match rows with
  | [] => None
  | r :: rest =>
    let candidates := rowCandidates ws r maxCol in
    if Z.of_nat (List.length candidates) >=? minCols then
      let unique := uniqueYears [] (sortByCol candidates) in
      if Z.of_nat (List.length unique) >=? minCols
      then Some (mkYearHeader r unique)
      else findYearHeaderIn ws maxCol minCols rest
    else findYearHeaderIn ws maxCol minCols rest
  end.

Definition findYearHeader (ws : Worksheet) (startRow endRow minCols : Z)
  : option YearHeader :=
  let maxCol := Z.min 30 (columnCount ws) in
  findYearHeaderIn ws maxCol minCols
                   (fromTo startRow (Z.min endRow (rowCount ws))).

(* ------------------------------------------------------------------ *)
(** ** Label column detection *)

Definition knownLabels : re :=
  regexI "revenue|omsetning|ebitda|driftsinntekt|turnover|inntekt|resultat|nibd|fcf|capex|gjeld|aksjer".

(** [colScores.set(c, (colScores.get(c) || 0) + 1)] on a [Map], which keeps
    its keys in insertion order. *)
Fixpoint bump (c : Z) (scores : list (Z * Z)) : list (Z * Z) :=
  match scores with
  | [] => [(c, 1)]
  | (k, v) :: t => if k =? c then (k, v + 1) :: t else (k, v) :: bump c t
  end.

Definition scoreRow (ws : Worksheet) (maxCol r : Z) (scores : list (Z * Z))
  : list (Z * Z) :=
  fold_left (fun sc c =>
               let str := cellStr (getCell ws r c) in
               match str with
               | [] => sc
               | _ => if test knownLabels str then bump c sc else sc
               end)
            (fromTo 1 maxCol) scores.

Definition bestColumn (scores : list (Z * Z)) : Z :=
  fst (fold_left (fun '(bestCol, bestScore) '(c, score) =>
                    if score >? bestScore then (c, score)
                    else (bestCol, bestScore))
                 scores (2, 0)).

Definition findLabelColumn (ws : Worksheet) (startRow endRow : Z) : Z :=
  let maxCol := Z.min 10 (columnCount ws) in
  let maxRow := Z.min endRow (rowCount ws) in
  let colScores :=
    fold_left (fun sc r => scoreRow ws maxCol r sc) (fromTo startRow maxRow) [] in
  match colScores with
  | [] => 2
  | _ => bestColumn colScores
  end.

(* ------------------------------------------------------------------ *)
(** ** Model block detection *)

Record RawBlock := mkRaw {
  rb_name : jstring;
  sheetName : jstring;
  startRow : Z;
  endRow : Z
}.

Definition setEndRow (b : RawBlock) (e : Z) : RawBlock :=
  mkRaw (rb_name b) (sheetName b) (startRow b) e.

Definition nonEmpty (s : jstring) : bool :=
  match s with [] => false | _ => true end.

Definition nameMarker : re := regexI "^name:\s*".

(** [label.replace(/^name:\s*/i, empty)] on a label the marker matches: the
    five code units of the marker and the white space after them go. *)
Definition stripNameMarker (label : jstring) : jstring :=
  trimStart (skipn 5 label).

(** Strategy 1, one row: the first of the columns that holds a marker. *)
Definition nameRow (ws : Worksheet) (maxCol r : Z) (blocks : list RawBlock)
  : list RawBlock :=
  match find (fun c => test nameMarker (cellStr (getCell ws r c)))
             (fromTo 1 maxCol) with
  | Some c =>
    let label := cellStr (getCell ws r c) in
    let name := trim (stripNameMarker label) in
    if nonEmpty name
    then blocks ++ [mkRaw name (ws_name ws) r (rowCount ws + 1)]
    else blocks
  | None => blocks
  end.

Fixpoint adjustEndRows (blocks : list RawBlock) : list RawBlock :=
  match blocks with
  | b :: rest =>
    match rest with
    | next :: _ => setEndRow b (startRow next) :: adjustEndRows rest
    | [] => blocks
    end
  | [] => []
  end.

Definition findNameBlocks (ws : Worksheet) : list RawBlock :=
  let maxCol := Z.min 10 (columnCount ws) in
  adjustEndRows
    (fold_left (fun blocks r => nameRow ws maxCol r blocks)
               (fromTo 1 (rowCount ws)) []).

Definition sectionPattern : re :=
  regexI "^(scenario|case|modell|plan|budget|forecast|prognose|alternativ)\b".

Definition knownFinancialLabel : re :=
  regexI "revenue|omsetning|ebitda|nibd|capex|aksjer|share|vekst|growth|margin|fcf|gjeld|debt|adjustments?|justeringer|pref|mip|tso|warrant|turnover|driftsinnt".

(** [blocks[blocks.length - 1].endRow = e], when there is a block. *)
Fixpoint setLastEnd (blocks : list RawBlock) (e : Z) : list RawBlock :=
  match blocks with
  | [] => []
  | [b] => [setEndRow b e]
  | b :: rest => b :: setLastEnd rest e
  end.

(** Strategy 2, one row; the state is [(blocks, gapStart, lastNonEmptyRow)]. *)
Definition sectionRow (ws : Worksheet) (labelCol r : Z)
           (st : list RawBlock * Z * Z) : list RawBlock * Z * Z :=
  let '(blocks, gapStart, lastNonEmptyRow) := st in
  let label := cellStr (getCell ws r labelCol) in
  let hasContent :=
    existsb (fun c => nonEmpty (cellStr (getCell ws r c)))
            (fromTo 1 (Z.min 15 (columnCount ws))) in
  if negb hasContent then
    (blocks, (if gapStart <? 0 then r else gapStart), lastNonEmptyRow)
  else
    let blocks1 :=
      if (gapStart >? 0) && (r - gapStart >=? 3) && (lastNonEmptyRow >? 0)
      then setLastEnd blocks gapStart else blocks in
    let blocks2 :=
      if nonEmpty label && test sectionPattern label
         && negb (test knownFinancialLabel label)
      then setLastEnd blocks1 r
           ++ [mkRaw label (ws_name ws) r (rowCount ws + 1)]
      else blocks1 in
    (blocks2, -1, r).

Definition findSectionBlocks (ws : Worksheet) : list RawBlock :=
  let labelCol := findLabelColumn ws 1 (rowCount ws) in
  fst (fst (fold_left (fun st r => sectionRow ws labelCol r st)
                      (fromTo 1 (rowCount ws)) ([], -1, 0))).

(* ------------------------------------------------------------------ *)
(** ** Block parsing *)

Record ParsedModelBlock := mkModel {
  name : jstring;
  periods : list PeriodYear;
  unmappedRows : list jstring;
  source : option jstring
}.

Definition createEmptyPeriod (currentYear : Z) (year : number) : PeriodYear :=
  mkPeriod year
    (numberToString year ++ u "-12-31")
    (numberToString year)
    (if Js.ltb year (ofZ currentYear) then u "actual"
     else if Js.eqb year (ofZ currentYear) then u "budget"
     else u "forecast")
    None None None None None None None None None None
    None None None None None None None None None None
    None None None None None None None None None None
    None None None None None None None None None None.

Record BlockResult := mkBlockResult {
  model : option ParsedModelBlock;
  warnings : list jstring
}.

Definition dq : jstring := [34%N].
Definition quoted (s : jstring) : jstring := dq ++ s ++ dq.

(** The label of a data row: the label column, else the first of column A
    and the two neighbours of the label column with more than one character. *)
Definition rowLabel (ws : Worksheet) (labelCol r : Z) : jstring :=
  match cellStr (getCell ws r labelCol) with
  | [] =>
    match find (fun tryCol =>
                  (tryCol >=? 1) && negb (tryCol =? labelCol)
                  && (let alt := cellStr (getCell ws r tryCol) in
                      nonEmpty alt && (Js.length alt >? 1)))
               [1; labelCol - 1; labelCol + 1] with
    | Some tryCol => cellStr (getCell ws r tryCol)
    | None => []
    end
  | rawLabel => rawLabel
  end.

(** Known non-data rows. *)
Definition isSkippedLabel (rawLabel : jstring) : bool :=
  let lower := toLowerCase rawLabel in
  startsWith (u "name:") lower
  || str_eqb lower (u "input")
  || str_eqb lower (u "inndata")
  || str_eqb lower (u "consolidated p&l")
  || str_eqb lower (u "konsolidert resultat")
  || str_eqb lower (u "comment")
  || str_eqb lower (u "kommentar")
  || test (regexI "^(p&l|resultat(regnskap)?|balanse|balance|summary|sammendrag|notes?|noter?)$") lower.

(** [periods[pi][field] = val] for every year column with a number. *)
Fixpoint populate (ws : Worksheet) (r : Z) (field : FieldKey)
         (periods : list PeriodYear) (yearCols : list YearColumn)
  : list PeriodYear :=
  match periods, yearCols with
  | p :: ps, yc :: ycs =>
    match cellNum (getCell ws r (col yc)) with
    | Some val => setField p field val
    | None => p
    end :: populate ws r field ps ycs
  | _, _ => periods
  end.

Definition rowHasData (ws : Worksheet) (r : Z) (yearCols : list YearColumn)
  : bool :=
  existsb (fun yc => isSet (cellNum (getCell ws r (col yc)))) yearCols.

Record ScanState := mkScan {
  sc_periods : list PeriodYear;
  sc_unmapped : list jstring;
  sc_ctx : ParseContext
}.

(** One iteration of the data row loop of [parseBlockWithYears]. *)
Definition scanRow (ws : Worksheet) (labelCol : Z) (yearInfo : YearHeader)
           (st : ScanState) (r : Z) : ScanState :=
  if r =? headerRow yearInfo then st
  else
    match rowLabel ws labelCol r with
    | [] => st
    | rawLabel =>
      if isSkippedLabel rawLabel then st
      else
        let '(field, ctx') := mapLabelToField rawLabel (Some (sc_ctx st)) in
        let ctx := match ctx' with Some c => c | None => sc_ctx st end in
        match field with
        | None =>
          let hasData := rowHasData ws r (yearCols yearInfo) in
          if hasData && (Js.length rawLabel >? 1)
          then mkScan (sc_periods st) (sc_unmapped st ++ [rawLabel]) ctx
          else mkScan (sc_periods st) (sc_unmapped st) ctx
        | Some field =>
          mkScan (populate ws r field (sc_periods st) (yearCols yearInfo))
                 (sc_unmapped st) ctx
        end
    end.

Definition scanRows (ws : Worksheet) (labelCol : Z) (yearInfo : YearHeader)
           (st : ScanState) (rows : list Z) : ScanState :=
  fold_left (scanRow ws labelCol yearInfo) rows st.

Definition hasKeyField (p : PeriodYear) : bool :=
  isSet (revenue_total p) || isSet (ebitda_total p)
  || isSet (enterprise_value p) || isSet (equity_value p)
  || isSet (nibd p) || isSet (share_count p).

Definition hasAnyField (p : PeriodYear) : bool :=
  existsb (fun k => isSet (getField p k)) allFields.

Definition warnNoData (name : jstring) (ws : Worksheet) : jstring :=
  u "Blokk " ++ quoted name ++ u " (ark " ++ quoted (ws_name ws)
  ++ u "): Ingen gjenkjente finansielle data funnet. Hopper over.".

Definition warnAllEmpty (name : jstring) (ws : Worksheet) : jstring :=
  u "Blokk " ++ quoted name ++ u " (ark " ++ quoted (ws_name ws)
  ++ u "): Alle perioder er tomme. Hopper over.".

Definition warnUnmapped (name : jstring) (unmappedRows : list jstring)
  : jstring :=
  u "Blokk " ++ quoted name ++ u ": "
  ++ intToString (Z.of_nat (List.length unmappedRows))
  ++ u " ukjente rader: " ++ join (u ", ") unmappedRows.

Definition parseBlockWithYears (currentYear : Z) (ws : Worksheet)
           (startRow endRow : Z) (name : jstring) (labelCol : Z)
           (yearInfo : YearHeader) (warnings : list jstring) : BlockResult :=
  let periods0 :=
    map (fun yc => createEmptyPeriod currentYear (yc_year yc))
        (yearCols yearInfo) in
  let st := scanRows ws labelCol yearInfo
                     (mkScan periods0 [] (mkCtx None None))
                     (fromTo startRow (endRow - 1)) in
  let periods := sc_periods st in
  let unmappedRows := sc_unmapped st in
  if negb (existsb hasKeyField periods) then
    mkBlockResult None (warnings ++ [warnNoData name ws])
  else
    let nonEmptyPeriods := filter hasAnyField periods in
    match nonEmptyPeriods with
    | [] => mkBlockResult None (warnings ++ [warnAllEmpty name ws])
    | _ =>
      mkBlockResult
        (Some (mkModel name nonEmptyPeriods unmappedRows
                 (Some (ws_name ws ++ u ":" ++ intToString startRow ++ u "-"
                        ++ intToString (Z.min endRow (rowCount ws))))))
        (match unmappedRows with
         | [] => warnings
         | _ => warnings ++ [warnUnmapped name unmappedRows]
         end)
    end.

Definition warnNoYears (fallbackName : jstring) (ws : Worksheet)
           (startRow effectiveEnd : Z) : jstring :=
  u "Blokk " ++ quoted fallbackName ++ u " (ark " ++ quoted (ws_name ws)
  ++ u ", rad " ++ intToString startRow ++ u "-" ++ intToString effectiveEnd
  ++ u "): Ingen årstall funnet i kolonneoverskrifter. Hopper over.".

Definition parseBlock (currentYear : Z) (ws : Worksheet) (startRow endRow : Z)
           (fallbackName : jstring) : BlockResult :=
  let effectiveEnd := Z.min endRow (rowCount ws + 1) in
  let labelCol := findLabelColumn ws startRow effectiveEnd in
  match findYearHeader ws startRow effectiveEnd 2 with
  | None =>
    match findYearHeader ws startRow effectiveEnd 1 with
    | None =>
      mkBlockResult None [warnNoYears fallbackName ws startRow effectiveEnd]
    | Some relaxed =>
      parseBlockWithYears currentYear ws startRow effectiveEnd fallbackName
                          labelCol relaxed []
    end
  | Some yearInfo =>
    parseBlockWithYears currentYear ws startRow effectiveEnd fallbackName
                        labelCol yearInfo []
  end.

(* ------------------------------------------------------------------ *)
(** ** Post-parse enrichment *)

Definition enrichRow (ws : Worksheet) (labelCol : Z)
           (params : InputParameters) (r : Z) : InputParameters :=
  let valCol := labelCol + 1 in
  let label := normalizeLabel (cellStr (getCell ws r labelCol)) in
  let params1 :=
    if str_eqb label (u "ev") && isUndefined (ev_multiple params) then
      match cellNum (getCell ws r valCol) with
      | Some m =>
        if gtb m (ofZ 0) && Js.ltb m (ofZ 100) then
          let '(mkParams sc sy tc tp mp ec ep am aw _ pg) := params in
          mkParams sc sy tc tp mp ec ep am aw (Some (Some m)) pg
        else params
      | None => params
      end
    else params in
  if startsWith (u "pref") label && isUndefined (pref_growth_rate params1) then
    match cellNum (getCell ws r valCol) with
    | Some m =>
      if gtb m (ofZ 0) && Js.ltb m (ofZ 1) then
        let '(mkParams sc sy tc tp mp ec ep am aw ev _) := params1 in
        mkParams sc sy tc tp mp ec ep am aw ev (Some (Some m))
      else params1
    | None => params1
    end
  else params1.

Definition enrichInputParameters (ws : Worksheet) (params : InputParameters)
           (startRow endRow labelCol : Z) : InputParameters :=
  fold_left (enrichRow ws labelCol)
            (fromTo startRow (Z.min endRow (rowCount ws))) params.

(* ------------------------------------------------------------------ *)
(** ** Main parse function *)

Record ExcelParseResult := mkResult {
  models : list ParsedModelBlock;
  inputParameters : InputParameters;
  res_warnings : list jstring
}.

(** A returned result, or the message of the thrown [Error]. *)
Inductive Outcome :=
| Ok (result : ExcelParseResult)
| Err (message : jstring).

(** The accumulators of the sheet loop. *)
Record ParseState := mkState {
  st_warnings : list jstring;
  allModels : list ParsedModelBlock;
  st_params : InputParameters
}.

(** [parseBlock] on every block, pushing warnings and models. *)
Definition parseBlocks (currentYear : Z) (ws : Worksheet)
           (blocks : list RawBlock) (st : ParseState) : ParseState :=
  fold_left (fun st block =>
               let result := parseBlock currentYear ws (startRow block)
                                        (endRow block) (rb_name block) in
               mkState (st_warnings st ++ warnings result)
                       (match model result with
                        | Some m => allModels st ++ [m]
                        | None => allModels st
                        end)
                       (st_params st))
            blocks st.

(** [filename.replace(/\.[^.]+$/, empty)]: the part from the last dot goes,
    when something follows that dot. *)
Definition stripExtension (s : jstring) : jstring :=
  let r := rev s in
  let rest := dropWhile (fun c => negb (c =? dot)%N) r in
  match rest with
  | [] => s
  | _ :: before =>
    if (List.length rest =? List.length r)%nat then s else rev before
  end.

Definition isDashOrUnderscore (c : cunit) : bool := ((c =? 45) || (c =? 95))%N.

Definition sheetModelName (sheetNames : list jstring)
           (filename : option jstring) (ws : Worksheet) : jstring :=
  if Z.of_nat (List.length sheetNames) >? 1 then ws_name ws
  else
    match filename with
    | Some ((_ :: _) as f) =>
      trim (replaceAll isDashOrUnderscore 32%N (stripExtension f))
    | _ => ws_name ws
    end.

(** [inputParameters = params] when [params] has a key and none was kept. *)
Definition keepFirst (params current : InputParameters) : InputParameters :=
  if (keyCount params >? 0) && (keyCount current =? 0) then params else current.

Definition withParams (st : ParseState) (params : InputParameters) : ParseState :=
  mkState (st_warnings st) (allModels st) params.

Definition wholeSheetBlock (sheetNames : list jstring)
           (filename : option jstring) (ws : Worksheet) : RawBlock :=
  mkRaw (sheetModelName sheetNames filename ws) (ws_name ws) 1 (rowCount ws + 1).

(** The body of [for (const ws of workbook.worksheets)]. *)
Definition processSheet (currentYear : Z) (sheetNames : list jstring)
           (filename : option jstring) (st : ParseState) (ws : Worksheet)
  : ParseState :=
  if (rowCount ws =? 0) || (columnCount ws =? 0) then
    mkState (st_warnings st
             ++ [u "Ark " ++ quoted (ws_name ws) ++ u " er tomt. Hopper over."])
            (allModels st) (st_params st)
  else
    (* Strategy 1: Name: blocks *)
    let nameBlocks := findNameBlocks ws in
    match nameBlocks with
    | first :: _ =>
      let labelCol := findLabelColumn ws 1 (startRow first) in
      let params := parseInputParameters ws (startRow first) labelCol in
      let kept := keepFirst params (st_params st) in
      let enriched :=
        enrichInputParameters ws kept (startRow first) (rowCount ws) labelCol in
      parseBlocks currentYear ws nameBlocks (withParams st enriched)
    | [] =>
      (* Strategy 2: section-style blocks *)
      let sectionBlocks := findSectionBlocks ws in
      if Z.of_nat (List.length sectionBlocks) >? 1 then
        parseBlocks currentYear ws sectionBlocks st
      else
        (* Strategy 3: the entire sheet as one model *)
        let labelCol := findLabelColumn ws 1 (rowCount ws) in
        let yearInfo := findYearHeader ws 1 (rowCount ws) 2 in
        let paramsEndRow :=
          match yearInfo with
          | Some yi => headerRow yi
          | None => Z.min 20 (rowCount ws)
          end in
        let params := parseInputParameters ws paramsEndRow labelCol in
        let kept := keepFirst params (st_params st) in
        let enriched :=
          enrichInputParameters ws kept 1 (rowCount ws) labelCol in
        let block := wholeSheetBlock sheetNames filename ws in
        parseBlocks currentYear ws [block] (withParams st enriched)
    end.

(** The preview of a sheet in the diagnostic message. *)
Definition diagRow (ws : Worksheet) (r : Z) : list jstring :=
  let cells :=
    flat_map (fun c =>
                match cellStr (getCell ws r c) with
                | [] => []
                | v => [[Z.to_N (64 + c)] ++ u ":" ++ quoted (substring0 30 v)]
                end)
             (fromTo 1 (Z.min 8 (columnCount ws))) in
  match cells with
  | [] => []
  | _ => [u "  Rad " ++ intToString r ++ u ": " ++ join (u ", ") cells]
  end.

Definition diagSheet (ws : Worksheet) : list jstring :=
  (u "Ark " ++ quoted (ws_name ws) ++ u " (" ++ intToString (rowCount ws)
   ++ u " rader, " ++ intToString (columnCount ws) ++ u " kolonner):")
  :: flat_map (diagRow ws) (fromTo 1 (Z.min 10 (rowCount ws))).

Definition nl : jstring := [10%N].

Definition noDataMessage (worksheets : list Worksheet) : jstring :=
  u "Kunne ikke finne finansielle data i filen." ++ nl ++ nl
  ++ u "Parseren leter etter:" ++ nl
  ++ u "  • Rader med labels som " ++ quoted (u "Revenue") ++ u ", "
  ++ quoted (u "EBITDA") ++ u ", " ++ quoted (u "Omsetning") ++ u ", "
  ++ quoted (u "Driftsinntekter") ++ u " osv." ++ nl
  ++ u "  • Kolonner med årstall (2020-2040)" ++ nl
  ++ u "  • Evt. " ++ quoted (u "Name:")
  ++ u " rader for å skille modellblokker" ++ nl ++ nl
  ++ u "Filens struktur:" ++ nl
  ++ join nl (flat_map diagSheet worksheets).

(* ------------------------------------------------------------------ *)
(** ** The RangeError of an Invalid Date

    Nothing in the parser catches the RangeError that [cellStr] raises on
    an Invalid Date, so the parse ends with it at the first such call.  The
    definitions below follow the loops of the parser, call by call, and
    tell whether a [cellStr] call of theirs throws; [cellNum],
    [findYearHeader] and the label mapper call neither [cellStr] nor
    [toISOString]. *)

(** [findNameBlocks]: the columns of a row up to the first marker. *)
Definition findNameBlocksThrows (ws : Worksheet) : bool :=
  let maxCol := Z.min 10 (columnCount ws) in
  existsb (fun r =>
             readsUntilThrow (fun cell => test nameMarker (cellStr cell))
                             (map (getCell ws r) (fromTo 1 maxCol)))
          (fromTo 1 (rowCount ws)).

(** [findLabelColumn]: every cell of the rows and columns it scores. *)
Definition findLabelColumnThrows (ws : Worksheet) (startRow endRow : Z) : bool :=
  let maxCol := Z.min 10 (columnCount ws) in
  let maxRow := Z.min endRow (rowCount ws) in
  existsb (fun r => existsb (fun c => cellStrThrows (getCell ws r c))
                            (fromTo 1 maxCol))
          (fromTo startRow maxRow).

(** [parseInputParameters] and [enrichInputParameters]: the label of every
    row of their range. *)
Definition parseInputParametersThrows (ws : Worksheet) (endRow labelCol : Z)
  : bool :=
  existsb (fun r => cellStrThrows (getCell ws r labelCol))
          (fromTo 1 (endRow - 1)).

Definition enrichInputParametersThrows (ws : Worksheet)
           (startRow endRow labelCol : Z) : bool :=
  existsb (fun r => cellStrThrows (getCell ws r labelCol))
          (fromTo startRow (Z.min endRow (rowCount ws))).

(** [findSectionBlocks]: the label column search, then on every row the
    label and the columns up to the first that has content. *)
Definition findSectionBlocksThrows (ws : Worksheet) : bool :=
  findLabelColumnThrows ws 1 (rowCount ws)
  || (let labelCol := findLabelColumn ws 1 (rowCount ws) in
      existsb (fun r =>
                 cellStrThrows (getCell ws r labelCol)
                 || readsUntilThrow
                      (fun cell => nonEmpty (cellStr cell))
                      (map (getCell ws r)
                           (fromTo 1 (Z.min 15 (columnCount ws)))))
              (fromTo 1 (rowCount ws))).

(** The label of a data row: the label column, then, when it is empty, the
    alternative columns up to the first that is taken. *)
Definition rowLabelThrows (ws : Worksheet) (labelCol r : Z) : bool :=
  cellStrThrows (getCell ws r labelCol)
  || match cellStr (getCell ws r labelCol) with
     | [] =>
       readsUntilThrow
         (fun cell => let alt := cellStr cell in
                      nonEmpty alt && (Js.length alt >? 1))
         (map (getCell ws r)
              (filter (fun tryCol => (tryCol >=? 1) && negb (tryCol =? labelCol))
                      [1; labelCol - 1; labelCol + 1]))
     | _ => false
     end.

Definition parseBlockWithYearsThrows (ws : Worksheet) (startRow endRow : Z)
           (labelCol : Z) (yearInfo : YearHeader) : bool :=
  existsb (fun r => negb (r =? headerRow yearInfo) && rowLabelThrows ws labelCol r)
          (fromTo startRow (endRow - 1)).

Definition parseBlockThrows (ws : Worksheet) (startRow endRow : Z) : bool :=
  let effectiveEnd := Z.min endRow (rowCount ws + 1) in
  findLabelColumnThrows ws startRow effectiveEnd
  || (let labelCol := findLabelColumn ws startRow effectiveEnd in
      match findYearHeader ws startRow effectiveEnd 2 with
      | None =>
        match findYearHeader ws startRow effectiveEnd 1 with
        | None => false
        | Some relaxed =>
          parseBlockWithYearsThrows ws startRow effectiveEnd labelCol relaxed
        end
      | Some yearInfo =>
        parseBlockWithYearsThrows ws startRow effectiveEnd labelCol yearInfo
      end).

Definition parseBlocksThrow (ws : Worksheet) (blocks : list RawBlock) : bool :=
  existsb (fun block => parseBlockThrows ws (startRow block) (endRow block))
          blocks.

(** The body of the sheet loop. *)
Definition processSheetThrows (ws : Worksheet) : bool :=
  if (rowCount ws =? 0) || (columnCount ws =? 0) then false
  else
    findNameBlocksThrows ws
    || match findNameBlocks ws with
       | first :: _ =>
         let labelCol := findLabelColumn ws 1 (startRow first) in
         findLabelColumnThrows ws 1 (startRow first)
         || parseInputParametersThrows ws (startRow first) labelCol
         || enrichInputParametersThrows ws (startRow first) (rowCount ws)
                                        labelCol
         || parseBlocksThrow ws (findNameBlocks ws)
       | [] =>
         findSectionBlocksThrows ws
         || (let sectionBlocks := findSectionBlocks ws in
             if Z.of_nat (List.length sectionBlocks) >? 1 then
               parseBlocksThrow ws sectionBlocks
             else
               let labelCol := findLabelColumn ws 1 (rowCount ws) in
               let yearInfo := findYearHeader ws 1 (rowCount ws) 2 in
               let paramsEndRow :=
                 match yearInfo with
                 | Some yi => headerRow yi
                 | None => Z.min 20 (rowCount ws)
                 end in
               findLabelColumnThrows ws 1 (rowCount ws)
               || parseInputParametersThrows ws paramsEndRow labelCol
               || enrichInputParametersThrows ws 1 (rowCount ws) labelCol
               || parseBlockThrows ws 1 (rowCount ws + 1))
       end.

(** The preview of the diagnostic message. *)
Definition diagSheetThrows (ws : Worksheet) : bool :=
  existsb (fun r => existsb (fun c => cellStrThrows (getCell ws r c))
                            (fromTo 1 (Z.min 8 (columnCount ws))))
          (fromTo 1 (Z.min 10 (rowCount ws))).

(** The message of the RangeError of [Date.prototype.toISOString]. *)
Definition invalidTimeValue : jstring := u "Invalid time value".

(** The sheet loop, from the initial accumulators. *)
Definition runSheets (currentYear : Z) (worksheets : list Worksheet)
           (filename : option jstring) : ParseState :=
  let sheetNames := map ws_name worksheets in
  let warnings0 :=
    if Z.of_nat (List.length sheetNames) >? 1
    then [u "Fant " ++ intToString (Z.of_nat (List.length sheetNames))
          ++ u " ark: " ++ join (u ", ") sheetNames]
    else [] in
  fold_left (processSheet currentYear sheetNames filename) worksheets
            (mkState warnings0 [] noParams).

(** [parseExcelBuffer(buffer, filename)] on the workbook that
    [workbook.xlsx.load(buffer)] decodes, in calendar year [currentYear]:
    the error of a workbook without sheets, else the RangeError of the
    sheet loop when a [cellStr] call of it throws, else the result of the
    loop, or, without a model, the RangeError of the diagnostic preview or
    the diagnostic. *)
Definition parseExcelBuffer (currentYear : Z) (worksheets : list Worksheet)
           (filename : option jstring) : Outcome :=
  match worksheets with
  | [] => Err (u "Filen inneholder ingen ark (sheets).")
  | _ =>
    if existsb processSheetThrows worksheets then Err invalidTimeValue
    else
      let st := runSheets currentYear worksheets filename in
      match allModels st with
      | [] =>
        if existsb diagSheetThrows worksheets then Err invalidTimeValue
        else Err (noDataMessage worksheets)
      | _ => Ok (mkResult (allModels st) (st_params st) (st_warnings st))
      end
  end.

(* ------------------------------------------------------------------ *)
(** ** Concrete sheets *)

(** A sheet given by its rows of cells; rows and columns count from 1. *)
Definition sheetOf (name : string) (rows : list (list CellValue)) : Worksheet :=
  mkSheet (u name)
          (Z.of_nat (List.length rows))
          (fold_left (fun m row => Z.max m (Z.of_nat (List.length row))) rows 0)
          (fun r c =>
             if (r <? 1) || (c <? 1) then CellNull
             else nth (Z.to_nat (c - 1)) (nth (Z.to_nat (r - 1)) rows [])
                      CellNull).

Definition Tx (s : string) : CellValue := CellPlain (JString (u s)).
Definition Nm (z : Z) : CellValue := CellPlain (JNumber (ofZ z)).
Definition Bl : CellValue := CellNull.

(* ------------------------------------------------------------------ *)
(** ** Vocabulary of the properties *)

(** The service lines that have a margin field of their own. *)
Inductive Segment := ManagedServices | ProfessionalServices | CentralCosts.

Definition segmentOf (f : FieldKey) : option Segment :=
  match f with
  | F_revenue_managed_services | F_ebitda_managed_services
  | F_margin_managed_services => Some ManagedServices
  | F_revenue_professional_services | F_ebitda_professional_services
  | F_margin_professional_services => Some ProfessionalServices
  | F_ebitda_central_costs | F_margin_central_costs => Some CentralCosts
  | _ => None
  end.

Definition marginOfSegment (s : Segment) : FieldKey :=
  match s with
  | ManagedServices => F_margin_managed_services
  | ProfessionalServices => F_margin_professional_services
  | CentralCosts => F_margin_central_costs
  end.

(** What the context branch answers for a bare margin label. *)
Definition marginFor (ctx : ParseContext) : FieldKey :=
  match lastField ctx with
  | Some F_ebitda_managed_services | Some F_revenue_managed_services =>
    F_margin_managed_services
  | Some F_ebitda_professional_services
  | Some F_revenue_professional_services => F_margin_professional_services
  | Some F_ebitda_central_costs => F_margin_central_costs
  | _ => F_ebitda_margin
  end.


(** A grouping separator and the blanks are dropped from a numeric text. *)
Definition ungroup (sep : cunit) (s : jstring) : jstring :=
  removeAll (fun c => isBlank c || (c =? sep)%N) s.

Definition allDigits (s : jstring) : Prop := Forall (fun c => isDigit c = true) s.

(** The decimal mark that [cellNum] takes in a text with both separators:
    the one whose first occurrence comes later. *)
Definition decimalMark (s : jstring) : cunit :=
  if indexOf dot s <? indexOf comma s then comma else dot.

(** The separator that appears later in a text, as the specification has
    it: the one with the last occurrence. *)
Definition lastIndexOf (c : cunit) (s : jstring) : Z :=
  let i := indexOf c (rev s) in
  if i <? 0 then -1 else Js.length s - 1 - i.

Definition laterSeparator (s : jstring) : cunit :=
  if lastIndexOf dot s <? lastIndexOf comma s then comma else dot.

(** A numeric text read with a given decimal mark: the blanks and the
    other separator are dropped, and the mark is the decimal point. *)
Definition readWithMark (mark : cunit) (s : jstring) : option number :=
  numberOrNull
    (parseFloat (if (mark =? comma)%N
                 then replaceFirst comma dot (ungroup dot s)
                 else ungroup comma s)).

(** The models and the warnings that [parseBlock] yields on a list of
    blocks, in order. *)
Definition blockModels (currentYear : Z) (ws : Worksheet)
           (blocks : list RawBlock) : list ParsedModelBlock :=
  flat_map (fun b =>
              match model (parseBlock currentYear ws (startRow b) (endRow b)
                                      (rb_name b)) with
              | Some m => [m]
              | None => []
              end) blocks.

Definition blockWarnings (currentYear : Z) (ws : Worksheet)
           (blocks : list RawBlock) : list jstring :=
  flat_map (fun b => warnings (parseBlock currentYear ws (startRow b)
                                          (endRow b) (rb_name b))) blocks.

Definition isEmptySheet (ws : Worksheet) : bool :=
  (rowCount ws =? 0) || (columnCount ws =? 0).

(** The blocks of a sheet that reach [parseBlock]. *)
Definition sheetBlocks (sheetNames : list jstring) (filename : option jstring)
           (ws : Worksheet) : list RawBlock :=
  match findNameBlocks ws with
  | [] =>
    if Z.of_nat (List.length (findSectionBlocks ws)) >? 1
    then findSectionBlocks ws
    else [wholeSheetBlock sheetNames filename ws]
  | nameBlocks => nameBlocks
  end.

(** The Model Blocks and the warnings a sheet contributes. *)
Definition sheetModels (currentYear : Z) (sheetNames : list jstring)
           (filename : option jstring) (ws : Worksheet)
  : list ParsedModelBlock :=
  if isEmptySheet ws then []
  else blockModels currentYear ws (sheetBlocks sheetNames filename ws).

Definition sheetWarnings (currentYear : Z) (sheetNames : list jstring)
           (filename : option jstring) (ws : Worksheet) : list jstring :=
  if isEmptySheet ws
  then [u "Ark " ++ quoted (ws_name ws) ++ u " er tomt. Hopper over."]
  else blockWarnings currentYear ws (sheetBlocks sheetNames filename ws).

(** The note on the number of sheets that opens the warnings. *)
Definition sheetCountNote (worksheets : list Worksheet) : list jstring :=
  let sheetNames := map ws_name worksheets in
  if Z.of_nat (List.length sheetNames) >? 1
  then [u "Fant " ++ intToString (Z.of_nat (List.length sheetNames))
        ++ u " ark: " ++ join (u ", ") sheetNames]
  else [].

(** The scan state when the data row loop of a block ends. *)
Definition scanned (currentYear : Z) (ws : Worksheet) (startRow endRow : Z)
           (labelCol : Z) (yearInfo : YearHeader) : ScanState :=
  scanRows ws labelCol yearInfo
           (mkScan (map (fun yc => createEmptyPeriod currentYear (yc_year yc))
                        (yearCols yearInfo))
                   [] (mkCtx None None))
           (fromTo startRow (endRow - 1)).

(** The context of the label mapper when row [r] of a block is read: the
    one left by the rows of the block above it. *)
Definition contextAt (cy : Z) (ws : Worksheet) (s lc : Z) (yi : YearHeader)
           (r : Z) : ParseContext :=
  sc_ctx (scanned cy ws s r lc yi).

(** The field that row [r] of a block feeds: none for the row of the year
    header, for a row without a label and for a known non-data label;
    otherwise what the mapper answers for the label in the context at that
    row. *)
Definition fieldOfRow (cy : Z) (ws : Worksheet) (s lc : Z) (yi : YearHeader)
           (r : Z) : option FieldKey :=
  if r =? headerRow yi then None
  else
    match rowLabel ws lc r with
    | [] => None
    | rawLabel =>
      if isSkippedLabel rawLabel then None
      else fst (mapLabelToField rawLabel
                                (Some (contextAt cy ws s lc yi r)))
    end.

(** Row [r] feeds the number [v] of its column [c] to the field [k]. *)
Definition feeds (cy : Z) (ws : Worksheet) (s lc : Z) (yi : YearHeader)
           (r c : Z) (k : FieldKey) (v : number) : Prop :=
  fieldOfRow cy ws s lc yi r = Some k /\ cellNum (getCell ws r c) = Some v.

(** Some row of the block feeds a number of column [c] to a field. *)
Definition columnHasData (cy : Z) (ws : Worksheet) (lc : Z) (yi : YearHeader)
           (s e : Z) (c : Z) : bool :=
  existsb (fun r => isSet (fieldOfRow cy ws s lc yi r)
                    && isSet (cellNum (getCell ws r c)))
          (fromTo s (e - 1)).

(** A row with a bare margin label that is not the row of the year
    header. *)
Definition isMarginRow (ws : Worksheet) (lc : Z) (yi : YearHeader) (r : Z)
  : Prop :=
  r <> headerRow yi
  /\ normalizeLabel (rowLabel ws lc r) = u "% margin".

(** The code units that [normalizeLabel] can remove from the front of a
    label that normalizes to [% margin], and the percent sign. *)
Definition marginLabelHeads : list cunit :=
  [37; 34; 39; 9; 10; 11; 12; 13; 32; 160; 5760; 8192; 8193; 8194; 8195;
   8196; 8197; 8198; 8199; 8200; 8201; 8202; 8232; 8233; 8239; 8287; 12288;
   65279]%N.

Definition skipPattern : re :=
  regexI "^(p&l|resultat(regnskap)?|balanse|balance|summary|sammendrag|notes?|noter?)$".

Definition isAnchored (r : re) : bool :=
  match r with Cat Bol _ => true | _ => false end.

Definition isEmptyRe (r : re) : bool :=
  match r with Empty => true | _ => false end.


Definition keyFieldSet (m : ParsedModelBlock) : Prop :=
  existsb hasKeyField (periods m) = true.

(** The year and the date that a period carries from its creation. *)
Definition stamp (p : PeriodYear) : number * jstring :=
  (year p, period_date p).

Definition stampOfYear (y : number) : number * jstring :=
  (y, numberToString y ++ u "-12-31").

(** Columns in left-to-right order. *)
Definition leftToRight (l : list YearColumn) : Prop :=
  StronglySorted (fun a b => col a < col b) l.

(** No year is numerically equal to one before it in the list. *)
Definition distinctYears (l : list number) : Prop :=
  ForallOrdPairs (fun a b => Js.eqb b a = false) l.

Definition ascendingYears (l : list number) : Prop :=
  StronglySorted (fun a b => Js.ltb a b = true) l.

(** The year header a block is parsed with: the strict search, else the
    relaxed one. *)
Definition detectedHeader (ws : Worksheet) (s e : Z) (yi : YearHeader) : Prop :=
  findYearHeader ws s e 2 = Some yi
  \/ (findYearHeader ws s e 2 = None /\ findYearHeader ws s e 1 = Some yi).


(** Some column to the left of [c] holds a year equal to [y]. *)
Definition holdsYearBefore (ws : Worksheet) (r c : Z) (y : number) : bool :=
  existsb (fun c' => match yearOfCell (getCell ws r c') with
                     | Some y' => Js.eqb y y'
                     | None => false
                     end)
          (fromTo 1 (c - 1)).

(** The year columns of a row: among its first 30 columns, from left to
    right, every cell that holds a year which no cell to its left holds. *)
Definition firstYearColumns (ws : Worksheet) (r : Z) : list YearColumn :=
  flat_map (fun c => match yearOfCell (getCell ws r c) with
                     | Some y => if holdsYearBefore ws r c y then []
                                 else [mkYearCol c y]
                     | None => []
                     end)
           (fromTo 1 (Z.min 30 (columnCount ws))).

Definition isFirstOfItsYear (ws : Worksheet) (r c : Z) (y : number) : Prop :=
  1 <= c <= Z.min 30 (columnCount ws)
  /\ yearOfCell (getCell ws r c) = Some y
  /\ forall c' y', 1 <= c' < c -> yearOfCell (getCell ws r c') = Some y' ->
                   Js.eqb y y' = false.

(** The number of distinct years among the first 30 cells of a row. *)
Definition distinctYearCount (ws : Worksheet) (r : Z) : Z :=
  Z.of_nat (List.length (firstYearColumns ws r)).


(** The text begins with the five code units of the marker, [name:] in
    either letter case. *)
Definition startsWithMarker (s : jstring) : bool :=
  str_eqb (toLowerCase (firstn 5 s)) (u "name:").

(* ------------------------------------------------------------------ *)
(** ** The issues in the warnings *)

(** No cell of the workbook holds an Invalid Date. *)
Definition noInvalidDate (worksheets : list Worksheet) : Prop :=
  forall ws r c, In ws worksheets -> cellStrThrows (getCell ws r c) = false.

Definition warnEmptySheet (ws : Worksheet) : jstring :=
  u "Ark " ++ quoted (ws_name ws) ++ u " er tomt. Hopper over.".

(** The issue that a block leaves in the warnings: no year in the column
    headers; no key figure under the years; or, when the block is emitted,
    its rows that map to no field. *)
Definition blockIssue (currentYear : Z) (ws : Worksheet) (b : RawBlock)
  : list jstring :=
  let s := startRow b in
  let e' := Z.min (endRow b) (rowCount ws + 1) in
  match findYearHeader ws s e' 2, findYearHeader ws s e' 1 with
  | None, None => [warnNoYears (rb_name b) ws s e']
  | _, _ =>
    match model (parseBlock currentYear ws s (endRow b) (rb_name b)) with
    | None => [warnNoData (rb_name b) ws]
    | Some m =>
      match unmappedRows m with
      | [] => []
      | rows => [warnUnmapped (rb_name b) rows]
      end
    end
  end.

Definition sheetIssues (currentYear : Z) (sheetNames : list jstring)
           (filename : option jstring) (ws : Worksheet) : list jstring :=
  if isEmptySheet ws then [warnEmptySheet ws]
  else flat_map (blockIssue currentYear ws) (sheetBlocks sheetNames filename ws).

(* ------------------------------------------------------------------ *)
(** ** Results up to the classification of periods *)

(** A period without its actual/budget/forecast classification, the one
    property that is computed from the calendar year. *)
Definition eraseType (p : PeriodYear) : PeriodYear :=
  let '(mkPeriod y d l _ a0 a1 a2 a3 a4 a5 a6 a7 a8 a9 a10 a11 a12 a13 a14 a15 a16 a17 a18 a19 a20 a21 a22 a23 a24 a25 a26 a27 a28 a29 a30 a31 a32 a33 a34 a35 a36 a37 a38 a39) := p in
  mkPeriod y d l [] a0 a1 a2 a3 a4 a5 a6 a7 a8 a9 a10 a11 a12 a13 a14 a15 a16 a17 a18 a19 a20 a21 a22 a23 a24 a25 a26 a27 a28 a29 a30 a31 a32 a33 a34 a35 a36 a37 a38 a39.





(* ------------------------------------------------------------------ *)
(** ** The environment of a run: the clock and the time zone *)

(** A time zone: the local year of a valid date, which its UTC text
    identifies. *)
Definition Zone := jstring -> number.

Definition inZoneDate (z : Zone) (d : JsDate) : JsDate :=
  if isInvalidDate d then d else mkDate (toISOString d) (z (toISOString d)).

Definition inZoneValue (z : Zone) (v : JsValue) : JsValue :=
  match v with
  | JDate d => JDate (inZoneDate z d)
  | _ => v
  end.

Definition inZoneCell (z : Zone) (cell : CellValue) : CellValue :=
  match cell with
  | CellPlain v => CellPlain (inZoneValue z v)
  | CellFormula result => CellFormula (option_map (inZoneValue z) result)
  | CellSharedFormula result =>
    CellSharedFormula (option_map (inZoneValue z) result)
  | _ => cell
  end.

(** The sheet of a document as a process in time zone [z] observes it. *)
Definition inZone (z : Zone) (ws : Worksheet) : Worksheet :=
  mkSheet (ws_name ws) (rowCount ws) (columnCount ws)
          (fun r c => inZoneCell z (getCell ws r c)).

(** A run of the parse on a document, in a calendar year and a time zone. *)
Definition parseIn (currentYear : Z) (z : Zone) (worksheets : list Worksheet)
           (filename : option jstring) : Outcome :=
  parseExcelBuffer currentYear (map (inZone z) worksheets) filename.



(* ------------------------------------------------------------------ *)
(** ** Sample sheets *)

(** The end-to-end sample: a marker at row 11, the years at row 12. *)
Definition sheetBaseline : Worksheet :=
  sheetOf "Ark1"
    (repeat [] 10 ++
     [ [Bl; Tx "Name: Baseline Plan"];
       [Bl; Bl; Nm 2025; Nm 2026; Nm 2027; Nm 2028; Nm 2029];
       [Bl; Tx "Revenue"; Nm 100; Nm 110; Nm 121; Nm 133; Nm 146];
       [Bl; Tx "EBITDA"; Nm 20; Nm 24; Nm 28; Nm 32; Nm 37] ]).

Definition sheetThreeYears : Worksheet :=
  sheetOf "Plan"
    [ [Bl; Bl; Nm 2025; Nm 2026; Nm 2027];
      [Bl; Tx "Revenue"; Nm 100; Nm 110; Nm 121] ].

(** Years from right to left, as in a sheet with the latest year first. *)
Definition sheetDescending : Worksheet :=
  sheetOf "Plan"
    [ [Bl; Bl; Nm 2026; Nm 2025];
      [Bl; Tx "Revenue"; Nm 110; Nm 100] ].

(** A year column without any value. *)
Definition sheetSparse : Worksheet :=
  sheetOf "Plan"
    [ [Bl; Bl; Nm 2025; Nm 2026];
      [Bl; Tx "Revenue"; Nm 100; Bl] ].

(** A data row whose label is a single character. *)
Definition sheetShortLabel : Worksheet :=
  sheetOf "Plan"
    [ [Bl; Bl; Nm 2025; Nm 2026];
      [Bl; Tx "Revenue"; Nm 100; Nm 110];
      [Bl; Tx "x"; Nm 5; Nm 6] ].

(** The same with a longer label. *)
Definition sheetLongLabel : Worksheet :=
  sheetOf "Plan"
    [ [Bl; Bl; Nm 2025; Nm 2026];
      [Bl; Tx "Revenue"; Nm 100; Nm 110];
      [Bl; Tx "Headcount"; Nm 5; Nm 6] ].

(** One section title below the year header. *)
Definition sheetOneSection : Worksheet :=
  sheetOf "Budsjett"
    [ [Bl; Bl; Nm 2025; Nm 2026];
      [Bl; Tx "Scenario A"];
      [Bl; Tx "Revenue"; Nm 100; Nm 110] ].

(** Two section titles. *)
Definition sheetTwoSections : Worksheet :=
  sheetOf "Budsjett"
    [ [Bl; Tx "Scenario A"; Nm 2025; Nm 2026];
      [Bl; Tx "Revenue"; Nm 100; Nm 110];
      [Bl; Tx "Scenario B"; Nm 2025; Nm 2026];
      [Bl; Tx "Revenue"; Nm 90; Nm 95] ].

(** A marker in column 11. *)
Definition sheetFarMarker : Worksheet :=
  sheetOf "Ark1"
    [ [Bl; Bl; Nm 2025; Nm 2026; Bl; Bl; Bl; Bl; Bl; Bl; Tx "Name: X"];
      [Bl; Tx "Revenue"; Nm 100; Nm 110] ].

(** Two markers. *)
Definition sheetTwoMarkers : Worksheet :=
  sheetOf "Ark1"
    [ [Bl; Tx "Name:   Base case  "; Nm 2025; Nm 2026];
      [Bl; Tx "Revenue"; Nm 100; Nm 110];
      [Tx "NAME: Upside"; Bl; Nm 2025; Nm 2026];
      [Bl; Tx "Revenue"; Nm 120; Nm 130] ].

(** Only an EBITDA margin row: data, but none of the key fields. *)
Definition sheetMarginOnly : Worksheet :=
  sheetOf "Plan"
    [ [Bl; Bl; Nm 2025; Nm 2026];
      [Bl; Tx "EBITDA margin"; Nm 20; Nm 21] ].

(** The growth of EBITDA on the row under EBITDA. *)
Definition sheetEbitdaGrowth : Worksheet :=
  sheetOf "Plan"
    [ [Bl; Bl; Nm 2025; Nm 2026];
      [Bl; Tx "Revenue"; Nm 100; Nm 110];
      [Bl; Tx "EBITDA"; Nm 20; Nm 24];
      [Bl; Tx "% growth"; Nm 5; Nm 20] ].

(** A margin row under a service line, and one under the total. *)
Definition sheetSegmentMargins : Worksheet :=
  sheetOf "Plan"
    [ [Bl; Bl; Nm 2025; Nm 2026];
      [Bl; Tx "Revenue"; Nm 100; Nm 110];
      [Bl; Tx "EBITDA managed services"; Nm 10; Nm 12];
      [Bl; Tx "% margin"; Nm 40; Nm 41];
      [Bl; Tx "EBITDA"; Nm 30; Nm 33];
      [Bl; Tx "% margin"; Nm 30; Bl] ].

(** A header of two date cells at the turn of the year. *)
Definition sheetDateHeader : Worksheet :=
  sheetOf "Plan"
    [ [Bl; Bl;
       CellPlain (JDate (mkDate (u "2025-12-31T23:30:00.000Z") (ofZ 2025)));
       CellPlain (JDate (mkDate (u "2026-12-31T23:30:00.000Z") (ofZ 2026)))];
      [Bl; Tx "Revenue"; Nm 100; Nm 110] ].

(** Two time zones: UTC, and one hour east of it, where the last hour of a
    year in UTC belongs to the next year. *)
Definition zoneUTC : Zone := fun iso => parseIntDigits (firstn 4 iso).
Definition zoneEast : Zone :=
  fun iso =>
    let y := parseIntDigits (firstn 4 iso) in
    if str_eqb (firstn 8 (skipn 5 iso)) (u "12-31T23") then
      match y with
      | Fin m e => mkFin (m * 10 ^ e + 1) 0
      | other => other
      end
    else y.

(** A sheet of notes whose second cell is a date cell with an Invalid
    Date. *)
Definition sheetInvalidDate : Worksheet :=
  sheetOf "Notes"
    [ [Tx "Updated"; CellPlain (JDate (mkDate [] NaN))] ].

(** A sheet without rows. *)
Definition sheetNoRows : Worksheet := sheetOf "Tom" [].

(* ------------------------------------------------------------------ *)
(** ** Vocabulary of the further properties *)

(** [v] is what the rows [s] to [e - 1] leave in the field [k] for column
    [c]: the number of the last row that feeds [k] from that column. *)
Definition readFrom (cy : Z) (ws : Worksheet) (lc : Z) (yi : YearHeader)
           (s e : Z) (c : Z) (k : FieldKey) (v : number) : Prop :=
  exists r,
    s <= r < e
    /\ feeds cy ws s lc yi r c k v
    /\ forall r' v', r < r' < e -> ~ feeds cy ws s lc yi r' c k v'.

(** The Period of a year column: it carries the year of the column, and its
    fields hold what the rows leave for that column, and nothing else. *)
Definition periodFrom (cy : Z) (ws : Worksheet) (lc : Z) (yi : YearHeader)
           (s e : Z) (p : PeriodYear) (yc : YearColumn) : Prop :=
  year p = yc_year yc
  /\ forall k v, getField p k = Some v
                 <-> readFrom cy ws lc yi s e (col yc) k v.

(** The text that opens the three warnings of a skipped block. *)
Definition namesBlock (name w : jstring) : Prop :=
  exists rest, w = u "Blokk " ++ quoted name ++ rest.

(** What holds of every Model Block that is handed to the caller. *)
Definition wellFormedModel (m : ParsedModelBlock) : Prop :=
  periods m <> []
  /\ Forall (fun p => hasAnyField p = true) (periods m)
  /\ Forall (fun l => Js.length l > 1 /\ isSkippedLabel l = false)
            (unmappedRows m).

(** The context after a run of row labels. *)
Definition contextAfter (labels : list jstring) (ctx : ParseContext)
  : ParseContext :=
  fold_left (fun c l =>
               match snd (mapLabelToField l (Some c)) with
               | Some c' => c'
               | None => c
               end) labels ctx.

(** The year columns of a row: the cells among the first 30 columns that
    hold a year, the first column of each year. *)
Definition rowYears (ws : Worksheet) (r : Z) : list YearColumn :=
  uniqueYears [] (sortByCol (rowCandidates ws r (Z.min 30 (columnCount ws)))).

Definition yearCount (ws : Worksheet) (r : Z) : Z :=
  Z.of_nat (List.length (rowYears ws r)).
(** A parameter that is absent, or a number strictly between two bounds. *)
Definition absentOrWithin (lo hi : Z) (o : option (option number)) : Prop :=
  match o with
  | None => True
  | Some None => False
  | Some (Some m) => gtb m (ofZ lo) = true /\ Js.ltb m (ofZ hi) = true
  end.

Definition multiplesInRange (p : InputParameters) : Prop :=
  absentOrWithin 0 100 (ev_multiple p) /\ absentOrWithin 0 1 (pref_growth_rate p).

(** The nine parameters that [parseInputParameters] reads from labelled rows. *)
Definition labelParams (p : InputParameters) :=
  (shares_completion p, shares_year_end p, tso_warrants_count p,
   tso_warrants_price p, mip_share_pct p, existing_warrants_count p,
   existing_warrants_price p, acquired_companies_multiple p,
   acquired_with_shares_pct p).

(** A parameter that is set stays as it is. *)
Definition keptIfSet (o o' : option (option number)) : Prop :=
  forall m, o = Some (Some m) -> o' = Some (Some m).

(** A key that is present holds what [cellNum] reads in column [c] of one of
    the rows 1 to [e - 1]. *)
Definition readAbove (ws : Worksheet) (e c : Z) (o : option (option number))
  : Prop :=
  match o with
  | None => True
  | Some v => exists r, 1 <= r < e /\ cellNum (getCell ws r c) = v
  end.

(** The same for a key that is only ever assigned a number. *)
Definition numberAbove (ws : Worksheet) (e : Z) (cols : list Z)
           (o : option (option number)) : Prop :=
  match o with
  | None => True
  | Some None => False
  | Some (Some m) =>
    exists r c, 1 <= r < e /\ In c cols /\ cellNum (getCell ws r c) = Some m
  end.

(** A sheet with input rows above the year header and the two multiples
    among the data rows. *)
Definition sheetWithInputs : Worksheet :=
  sheetOf "Modell"
    [ [Bl; Tx "Number of ord shares completion"; Nm 1000];
      [Bl; Tx "TSO warrants"; Nm 50; Nm 12];
      [Bl; Bl; Nm 2025; Nm 2026];
      [Bl; Tx "Revenue"; Nm 100; Nm 110];
      [Bl; Tx "EV"; Nm 12; Nm 1300];
      [Bl; Tx "Pref growth"; CellPlain (JNumber (Fin 8 (-2))); Nm 5] ].


(** The year of a period with the date, the label and the classification
    that it got when it was created. *)
Definition periodHead (p : PeriodYear) : number * jstring * jstring * jstring :=
  (year p, period_date p, period_label p, period_type p).

(** No cell of the block, in the rows and the columns that the year search
    reads, holds a year. *)
Definition noYearCell (ws : Worksheet) (s e : Z) : Prop :=
  forall r c,
    s <= r <= Z.min e (rowCount ws) ->
    1 <= c <= Z.min 30 (columnCount ws) ->
    yearOfCell (getCell ws r c) = None.


(** The cell holds one of the known financial terms. *)
Definition isKnownLabelCell (ws : Worksheet) (r c : Z) : bool :=
  match cellStr (getCell ws r c) with
  | [] => false
  | str => test knownLabels str
  end.

(** The number of rows of the range in which column [c] holds a known
    financial term. *)
Definition labelScore (ws : Worksheet) (s e c : Z) : Z :=
  Z.of_nat (List.length (filter (fun r => isKnownLabelCell ws r c)
                                (fromTo s (Z.min e (rowCount ws))))).

(** [colScores.get(c) || 0] *)
Definition scoreOf (c : Z) (scores : list (Z * Z)) : Z :=
  match find (fun kv => fst kv =? c) scores with
  | Some kv => snd kv
  | None => 0
  end.

(** A score map has every key once, with a positive score. *)
Definition scoreMap (scores : list (Z * Z)) : Prop :=
  NoDup (map fst scores) /\ Forall (fun kv => 1 <= snd kv) scores.


(** One cell of the scan of [findLabelColumn]. *)
Definition scoreCell (ws : Worksheet) (r : Z) (scores : list (Z * Z)) (c : Z)
  : list (Z * Z) :=
  if isKnownLabelCell ws r c then bump c scores else scores.


(** Consecutive blocks: every block ends where the next one starts, and
    [P] holds of the last one. *)
Fixpoint chainWith (P : RawBlock -> Prop) (blocks : list RawBlock) : Prop :=
  match blocks with
  | [] => True
  | b :: rest =>
    startRow b < endRow b
    /\ match rest with
       | [] => P b
       | next :: _ => endRow b = startRow next
       end
    /\ chainWith P rest
  end.

(** The last block ends at [last]. *)
Definition chained (last : Z) (blocks : list RawBlock) : Prop :=
  chainWith (fun b => endRow b = last) blocks.

(** The block starts at a row of the sheet whose first marker cell, among
    the first ten columns, gives its name. *)
Definition openedByMarker (ws : Worksheet) (b : RawBlock) : Prop :=
  1 <= startRow b <= rowCount ws
  /\ sheetName b = ws_name ws
  /\ rb_name b <> []
  /\ trim (rb_name b) = rb_name b
  /\ exists c,
       1 <= c <= Z.min 10 (columnCount ws)
       /\ startsWithMarker (cellStr (getCell ws (startRow b) c)) = true
       /\ rb_name b = trim (stripNameMarker (cellStr (getCell ws (startRow b) c)))
       /\ forall c', 1 <= c' < c ->
             startsWithMarker (cellStr (getCell ws (startRow b) c')) = false.


(** The row has text in one of its first fifteen columns. *)
Definition hasContentRow (ws : Worksheet) (r : Z) : bool :=
  existsb (fun c => nonEmpty (cellStr (getCell ws r c)))
          (fromTo 1 (Z.min 15 (columnCount ws))).

(** The block ends after the last row of the sheet, or at the first of
    three rows without content. *)
Definition endsAtGapOrSheetEnd (ws : Worksheet) (b : RawBlock) : Prop :=
  endRow b = rowCount ws + 1
  \/ (endRow b + 2 <= rowCount ws
      /\ forall r, endRow b <= r <= endRow b + 2 -> hasContentRow ws r = false).

(** The block starts at a row whose text in the label column is its name:
    a section title that holds no financial term. *)
Definition openedBySection (ws : Worksheet) (b : RawBlock) : Prop :=
  let label :=
    cellStr (getCell ws (startRow b) (findLabelColumn ws 1 (rowCount ws))) in
  1 <= startRow b <= rowCount ws
  /\ hasContentRow ws (startRow b) = true
  /\ sheetName b = ws_name ws
  /\ rb_name b = label
  /\ label <> []
  /\ test sectionPattern label = true
  /\ test knownFinancialLabel label = false.

(** What holds between two rows of the loop of [findSectionBlocks], before
    row [r]. *)
Definition sectionLoop (ws : Worksheet) (r : Z) (st : list RawBlock * Z * Z)
  : Prop :=
  let '(blocks, gapStart, lastNonEmptyRow) := st in
  chainWith (endsAtGapOrSheetEnd ws) blocks
  /\ Forall (fun b => openedBySection ws b /\ startRow b <= lastNonEmptyRow)
            blocks
  /\ 0 <= lastNonEmptyRow < r
  /\ (gapStart = -1
      \/ (lastNonEmptyRow < gapStart < r
          /\ forall r', gapStart <= r' < r -> hasContentRow ws r' = false)).


(** A block without a year header. *)
Definition sheetNoYears : Worksheet :=
  sheetOf "Plan"
    [ [Bl; Tx "Revenue"; Nm 100; Nm 110];
      [Bl; Tx "EBITDA"; Nm 20; Nm 24] ].

(** The model bears the name of the block [b] of the sheet [ws], and its
    source names the sheet and the rows of the block. *)
Definition parsedFrom (ws : Worksheet) (b : RawBlock) (m : ParsedModelBlock)
  : Prop :=
  name m = rb_name b
  /\ source m
     = Some (ws_name ws ++ u ":" ++ intToString (startRow b) ++ u "-"
             ++ intToString (Z.min (endRow b) (rowCount ws))).
(* ================================================================== *)
(** * Properties *)

(* ------------------------------------------------------------------ *)
(** ** The patterns *)

Ltac split_N_tests :=
  repeat (match goal with
          | |- context [(?a <=? ?b)%N] => destruct (N.leb_spec a b)
          | |- context [(?a =? ?b)%N] => destruct (N.eqb_spec a b)
          end; try lia).

Lemma str_eqb_eq a b : str_eqb a b = true <-> a = b.
Proof.
  unfold str_eqb. destruct (list_eq_dec N.eq_dec a b); split; congruence.
Qed.

(** Every pattern of the parser is in the fragment that [regex] reads. *)
Lemma patterns_read :
  forallb (fun entry => isSet (parse false (fst entry))) LABEL_MAPPINGS = true
  /\ forallb (fun src => isSet (parse false src))
             ["^%\s*vekst$"; "^%\s*growth$"; "^%\s*margin$"]%string = true
  /\ knownLabels <> Empty /\ nameMarker <> Empty /\ sectionPattern <> Empty
  /\ knownFinancialLabel <> Empty
  /\ isSet (parse true "^(p&l|resultat(regnskap)?|balanse|balance|summary|sammendrag|notes?|noter?)$") = true.
Proof. vm_compute. repeat split; discriminate. Qed.

Lemma matchesFrom_Empty p s : matchesFrom p Empty s = false.
Proof. revert p. induction s as [|c s IH]; intros p; simpl; auto. Qed.

Lemma matchesFrom_Alt p a b s :
  matchesFrom p (Alt a b) s = matchesFrom p a s || matchesFrom p b s.
Proof.
  revert p a b. induction s as [|c s IH]; intros p a b; [reflexivity|].
  simpl. unfold alt.
  destruct (deriv p c a) eqn:Ea; destruct (deriv p c b) eqn:Eb;
    rewrite ?IH, ?matchesFrom_Empty, ?orb_false_r; reflexivity.
Qed.

Lemma matchesFrom_alt p a b s :
  matchesFrom p (alt a b) s = matchesFrom p a s || matchesFrom p b s.
Proof.
  unfold alt. destruct a, b;
    rewrite ?matchesFrom_Alt, ?matchesFrom_Empty, ?orb_false_r; reflexivity.
Qed.

Lemma matchesFrom_anything p s : matchesFrom p anything s = true.
Proof. revert p. induction s as [|c s IH]; intros p; [reflexivity|]. simpl. apply IH. Qed.

(** A pattern that begins with [^] cannot match from a later position. *)
Lemma anchored_dead R c t :
  matchesFrom (Some c) (Cat anything (Cat (Cat Bol R) anything)) t = false.
Proof.
  revert c. induction t as [|d t IH]; intros c; [reflexivity|].
  simpl. apply IH.
Qed.

(** A run of a class, then anything: every text matches. *)
Lemma tail_matches W p s :
  matchesFrom p (Cat (Cat (Star (Class W)) Eps) anything) s = true.
Proof.
  revert p. induction s as [|c s IH]; intros p; [reflexivity|].
  simpl. destruct (W c); simpl.
  - rewrite matchesFrom_Alt, IH. reflexivity.
  - apply matchesFrom_anything.
Qed.

(** [test] on an anchored pattern of five classes and a run. *)
Lemma test_anchored_prefix f1 f2 f3 f4 f5 W s :
  test (Cat Bol (Cat (Class f1) (Cat (Class f2) (Cat (Class f3)
         (Cat (Class f4) (Cat (Class f5) (Cat (Star (Class W)) Eps))))))) s
  = match s with
    | c1 :: c2 :: c3 :: c4 :: c5 :: _ => f1 c1 && f2 c2 && f3 c3 && f4 c4 && f5 c5
    | _ => false
    end.
Proof.
  unfold test.
  destruct s as [|c1 s]; [reflexivity|].
  cbn [matchesFrom deriv nullable anything andb orb cat alt].
  destruct (f1 c1); cbn [matchesFrom deriv nullable anything andb orb cat alt].
  2:{ rewrite anchored_dead. now destruct s as [|? [|? [|? [|? ?]]]]. }
  rewrite matchesFrom_Alt, anchored_dead. cbn [orb].
  destruct s as [|c2 s]; [reflexivity|].
  cbn [matchesFrom deriv nullable anything andb orb cat alt].
  destruct (f2 c2); cbn [matchesFrom deriv nullable anything andb orb cat alt].
  2:{ rewrite matchesFrom_Empty. now destruct s as [|? [|? [|? ?]]]. }
  destruct s as [|c3 s]; [reflexivity|].
  cbn [matchesFrom deriv nullable anything andb orb cat alt].
  destruct (f3 c3); cbn [matchesFrom deriv nullable anything andb orb cat alt].
  2:{ rewrite matchesFrom_Empty. now destruct s as [|? [|? ?]]. }
  destruct s as [|c4 s]; [reflexivity|].
  cbn [matchesFrom deriv nullable anything andb orb cat alt].
  destruct (f4 c4); cbn [matchesFrom deriv nullable anything andb orb cat alt].
  2:{ rewrite matchesFrom_Empty. now destruct s as [|? ?]. }
  destruct s as [|c5 s]; [reflexivity|].
  cbn [matchesFrom deriv nullable anything andb orb cat alt].
  destruct (f5 c5); cbn [matchesFrom deriv nullable anything andb orb cat alt].
  2:{ now rewrite matchesFrom_Empty. }
  apply tail_matches.
Qed.

Lemma lowerUnit_is c x :
  (c < 192)%N -> ~ (65 <= c <= 90)%N ->
  lowerUnit x = c <-> x = c \/ ((97 <= c <= 122)%N /\ x = (c - 32)%N).
Proof.
  intros Hc Hn. unfold lowerUnit.
  destruct ((65 <=? x) && (x <=? 90))%N eqn:E1.
  - apply andb_true_iff in E1 as (A & B). apply N.leb_le in A, B.
    split; [intros <-; right; lia | lia].
  - assert (N1 : ~ (65 <= x <= 90)%N).
    { intros (A & B). apply N.leb_le in A, B. now rewrite A, B in E1. }
    destruct ((192 <=? x) && (x <=? 222) && negb (x =? 215))%N eqn:E2.
    + apply andb_true_iff in E2 as (E2 & _).
      apply andb_true_iff in E2 as (A & B). apply N.leb_le in A, B.
      split; lia.
    + destruct (N.eqb_spec x 916); split; lia.
Qed.

Lemma letter_class c x :
  (97 <= c <= 122)%N ->
  ((x =? c) || ((65 <=? c) && (c <=? 90) && (x =? c + 32))
   || ((97 <=? c) && (c <=? 122) && (x =? c - 32)))%N
  = (lowerUnit x =? c)%N.
Proof.
  intros Hc. apply eq_true_iff_eq.
  rewrite !orb_true_iff, !andb_true_iff, !N.eqb_eq, !N.leb_le.
  rewrite (lowerUnit_is c x) by lia. intuition lia.
Qed.

Lemma colon_class x :
  ((x =? 58) || ((65 <=? 58) && (58 <=? 90) && (x =? 58 + 32))
   || ((97 <=? 58) && (58 <=? 122) && (x =? 58 - 32)))%N
  = (lowerUnit x =? 58)%N.
Proof.
  apply eq_true_iff_eq.
  rewrite !orb_true_iff, !andb_true_iff, !N.eqb_eq, !N.leb_le.
  rewrite (lowerUnit_is 58 x) by lia. intuition lia.
Qed.

(** The marker pattern matches the texts that begin with [name:] in either
    letter case. *)
Lemma nameMarker_test s : test nameMarker s = startsWithMarker s.
Proof.
  change nameMarker with
    (Cat Bol (Cat (lit true 110%N) (Cat (lit true 97%N) (Cat (lit true 109%N)
       (Cat (lit true 101%N) (Cat (lit true 58%N)
          (Cat (Star (Class isWhite)) Eps))))))).
  unfold lit. rewrite test_anchored_prefix. unfold startsWithMarker.
  destruct s as [|c1 [|c2 [|c3 [|c4 [|c5 s]]]]];
    try (symmetry; apply not_true_is_false; rewrite str_eqb_eq;
         intros H; apply (f_equal (@List.length cunit)) in H; discriminate).
  cbv beta. rewrite !letter_class by lia. rewrite colon_class.
  change (toLowerCase (firstn 5 (c1 :: c2 :: c3 :: c4 :: c5 :: s)))
    with [lowerUnit c1; lowerUnit c2; lowerUnit c3; lowerUnit c4; lowerUnit c5].
  change (u "name:") with [110; 97; 109; 101; 58]%N.
  destruct (N.eqb_spec (lowerUnit c1) 110%N) as [->|N1];
    [|symmetry; apply not_true_is_false; rewrite str_eqb_eq; congruence].
  destruct (N.eqb_spec (lowerUnit c2) 97%N) as [->|N2];
    [|symmetry; apply not_true_is_false; rewrite str_eqb_eq; congruence].
  destruct (N.eqb_spec (lowerUnit c3) 109%N) as [->|N3];
    [|symmetry; apply not_true_is_false; rewrite str_eqb_eq; congruence].
  destruct (N.eqb_spec (lowerUnit c4) 101%N) as [->|N4];
    [|symmetry; apply not_true_is_false; rewrite str_eqb_eq; congruence].
  destruct (N.eqb_spec (lowerUnit c5) 58%N) as [->|N5];
    [|symmetry; apply not_true_is_false; rewrite str_eqb_eq; congruence].
  reflexivity.
Qed.

(* ------------------------------------------------------------------ *)
(** ** The label mapper *)

Lemma firstMapping_In table l f :
  firstMapping table l = Some f -> In f (map snd table).
Proof.
  induction table as [|[pattern field] rest IH]; simpl; [discriminate|].
  destruct (test (regex pattern) l).
  - intros [= ->]. now left.
  - intros H. right. now apply IH.
Qed.

(** A table match returns its field and records it in the context. *)
Lemma mapLabelToField_table label ctx f :
  firstMapping LABEL_MAPPINGS (normalizeLabel label) = Some f ->
  normalizeLabel label <> [] ->
  mapLabelToField label (Some ctx) = (Some f, Some (noteField ctx f)).
Proof.
  intros Hf Hne. unfold mapLabelToField.
  destruct (normalizeLabel label) as [|c l]; [congruence|].
  now rewrite Hf.
Qed.

Lemma noteField_lastField ctx f : lastField (noteField ctx f) = Some f.
Proof. reflexivity. Qed.

(** The table has an entry for the bare growth label, so the lookup never
    reaches the branch that consults the section. *)
Lemma percent_growth_in_table :
  firstMapping LABEL_MAPPINGS (u "% growth") = Some F_revenue_growth.
Proof. vm_compute. reflexivity. Qed.

Lemma percent_growth_any_context label ctx :
  normalizeLabel label = u "% growth" ->
  mapLabelToField label (Some ctx)
  = (Some F_revenue_growth, Some (mkCtx (Some sec_revenue) (Some F_revenue_growth))).
Proof.
  intros H.
  rewrite (mapLabelToField_table label ctx F_revenue_growth).
  - reflexivity.
  - rewrite H. exact percent_growth_in_table.
  - rewrite H. discriminate.
Qed.

(** C1 (the code at the failing input): after a row labelled EBITDA has set
    the last section to EBITDA, a row labelled "% growth" is mapped to the
    revenue growth field, not to no field: the table entry [/^%\s*growth$/]
    matches before the branch that returns null for the EBITDA section.  In
    a block, the growth figures under EBITDA land in revenue_growth. *)
Theorem C1_growth_after_ebitda_maps_to_revenue_growth :
  (let ctx0 := Some (mkCtx None None) in
   let r1 := mapLabelToField (u "EBITDA") ctx0 in
   let r2 := mapLabelToField (u "% growth") (snd r1) in
   fst r1 = Some F_ebitda_total
   /\ snd r1 = Some (mkCtx (Some sec_ebitda) (Some F_ebitda_total))
   /\ fst r2 = Some F_revenue_growth
   /\ snd r2 = Some (mkCtx (Some sec_revenue) (Some F_revenue_growth)))
  /\
  (exists m,
      model (parseBlock 2026 sheetEbitdaGrowth 1 5 (u "Plan")) = Some m
      /\ map revenue_growth (periods m) = [Some (ofZ 5); Some (ofZ 20)]
      /\ unmappedRows m = []).
Proof.
  split.
  - vm_compute. repeat split; reflexivity.
  - eexists. split; [vm_compute; reflexivity|]. split; reflexivity.
Qed.

(** The Norwegian spelling has no table entry and does reach that branch. *)
Example percent_vekst_after_ebitda :
  mapLabelToField (u "% vekst") (Some (mkCtx (Some sec_ebitda) (Some F_ebitda_total)))
  = (None, Some (mkCtx (Some sec_ebitda) (Some F_ebitda_total))).
Proof. vm_compute. reflexivity. Qed.

Lemma margin_branch ctx :
  (if lastFieldIs ctx F_ebitda_managed_services
      || lastFieldIs ctx F_revenue_managed_services
   then (Some F_margin_managed_services, Some ctx)
   else if lastFieldIs ctx F_ebitda_professional_services
           || lastFieldIs ctx F_revenue_professional_services
   then (Some F_margin_professional_services, Some ctx)
   else if lastFieldIs ctx F_ebitda_central_costs
   then (Some F_margin_central_costs, Some ctx)
   else if isSection (lastSection ctx) sec_ebitda
           || lastFieldIs ctx F_ebitda_total
           || lastFieldIs ctx F_ebitda_organic
   then (Some F_ebitda_margin, Some ctx)
   else if isSection (lastSection ctx) sec_revenue
   then (Some F_ebitda_margin, Some ctx)
   else (Some F_ebitda_margin, Some ctx))
  = (Some (marginFor ctx), Some ctx).
Proof.
  destruct ctx as [sec [f|]]; unfold marginFor, lastFieldIs; simpl.
  - destruct f; simpl;
      repeat match goal with |- context [if ?b then _ else _] => destruct b end;
      reflexivity.
  - repeat match goal with |- context [if ?b then _ else _] => destruct b end;
      reflexivity.
Qed.

Lemma percent_margin_not_in_table :
  firstMapping LABEL_MAPPINGS (u "% margin") = None
  /\ test (regex "^%\s*vekst$") (u "% margin") = false
  /\ test (regex "^%\s*growth$") (u "% margin") = false
  /\ test (regex "^%\s*margin$") (u "% margin") = true.
Proof. vm_compute. repeat split; reflexivity. Qed.

Lemma percent_margin_by_context label ctx :
  normalizeLabel label = u "% margin" ->
  mapLabelToField label (Some ctx) = (Some (marginFor ctx), Some ctx).
Proof.
  intros H. destruct percent_margin_not_in_table as (H1 & H2 & H3 & H4).
  unfold mapLabelToField. rewrite H.
  change (u "% margin") with (37 :: u " margin")%N in *.
  rewrite H1, H2, H3, H4. simpl orb. cbv iota.
  apply margin_branch.
Qed.

(** The two ways a label gets its field: a table entry, which records the
    field in the context, or the context branch, which leaves the context. *)
Lemma mapLabelToField_cases label ctx :
  (exists f, In f (map snd LABEL_MAPPINGS)
             /\ mapLabelToField label (Some ctx)
                = (Some f, Some (noteField ctx f)))
  \/ (snd (mapLabelToField label (Some ctx)) = Some ctx
      /\ (fst (mapLabelToField label (Some ctx)) = None
          \/ fst (mapLabelToField label (Some ctx)) = Some F_revenue_growth
          \/ fst (mapLabelToField label (Some ctx)) = Some (marginFor ctx))).
Proof.
  unfold mapLabelToField.
  destruct (normalizeLabel label) as [|c l] eqn:El.
  - right. simpl. auto.
  - destruct (firstMapping LABEL_MAPPINGS (c :: l)) as [f|] eqn:Ef.
    + left. exists f. split; [eapply firstMapping_In; eauto | reflexivity].
    + right.
      destruct (test (regex "^%\s*vekst$") (c :: l)
                || test (regex "^%\s*growth$") (c :: l)).
      * destruct (isSection (lastSection ctx) sec_ebitda); simpl; auto.
      * destruct (test (regex "^%\s*margin$") (c :: l)).
        -- rewrite margin_branch. simpl. auto.
        -- simpl. auto.
Qed.

Lemma mapLabelToField_keeps_context label ctx :
  exists ctx', snd (mapLabelToField label (Some ctx)) = Some ctx'.
Proof.
  destruct (mapLabelToField_cases label ctx) as [(f & _ & E)|(E & _)];
    rewrite E; simpl; eauto.
Qed.

(** No table entry names a margin-per-segment field, and a segment field of
    the table is followed by the margin of its segment. *)
Lemma table_field_margin f seg ctx :
  In f (map snd LABEL_MAPPINGS) ->
  segmentOf f = Some seg ->
  marginFor (noteField ctx f) = marginOfSegment seg.
Proof.
  intros Hin Hseg.
  assert (Hn : f <> F_margin_managed_services
               /\ f <> F_margin_professional_services
               /\ f <> F_margin_central_costs).
  { vm_compute in Hin.
    repeat (destruct Hin as [<-|Hin]; [repeat split; discriminate|]).
    destruct Hin. }
  destruct Hn as (N1 & N2 & N3).
  unfold marginFor. rewrite noteField_lastField.
  destruct f; simpl in Hseg; try discriminate;
    injection Hseg as <-; try reflexivity; congruence.
Qed.

Lemma marginFor_segment ctx seg :
  segmentOf (marginFor ctx) = Some seg -> marginFor ctx = marginOfSegment seg.
Proof.
  unfold marginFor.
  destruct (lastField ctx) as [f|]; [destruct f|]; simpl;
    intros [= <-] || discriminate; reflexivity.
Qed.

(* ------------------------------------------------------------------ *)
(** ** The value reader *)

Section StringFacts.

Lemma includes_single c s : includes [c] s = true <-> In c s.
Proof.
  induction s as [|a s IH]; simpl.
  - split; [discriminate | contradiction].
  - rewrite andb_true_r, orb_true_iff, IH, N.eqb_eq. intuition.
Qed.

Lemma trimStart_decomp s :
  exists w, s = w ++ trimStart s /\ Forall (fun c => isWhite c = true) w.
Proof.
  induction s as [|c s (w & E & F)]; simpl.
  - exists []. split; [reflexivity | constructor].
  - destruct (isWhite c) eqn:Ec.
    + exists (c :: w). split; [simpl; now f_equal | now constructor].
    + exists []. split; [reflexivity | constructor].
Qed.

Lemma trimEnd_decomp s :
  exists w, s = trimEnd s ++ w /\ Forall (fun c => isWhite c = true) w.
Proof.
  unfold trimEnd. destruct (trimStart_decomp (rev s)) as (w & E & F).
  exists (rev w). split.
  - rewrite <- rev_app_distr, <- E. now rewrite rev_involutive.
  - apply Forall_forall. intros c Hc. apply in_rev in Hc.
    rewrite Forall_forall in F. auto.
Qed.

Lemma trim_decomp s :
  exists w1 w2, s = w1 ++ trim s ++ w2
                /\ Forall (fun c => isWhite c = true) w1
                /\ Forall (fun c => isWhite c = true) w2.
Proof.
  destruct (trimStart_decomp s) as (w1 & E1 & F1).
  destruct (trimEnd_decomp (trimStart s)) as (w2 & E2 & F2).
  exists w1, w2. unfold trim. rewrite <- E2. auto.
Qed.

Lemma white_notin c w :
  isWhite c = false -> Forall (fun x => isWhite x = true) w -> ~ In c w.
Proof.
  intros Hc F Hin. rewrite Forall_forall in F. apply F in Hin. congruence.
Qed.

Lemma In_trim c s : In c s -> isWhite c = false -> In c (trim s).
Proof.
  intros Hin Hc. destruct (trim_decomp s) as (w1 & w2 & E & F1 & F2).
  rewrite E in Hin. apply in_app_or in Hin as [H|H].
  - exfalso. exact (white_notin c w1 Hc F1 H).
  - apply in_app_or in H as [H|H]; [assumption|].
    exfalso. exact (white_notin c w2 Hc F2 H).
Qed.

Lemma removeAll_app f x y : removeAll f (x ++ y) = removeAll f x ++ removeAll f y.
Proof. apply filter_app. Qed.

Lemma removeAll_all f w :
  Forall (fun c => f c = true) w -> removeAll f w = [].
Proof.
  induction 1 as [|c w Hc _ IH]; simpl; [reflexivity|]. now rewrite Hc.
Qed.

Lemma removeAll_trim f s :
  (forall c, isWhite c = true -> f c = true) ->
  removeAll f (trim s) = removeAll f s.
Proof.
  intros Hf. destruct (trim_decomp s) as (w1 & w2 & E & F1 & F2).
  rewrite E at 2. rewrite !removeAll_app.
  assert (A1 : Forall (fun c => f c = true) w1)
    by (eapply Forall_impl; [|exact F1]; auto).
  assert (A2 : Forall (fun c => f c = true) w2)
    by (eapply Forall_impl; [|exact F2]; auto).
  now rewrite (removeAll_all f w1 A1), (removeAll_all f w2 A2), app_nil_r.
Qed.

Lemma removeAll_ext_in f g s :
  (forall c, In c s -> f c = g c) -> removeAll f s = removeAll g s.
Proof.
  intros H. apply filter_ext_in. intros c Hc. now rewrite H.
Qed.

Lemma removeAll_In f c s : In c (removeAll f s) -> In c s.
Proof. intros H. apply filter_In in H. tauto. Qed.

Lemma indexOfFrom_app_notin i c x y :
  ~ In c x ->
  indexOfFrom i c (x ++ y) = indexOfFrom (i + Z.of_nat (List.length x)) c y.
Proof.
  revert i. induction x as [|a x IH]; intros i Hn; simpl.
  - now rewrite Z.add_0_r.
  - destruct (N.eqb_spec a c) as [->|Hne].
    + exfalso. apply Hn. now left.
    + rewrite IH by (intros H; apply Hn; now right). f_equal. lia.
Qed.

Lemma indexOfFrom_In i c s :
  In c s -> i <= indexOfFrom i c s < i + Z.of_nat (List.length s).
Proof.
  revert i. induction s as [|a s IH]; intros i Hin; [contradiction|].
  simpl indexOfFrom. destruct (N.eqb_spec a c) as [->|Hne].
  - simpl List.length. lia.
  - destruct Hin as [->|Hin]; [congruence|].
    specialize (IH (i + 1) Hin). simpl List.length. lia.
Qed.

Lemma indexOfFrom_app_in i c x y :
  In c x -> indexOfFrom i c (x ++ y) = indexOfFrom i c x.
Proof.
  revert i. induction x as [|a x IH]; intros i Hin; [contradiction|].
  simpl. destruct (N.eqb_spec a c) as [->|Hne]; [reflexivity|].
  destruct Hin as [->|Hin]; [congruence|]. now apply IH.
Qed.

Lemma indexOfFrom_shift i c s :
  In c s -> indexOfFrom i c s = i + indexOfFrom 0 c s.
Proof.
  revert i. induction s as [|a s IH]; intros i Hin; [contradiction|].
  simpl. destruct (N.eqb_spec a c) as [->|Hne]; [lia|].
  destruct Hin as [->|Hin]; [congruence|].
  rewrite (IH (i + 1) Hin), (IH 1 Hin). lia.
Qed.

(** Positions in a string and in its trimmed text differ by the blanks in
    front. *)
Lemma indexOf_trim c s :
  In c (trim s) -> isWhite c = false ->
  exists k, forall d, In d (trim s) -> isWhite d = false ->
                      indexOf d s = k + indexOf d (trim s).
Proof.
  intros _ _. destruct (trim_decomp s) as (w1 & w2 & E & F1 & F2).
  exists (Z.of_nat (List.length w1)). intros d Hd Hw.
  unfold indexOf. rewrite E at 1.
  rewrite indexOfFrom_app_notin by (exact (white_notin d w1 Hw F1)).
  rewrite indexOfFrom_app_in by assumption.
  now rewrite indexOfFrom_shift.
Qed.

Lemma replaceFirst_app_notin a b x y :
  ~ In a x -> replaceFirst a b (x ++ a :: y) = x ++ b :: y.
Proof.
  induction x as [|c x IH]; intros Hn; simpl.
  - now rewrite N.eqb_refl.
  - destruct (N.eqb_spec c a) as [->|Hne].
    + exfalso. apply Hn. now left.
    + f_equal. apply IH. intros H. apply Hn. now right.
Qed.

Lemma str_eqb_differs c s x : In c s -> ~ In c x -> str_eqb s x = false.
Proof.
  intros Hs Hx. destruct (str_eqb s x) eqn:E; [|reflexivity].
  apply str_eqb_eq in E. subst. contradiction.
Qed.

End StringFacts.

Lemma isDigit_range c : isDigit c = true <-> (48 <= c <= 57)%N.
Proof.
  unfold isDigit. rewrite andb_true_iff, !N.leb_le. tauto.
Qed.

Lemma digit_not_white c : isDigit c = true -> isWhite c = false.
Proof.
  rewrite isDigit_range. intros H. unfold isWhite.
  split_N_tests; reflexivity.
Qed.

Lemma white_is_blank c : isWhite c = true -> isBlank c = true.
Proof. unfold isBlank. now intros ->. Qed.

Lemma cellNum_text s :
  cellNum (CellPlain (JString s))
  = if isSentinel (trim s) then None
    else numberOrNull (parseFloat (cleanNumeric (trim s))).
Proof. reflexivity. Qed.

Lemma not_sentinel_with c s :
  In c s -> c = comma \/ c = dot -> isSentinel s = false.
Proof.
  intros Hin Hc. unfold isSentinel.
  assert (E : forall x, ~ In c x -> str_eqb s x = false)
    by (intros x; now apply str_eqb_differs).
  rewrite !E; [reflexivity| | | | |];
    destruct Hc as [-> | ->]; vm_compute; intuition discriminate.
Qed.

(** With commas before the dot, the first-occurrence test of [cleanNumeric]
    takes the dot as the decimal mark and drops the commas. *)
Lemma cleanNumeric_dot_later a b :
  In comma a -> ~ In dot a -> ~ In comma b ->
  cleanNumeric (trim (a ++ dot :: b))
  = ungroup comma a ++ dot :: removeAll isBlank b.
Proof.
  intros Hc Hd Hb.
  set (s := a ++ dot :: b).
  assert (Wc : isWhite comma = false) by reflexivity.
  assert (Wd : isWhite dot = false) by reflexivity.
  assert (Ic : In comma (trim s))
    by (apply In_trim; [apply in_or_app; now left | exact Wc]).
  assert (Id : In dot (trim s))
    by (apply In_trim; [apply in_or_app; right; now left | exact Wd]).
  unfold cleanNumeric.
  change (u ",") with [comma]. change (u ".") with [dot].
  rewrite (proj2 (includes_single comma (trim s)) Ic).
  rewrite (proj2 (includes_single dot (trim s)) Id).
  cbv beta iota zeta. simpl andb. cbv iota.
  destruct (indexOf_trim comma s Ic Wc) as (k & Hk).
  assert (Lt : indexOf comma (trim s) < indexOf dot (trim s)).
  { pose proof (Hk comma Ic Wc) as E1. pose proof (Hk dot Id Wd) as E2.
    assert (P1 : indexOf comma s < Z.of_nat (List.length a)).
    { unfold indexOf, s. rewrite indexOfFrom_app_in by assumption.
      pose proof (indexOfFrom_In 0 comma a Hc). lia. }
    assert (P2 : indexOf dot s = Z.of_nat (List.length a)).
    { unfold indexOf, s. rewrite indexOfFrom_app_notin by assumption.
      cbn [indexOfFrom]. rewrite N.eqb_refl. lia. }
    lia. }
  destruct (Z.ltb_spec (indexOf dot (trim s)) (indexOf comma (trim s))); [lia|].
  rewrite removeAll_trim
    by (intros c Hw; now rewrite (white_is_blank c Hw)).
  unfold s, ungroup. rewrite removeAll_app. simpl. f_equal. f_equal.
  apply removeAll_ext_in. intros c Hin.
  destruct (N.eqb_spec c comma) as [->|_]; [contradiction|].
  apply orb_false_r.
Qed.

(** With dots before the comma, the comma is the decimal mark and the dots
    are dropped. *)
Lemma cleanNumeric_comma_later a b :
  In dot a -> ~ In comma a -> ~ In dot b ->
  cleanNumeric (trim (a ++ comma :: b))
  = ungroup dot a ++ dot :: removeAll isBlank b.
Proof.
  intros Hd Hc Hb.
  set (s := a ++ comma :: b).
  assert (Wc : isWhite comma = false) by reflexivity.
  assert (Wd : isWhite dot = false) by reflexivity.
  assert (Ic : In comma (trim s))
    by (apply In_trim; [apply in_or_app; right; now left | exact Wc]).
  assert (Id : In dot (trim s))
    by (apply In_trim; [apply in_or_app; now left | exact Wd]).
  unfold cleanNumeric.
  change (u ",") with [comma]. change (u ".") with [dot].
  rewrite (proj2 (includes_single comma (trim s)) Ic).
  rewrite (proj2 (includes_single dot (trim s)) Id).
  cbv beta iota zeta. simpl andb. cbv iota.
  destruct (indexOf_trim comma s Ic Wc) as (k & Hk).
  assert (Lt : indexOf dot (trim s) < indexOf comma (trim s)).
  { pose proof (Hk comma Ic Wc) as E1. pose proof (Hk dot Id Wd) as E2.
    assert (P1 : indexOf dot s < Z.of_nat (List.length a)).
    { unfold indexOf, s. rewrite indexOfFrom_app_in by assumption.
      pose proof (indexOfFrom_In 0 dot a Hd). lia. }
    assert (P2 : indexOf comma s = Z.of_nat (List.length a)).
    { unfold indexOf, s. rewrite indexOfFrom_app_notin by assumption.
      cbn [indexOfFrom]. rewrite N.eqb_refl. lia. }
    lia. }
  destruct (Z.ltb_spec (indexOf dot (trim s)) (indexOf comma (trim s))); [|lia].
  rewrite removeAll_trim
    by (intros c Hw; now rewrite (white_is_blank c Hw)).
  unfold s. rewrite removeAll_app. simpl.
  rewrite replaceFirst_app_notin
    by (intros Hin; apply removeAll_In in Hin; contradiction).
  unfold ungroup. f_equal. f_equal.
  apply removeAll_ext_in. intros c Hin.
  destruct (N.eqb_spec c dot) as [->|_]; [contradiction|].
  apply orb_false_r.
Qed.

Lemma takeDigits_app x y :
  allDigits x ->
  match y with c :: _ => isDigit c = false | [] => True end ->
  takeDigits (x ++ y) = (x, y).
Proof.
  intros Hx Hy. induction Hx as [|c x Hc _ IH]; simpl.
  - destruct y as [|d y]; [reflexivity|]. simpl. now rewrite Hy.
  - now rewrite Hc, IH.
Qed.

(** [parseFloat] on digits, a dot and digits: the Number value of the
    decimal they spell. *)
Lemma parseFloat_decimal ip fp :
  allDigits ip -> allDigits fp -> ip <> [] ->
  parseFloat (ip ++ dot :: fp)
  = numberValue (digitsValue (ip ++ fp)) (- Js.length fp).
Proof.
  intros Hi Hf Hne.
  destruct ip as [|c ip]; [congruence|].
  pose proof (Forall_inv Hi) as Hc. cbv beta in Hc.
  pose proof (proj1 (isDigit_range c) Hc) as Rc.
  unfold parseFloat.
  assert (E0 : trimStart ((c :: ip) ++ dot :: fp) = (c :: ip) ++ dot :: fp)
    by (simpl; now rewrite (digit_not_white c Hc)).
  rewrite E0.
  assert (E1 : (c =? 45)%N = false) by (apply N.eqb_neq; lia).
  assert (E2 : (c =? 43)%N = false) by (apply N.eqb_neq; lia).
  assert (E3 : startsWith (u "Infinity") ((c :: ip) ++ dot :: fp) = false).
  { change (startsWith (u "Infinity") ((c :: ip) ++ dot :: fp))
      with ((73 =? c)%N && startsWith (u "nfinity") (ip ++ dot :: fp)).
    replace (73 =? c)%N with false; [reflexivity|].
    symmetry. apply N.eqb_neq. lia. }
  change ((c :: ip) ++ dot :: fp) with (c :: (ip ++ dot :: fp)) at 1.
  cbv iota beta. rewrite E1, E2. cbv iota beta. rewrite E3.
  rewrite (takeDigits_app (c :: ip) (dot :: fp) Hi) by reflexivity.
  cbv iota beta. rewrite N.eqb_refl.
  pose proof (takeDigits_app fp [] Hf I) as E4. rewrite app_nil_r in E4.
  rewrite E4. cbv iota beta.
  change ((c :: ip) ++ fp) with (c :: (ip ++ fp)). cbv iota beta.
  simpl takeExponent. f_equal.
Qed.

Lemma numberOrNull_mkFin m e : numberOrNull (mkFin m e) = Some (mkFin m e).
Proof.
  unfold numberOrNull, mkFin.
  now destruct (stripZeros (S (Z.to_nat (Z.log2 (Z.abs m)))) m e).
Qed.

(** The Number value of a decimal is the nearest double: exact where the
    decimal is the shortest one of a double, rounded to the even significand
    beyond [2^53], infinite from [2^1024 - 2^970] and zero below half the
    smallest subnormal. *)
Example numberValue_rounds :
  numberValue 1 (-1) = Fin 1 (-1)
  /\ numberValue 1105 0 = Fin 1105 0
  /\ numberValue 9007199254740993 0 = Fin 9007199254740992 0
  /\ numberValue 9007199254740995 0 = Fin 9007199254740996 0
  /\ numberValue 123456789012345678 0 = Fin 12345678901234568 1
  /\ numberValue 1 23 = Fin 1 23
  /\ numberValue 17976931348623157 292 = Fin 17976931348623157 292
  /\ numberValue 17976931348623159 292 = Infinity false
  /\ numberValue (-1) 400 = Infinity true
  /\ numberValue 5 (-324) = Fin 5 (-324)
  /\ numberValue 2 (-324) = Fin 0 0
  /\ parseFloat (u "0.1000000000000000055511151231257827") = Fin 1 (-1).
Proof. vm_compute. repeat split; reflexivity. Qed.

(** The Number value of a decimal is never NaN. *)
Lemma numberOrNull_numberValue m e :
  numberOrNull (numberValue m e) = Some (numberValue m e).
Proof.
  unfold numberValue.
  destruct (m =? 0); [reflexivity|].
  destruct (e + decimalLength (Z.abs m) >? 400); [reflexivity|].
  destruct (e + decimalLength (Z.abs m) <? -400); [reflexivity|].
  destruct (decimalFraction (Z.abs m) e) as [n d].
  destruct (roundBinary64 n d) as [[q k]|]; [|reflexivity].
  destruct (q =? 0); [reflexivity|].
  destruct (shortestDecimal q k) as [s t].
  apply numberOrNull_mkFin.
Qed.

Lemma cellNum_dot_later a b :
  In comma a -> ~ In dot a -> ~ In comma b ->
  cellNum (CellPlain (JString (a ++ dot :: b)))
  = numberOrNull (parseFloat (ungroup comma a ++ dot :: removeAll isBlank b)).
Proof.
  intros Hc Hd Hb. rewrite cellNum_text.
  rewrite (not_sentinel_with comma).
  - now rewrite cleanNumeric_dot_later.
  - apply In_trim; [apply in_or_app; now left | reflexivity].
  - now left.
Qed.

Lemma cellNum_comma_later a b :
  In dot a -> ~ In comma a -> ~ In dot b ->
  cellNum (CellPlain (JString (a ++ comma :: b)))
  = numberOrNull (parseFloat (ungroup dot a ++ dot :: removeAll isBlank b)).
Proof.
  intros Hd Hc Hb. rewrite cellNum_text.
  rewrite (not_sentinel_with dot).
  - now rewrite cleanNumeric_comma_later.
  - apply In_trim; [apply in_or_app; now left | reflexivity].
  - now right.
Qed.

(** Every text with both separators: the one whose first occurrence comes
    later is the decimal mark. *)
Lemma cellNum_both_separators s :
  In comma (trim s) -> In dot (trim s) ->
  cellNum (CellPlain (JString s))
  = numberOrNull
      (parseFloat
         (if indexOf dot (trim s) <? indexOf comma (trim s)
          then replaceFirst comma dot (ungroup dot (trim s))
          else ungroup comma (trim s))).
Proof.
  intros Hc Hd. rewrite cellNum_text.
  rewrite (not_sentinel_with comma) by (auto).
  unfold cleanNumeric.
  change (u ",") with [comma]. change (u ".") with [dot].
  rewrite (proj2 (includes_single comma (trim s)) Hc).
  rewrite (proj2 (includes_single dot (trim s)) Hd).
  reflexivity.
Qed.

(** C3, as the code has it: in a numeric text with both separators the one
    whose FIRST occurrence comes later is the decimal mark.  That is the
    separator appearing later whenever the text is a numeral of either
    convention: with every comma before the dot the commas are dropped and
    the dot is kept, with every dot before the comma the dots are dropped
    and the comma becomes the decimal point; when digits remain the cell is
    the Number value (the nearest double) of the decimal they spell.  The
    three sample texts read 1105 and the sentinels read null. *)
Theorem C3_later_first_occurrence_is_decimal_mark :
  (forall s, In comma (trim s) -> In dot (trim s) ->
     cellNum (CellPlain (JString s))
     = readWithMark (decimalMark (trim s)) (trim s))
  /\
  (forall a b, In comma a -> ~ In dot a -> ~ In comma b ->
     cellNum (CellPlain (JString (a ++ dot :: b)))
     = numberOrNull
         (parseFloat (ungroup comma a ++ dot :: removeAll isBlank b)))
  /\
  (forall a b, In dot a -> ~ In comma a -> ~ In dot b ->
     cellNum (CellPlain (JString (a ++ comma :: b)))
     = numberOrNull
         (parseFloat (ungroup dot a ++ dot :: removeAll isBlank b)))
  /\
  (forall a b, In comma a -> ~ In dot a -> ~ In comma b ->
     allDigits (ungroup comma a) -> ungroup comma a <> [] ->
     allDigits (removeAll isBlank b) ->
     cellNum (CellPlain (JString (a ++ dot :: b)))
     = Some (numberValue
               (digitsValue (ungroup comma a ++ removeAll isBlank b))
               (- Js.length (removeAll isBlank b))))
  /\
  (forall a b, In dot a -> ~ In comma a -> ~ In dot b ->
     allDigits (ungroup dot a) -> ungroup dot a <> [] ->
     allDigits (removeAll isBlank b) ->
     cellNum (CellPlain (JString (a ++ comma :: b)))
     = Some (numberValue
               (digitsValue (ungroup dot a ++ removeAll isBlank b))
               (- Js.length (removeAll isBlank b))))
  /\
  (cellNum (Tx "1 105,0") = Some (ofZ 1105)
   /\ cellNum (Tx "1,105.0") = Some (ofZ 1105)
   /\ cellNum (Tx "1.105,0") = Some (ofZ 1105))
  /\
  (cellNum (Tx "-") = None /\ cellNum (Tx "--") = None
   /\ cellNum (Tx "n/a") = None).
Proof.
  split.
  { intros s Hc Hd. rewrite (cellNum_both_separators s Hc Hd).
    unfold readWithMark, decimalMark.
    destruct (indexOf dot (trim s) <? indexOf comma (trim s)); reflexivity. }
  split; [exact cellNum_dot_later|].
  split; [exact cellNum_comma_later|].
  split.
  { intros a b Hc Hd Hb Da Na Db.
    rewrite cellNum_dot_later by assumption.
    rewrite parseFloat_decimal by assumption.
    apply numberOrNull_numberValue. }
  split.
  { intros a b Hd Hc Hb Da Na Db.
    rewrite cellNum_comma_later by assumption.
    rewrite parseFloat_decimal by assumption.
    apply numberOrNull_numberValue. }
  split; vm_compute; repeat split; reflexivity.
Qed.

(** C3 as stated fails where commas and dots interleave: in 1,234.567,8
    the separator appearing later is the comma, yet the cell is read with
    the dot as the decimal mark (1234.5678), the first dot coming after the
    first comma; and likewise in 1.234,567.8 with the separators swapped. *)
Lemma C3_counterexample :
  (let s := u "1,234.567,8" in
   In comma (trim s) /\ In dot (trim s)
   /\ laterSeparator (trim s) = comma
   /\ cellNum (CellPlain (JString s)) = readWithMark dot (trim s)
   /\ cellNum (CellPlain (JString s)) = Some (Fin 12345678 (-4))
   /\ cellNum (CellPlain (JString s))
      <> readWithMark (laterSeparator (trim s)) (trim s))
  /\
  (let s := u "1.234,567.8" in
   In comma (trim s) /\ In dot (trim s)
   /\ laterSeparator (trim s) = dot
   /\ cellNum (CellPlain (JString s)) = readWithMark comma (trim s)
   /\ cellNum (CellPlain (JString s)) = Some (Fin 12345678 (-4))
   /\ cellNum (CellPlain (JString s))
      <> readWithMark (laterSeparator (trim s)) (trim s)).
Proof.
  split; cbv zeta.
  - split; [vm_compute; tauto|]. split; [vm_compute; tauto|].
    split; [vm_compute; reflexivity|]. split; [vm_compute; reflexivity|].
    split; [vm_compute; reflexivity|]. vm_compute. discriminate.
  - split; [vm_compute; tauto|]. split; [vm_compute; tauto|].
    split; [vm_compute; reflexivity|]. split; [vm_compute; reflexivity|].
    split; [vm_compute; reflexivity|]. vm_compute. discriminate.
Qed.

(** C3 on texts in the two conventions, with a sign, an exponent and a
    unit, and on an integer part beyond [2^53], which is read as the
    nearest double. *)
Lemma C3_witness :
  cellNum (Tx "1,234,567.89") = Some (Fin 123456789 (-2))
  /\ cellNum (Tx "1.234.567,89") = Some (Fin 123456789 (-2))
  /\ cellNum (Tx " -1,234.5e2 ") = Some (Fin (-12345) 1)
  /\ cellNum (Tx "1.234,5 kr") = Some (Fin 12345 (-1))
  /\ cellNum (Tx "9,007,199,254,740,993.0") = Some (Fin 9007199254740992 0)
  /\ cellNum (Tx "1,5.5,5") = Some (Fin 1555 (-2)).
Proof.
  destruct C3_later_first_occurrence_is_decimal_mark
    as (G & E & N & ED & ND & _).
  split; [|split; [|split; [|split; [|split]]]].
  - refine (ED (u "1,234,567") (u "89") _ _ _ _ _ _).
    + vm_compute. tauto.
    + vm_compute. intuition discriminate.
    + vm_compute. intuition discriminate.
    + vm_compute. repeat constructor.
    + vm_compute. discriminate.
    + vm_compute. repeat constructor.
  - refine (ND (u "1.234.567") (u "89") _ _ _ _ _ _).
    + vm_compute. tauto.
    + vm_compute. intuition discriminate.
    + vm_compute. intuition discriminate.
    + vm_compute. repeat constructor.
    + vm_compute. discriminate.
    + vm_compute. repeat constructor.
  - refine (E (u " -1,234") (u "5e2 ") _ _ _).
    + vm_compute. tauto.
    + vm_compute. intuition discriminate.
    + vm_compute. intuition discriminate.
  - refine (N (u "1.234") (u "5 kr") _ _ _).
    + vm_compute. tauto.
    + vm_compute. intuition discriminate.
    + vm_compute. intuition discriminate.
  - refine (ED (u "9,007,199,254,740,993") (u "0") _ _ _ _ _ _).
    + vm_compute. tauto.
    + vm_compute. intuition discriminate.
    + vm_compute. intuition discriminate.
    + vm_compute. repeat constructor.
    + vm_compute. discriminate.
    + vm_compute. repeat constructor.
  - refine (G (u "1,5.5,5") _ _).
    + vm_compute. tauto.
    + vm_compute. tauto.
Defined.

(* ------------------------------------------------------------------ *)
(** ** The sheet loop *)

Lemma parseBlocks_spec cy ws blocks st :
  parseBlocks cy ws blocks st
  = mkState (st_warnings st ++ blockWarnings cy ws blocks)
            (allModels st ++ blockModels cy ws blocks)
            (st_params st).
Proof.
  unfold parseBlocks, blockWarnings, blockModels.
  revert st. induction blocks as [|b bs IH]; intros st; simpl.
  - destruct st. simpl. now rewrite !app_nil_r.
  - rewrite IH. simpl. rewrite <- !app_assoc. f_equal.
    destruct (model (parseBlock cy ws (startRow b) (endRow b) (rb_name b)));
      [rewrite <- app_assoc|]; reflexivity.
Qed.

Lemma processSheet_spec cy names fn st ws :
  allModels (processSheet cy names fn st ws)
  = allModels st ++ sheetModels cy names fn ws
  /\ st_warnings (processSheet cy names fn st ws)
     = st_warnings st ++ sheetWarnings cy names fn ws.
Proof.
  unfold processSheet, sheetModels, sheetWarnings, sheetBlocks, isEmptySheet.
  destruct ((rowCount ws =? 0) || (columnCount ws =? 0)).
  - simpl. now rewrite app_nil_r.
  - destruct (findNameBlocks ws) as [|first rest].
    + destruct (Z.of_nat (List.length (findSectionBlocks ws)) >? 1);
        rewrite parseBlocks_spec; simpl; auto.
    + rewrite parseBlocks_spec. simpl. auto.
Qed.

Lemma fold_processSheet cy names fn wss st :
  let out := fold_left (processSheet cy names fn) wss st in
  allModels out = allModels st ++ flat_map (sheetModels cy names fn) wss
  /\ st_warnings out
     = st_warnings st ++ flat_map (sheetWarnings cy names fn) wss.
Proof.
  revert st. induction wss as [|ws wss IH]; intros st; simpl.
  - now rewrite !app_nil_r.
  - destruct (IH (processSheet cy names fn st ws)) as (A & B).
    destruct (processSheet_spec cy names fn st ws) as (C & D).
    rewrite A, B, C, D, <- !app_assoc. auto.
Qed.

(** What the sheet loop accumulates: the models of every sheet in workbook
    order, and the sheet count note followed by the warnings of every
    sheet. *)
Lemma runSheets_spec cy wss fn :
  allModels (runSheets cy wss fn)
  = flat_map (sheetModels cy (map ws_name wss) fn) wss
  /\ st_warnings (runSheets cy wss fn)
     = sheetCountNote wss ++ flat_map (sheetWarnings cy (map ws_name wss) fn) wss.
Proof.
  unfold runSheets.
  match goal with
  | |- context [fold_left ?f wss ?st0] =>
    destruct (fold_processSheet cy (map ws_name wss) fn wss st0) as (A & B)
  end.
  cbv zeta in A, B. rewrite A, B. split; reflexivity.
Qed.

(* ------------------------------------------------------------------ *)
(** ** The block parser *)

Lemma parseBlockWithYears_unfold cy ws s e n lc yi w :
  parseBlockWithYears cy ws s e n lc yi w
  = let st := scanned cy ws s e lc yi in
    if negb (existsb hasKeyField (sc_periods st)) then
      mkBlockResult None (w ++ [warnNoData n ws])
    else
      match filter hasAnyField (sc_periods st) with
      | [] => mkBlockResult None (w ++ [warnAllEmpty n ws])
      | _ =>
        mkBlockResult
          (Some (mkModel n (filter hasAnyField (sc_periods st))
                   (sc_unmapped st)
                   (Some (ws_name ws ++ u ":" ++ intToString s ++ u "-"
                          ++ intToString (Z.min e (rowCount ws))))))
          (match sc_unmapped st with
           | [] => w
           | _ => w ++ [warnUnmapped n (sc_unmapped st)]
           end)
      end.
Proof. reflexivity. Qed.

(** What an emitted model is made of. *)
Lemma parseBlockWithYears_model cy ws s e n lc yi w m :
  model (parseBlockWithYears cy ws s e n lc yi w) = Some m ->
  let st := scanned cy ws s e lc yi in
  existsb hasKeyField (sc_periods st) = true
  /\ name m = n
  /\ periods m = filter hasAnyField (sc_periods st)
  /\ unmappedRows m = sc_unmapped st
  /\ warnings (parseBlockWithYears cy ws s e n lc yi w)
     = match sc_unmapped st with
       | [] => w
       | _ => w ++ [warnUnmapped n (sc_unmapped st)]
       end.
Proof.
  rewrite parseBlockWithYears_unfold. cbv zeta.
  destruct (existsb hasKeyField (sc_periods (scanned cy ws s e lc yi)));
    simpl; [|discriminate].
  destruct (filter hasAnyField (sc_periods (scanned cy ws s e lc yi)));
    simpl; [discriminate|].
  intros [= <-]. simpl. auto.
Qed.

(** [parseBlock] emits a model only through [parseBlockWithYears], on the
    year header of the strict search or else of the relaxed one. *)
Lemma parseBlock_model cy ws s e n m :
  model (parseBlock cy ws s e n) = Some m ->
  let e' := Z.min e (rowCount ws + 1) in
  exists yi,
    detectedHeader ws s e' yi
    /\ parseBlock cy ws s e n
       = parseBlockWithYears cy ws s e' n (findLabelColumn ws s e') yi [].
Proof.
  unfold parseBlock, detectedHeader. cbv zeta.
  destruct (findYearHeader ws s (Z.min e (rowCount ws + 1)) 2) as [yi|] eqn:E2.
  - intros _. exists yi. auto.
  - destruct (findYearHeader ws s (Z.min e (rowCount ws + 1)) 1) as [yi|] eqn:E1.
    + intros _. exists yi. auto.
    + discriminate.
Qed.

Lemma hasKeyField_hasAnyField p : hasKeyField p = true -> hasAnyField p = true.
Proof.
  unfold hasKeyField, hasAnyField. rewrite !orb_true_iff. intros H.
  apply existsb_exists.
  destruct H as [[[[[H|H]|H]|H]|H]|H];
    [exists F_revenue_total | exists F_ebitda_total
     | exists F_enterprise_value | exists F_equity_value
     | exists F_nibd | exists F_share_count];
    (split; [unfold allFields; simpl; tauto | exact H]).
Qed.

Lemma keyField_survives_filter ps :
  existsb hasKeyField ps = true ->
  existsb hasKeyField (filter hasAnyField ps) = true.
Proof.
  rewrite !existsb_exists. intros (p & Hin & Hk). exists p. split; [|exact Hk].
  apply filter_In. split; [exact Hin | now apply hasKeyField_hasAnyField].
Qed.

(** Every model of a result was emitted by [parseBlock]. *)
Lemma models_from_parseBlock (P : ParsedModelBlock -> Prop) cy :
  (forall ws s e n m, model (parseBlock cy ws s e n) = Some m -> P m) ->
  forall wss fn, Forall P (allModels (runSheets cy wss fn)).
Proof.
  intros HP wss fn. rewrite (proj1 (runSheets_spec cy wss fn)).
  apply Forall_flat_map, Forall_forall. intros ws _.
  unfold sheetModels. destruct (isEmptySheet ws); [constructor|].
  unfold blockModels. apply Forall_flat_map, Forall_forall. intros b _.
  destruct (model (parseBlock cy ws (startRow b) (endRow b) (rb_name b)))
    as [m|] eqn:E; [|constructor].
  constructor; [|constructor]. eapply HP; eauto.
Qed.

(** A parse that returns: no [cellStr] call of the sheet loop throws, and
    the result holds what the loop accumulates, with a model at least. *)
Lemma parseExcelBuffer_ok cy wss fn r :
  parseExcelBuffer cy wss fn = Ok r ->
  let st := runSheets cy wss fn in
  existsb processSheetThrows wss = false
  /\ allModels st <> []
  /\ r = mkResult (allModels st) (st_params st) (st_warnings st).
Proof.
  unfold parseExcelBuffer. cbv zeta. destruct wss as [|w wss]; [discriminate|].
  destruct (existsb processSheetThrows (w :: wss)); [discriminate|].
  destruct (allModels (runSheets cy (w :: wss) fn)) as [|m ms].
  - destruct (existsb diagSheetThrows (w :: wss)); discriminate.
  - intros [= <-]. split; [reflexivity|]. split; [discriminate | reflexivity].
Qed.

Lemma result_models cy wss fn r :
  parseExcelBuffer cy wss fn = Ok r -> models r = allModels (runSheets cy wss fn).
Proof.
  intros H. apply parseExcelBuffer_ok in H as (_ & _ & ->). reflexivity.
Qed.

(** C10: every emitted Model Block has a Period with one of the six key
    fields set, in the block parser and in every Parse Result; a block in
    which no Period has a key field is dropped with the no-data warning,
    whatever other fields it has filled. *)
Theorem C10_emitted_blocks_have_key_field :
  (forall cy ws s e n lc yi w m,
      model (parseBlockWithYears cy ws s e n lc yi w) = Some m ->
      keyFieldSet m)
  /\
  (forall cy wss fn r,
      parseExcelBuffer cy wss fn = Ok r -> Forall keyFieldSet (models r))
  /\
  (forall cy ws s e n lc yi w,
      existsb hasKeyField (sc_periods (scanned cy ws s e lc yi)) = false ->
      parseBlockWithYears cy ws s e n lc yi w
      = mkBlockResult None (w ++ [warnNoData n ws])).
Proof.
  assert (A : forall cy ws s e n lc yi w m,
             model (parseBlockWithYears cy ws s e n lc yi w) = Some m ->
             keyFieldSet m).
  { intros cy ws s e n lc yi w m H.
    apply parseBlockWithYears_model in H. cbv zeta in H.
    destruct H as (K & _ & P & _). unfold keyFieldSet. rewrite P.
    now apply keyField_survives_filter. }
  split; [exact A|]. split.
  - intros cy wss fn r H. rewrite (result_models _ _ _ _ H).
    apply models_from_parseBlock. intros ws s e n m Hm.
    destruct (parseBlock_model _ _ _ _ _ _ Hm) as (yi & _ & E).
    rewrite E in Hm. eapply A; eauto.
  - intros cy ws s e n lc yi w H.
    rewrite parseBlockWithYears_unfold. cbv zeta. now rewrite H.
Qed.

(** *** Row ranges *)

Lemma fromTo_nil a b : b < a -> fromTo a b = [].
Proof.
  intros H. unfold fromTo. replace (Z.to_nat (b - a + 1)) with O by lia.
  reflexivity.
Qed.

Lemma fromTo_cons a b : a <= b -> fromTo a b = a :: fromTo (a + 1) b.
Proof.
  intros H. unfold fromTo.
  replace (Z.to_nat (b - a + 1)) with (S (Z.to_nat (b - (a + 1) + 1))) by lia.
  simpl seq. simpl map. f_equal; [lia|].
  rewrite <- seq_shift, map_map. apply map_ext. intros i. lia.
Qed.

Lemma fromTo_split a r b :
  a <= r <= b -> fromTo a b = fromTo a (r - 1) ++ r :: fromTo (r + 1) b.
Proof.
  intros H. remember (Z.to_nat (r - a)) as k eqn:Ek.
  revert a H Ek. induction k as [|k IH]; intros a H Ek.
  - assert (a = r) by lia. subst a.
    rewrite (fromTo_nil r (r - 1)) by lia. simpl. apply fromTo_cons. lia.
  - rewrite (fromTo_cons a b) by lia. rewrite (fromTo_cons a (r - 1)) by lia.
    simpl. f_equal. apply IH; lia.
Qed.

Lemma In_fromTo x a b : In x (fromTo a b) <-> a <= x <= b.
Proof.
  unfold fromTo. rewrite in_map_iff. split.
  - intros (i & <- & Hi). apply in_seq in Hi. lia.
  - intros H. exists (Z.to_nat (x - a)). split; [lia|]. apply in_seq. lia.
Qed.

(** *** Unmapped rows only accumulate *)

Lemma scanRow_unmapped_grows ws lc yi st r :
  exists more, sc_unmapped (scanRow ws lc yi st r) = sc_unmapped st ++ more.
Proof.
  unfold scanRow.
  destruct (r =? headerRow yi); [exists []; now rewrite app_nil_r|].
  destruct (rowLabel ws lc r) as [|c l]; [exists []; now rewrite app_nil_r|].
  destruct (isSkippedLabel (c :: l)); [exists []; now rewrite app_nil_r|].
  destruct (mapLabelToField (c :: l) (Some (sc_ctx st))) as [[f|] ctx']; simpl.
  - exists []. now rewrite app_nil_r.
  - destruct (rowHasData ws r (yearCols yi) && (Js.length (c :: l) >? 1));
      simpl; [eexists; reflexivity | exists []; now rewrite app_nil_r].
Qed.

Lemma scanRows_unmapped_grows ws lc yi rows st :
  exists more, sc_unmapped (scanRows ws lc yi st rows) = sc_unmapped st ++ more.
Proof.
  unfold scanRows. revert st. induction rows as [|r rows IH]; intros st; simpl.
  - exists []. now rewrite app_nil_r.
  - destruct (IH (scanRow ws lc yi st r)) as (m2 & E2).
    destruct (scanRow_unmapped_grows ws lc yi st r) as (m1 & E1).
    exists (m1 ++ m2). now rewrite E2, E1, app_assoc.
Qed.

(** The row that the unmapped list records. *)
Lemma scanRow_records ws lc yi st r :
  r <> headerRow yi ->
  isSkippedLabel (rowLabel ws lc r) = false ->
  fst (mapLabelToField (rowLabel ws lc r) (Some (sc_ctx st))) = None ->
  rowHasData ws r (yearCols yi) = true ->
  Js.length (rowLabel ws lc r) > 1 ->
  In (rowLabel ws lc r) (sc_unmapped (scanRow ws lc yi st r)).
Proof.
  intros Hh Hs Hf Hd Hl. unfold scanRow.
  destruct (Z.eqb_spec r (headerRow yi)); [contradiction|].
  destruct (rowLabel ws lc r) as [|c l] eqn:El.
  - unfold Js.length in Hl. simpl in Hl. lia.
  - rewrite Hs.
    destruct (mapLabelToField (c :: l) (Some (sc_ctx st))) as [field ctx'].
    simpl in Hf. subst field. rewrite Hd.
    destruct (Z.gtb_spec (Js.length (c :: l)) 1); [|lia].
    simpl. apply in_or_app. right. now left.
Qed.

Lemma scanned_split cy ws s r e lc yi :
  s <= r < e ->
  scanned cy ws s e lc yi
  = scanRows ws lc yi
             (scanRow ws lc yi (scanned cy ws s r lc yi) r)
             (fromTo (r + 1) (e - 1)).
Proof.
  intros H. unfold scanned, scanRows.
  rewrite (fromTo_split s r (e - 1)) by lia.
  now rewrite fold_left_app.
Qed.

(** C8 (amended): in a block that is emitted, a row that is not the year
    header, whose label is more than one character long, is not one of the
    known non-data labels and maps to no field in the context the rows
    above leave, and which has a number in some year column, has its label
    in the unmapped rows of the block, and the warnings of the block list
    the unmapped rows. *)
Theorem C8_unmapped_rows_recorded cy ws s e n lc yi w m r :
  model (parseBlockWithYears cy ws s e n lc yi w) = Some m ->
  s <= r < e ->
  r <> headerRow yi ->
  isSkippedLabel (rowLabel ws lc r) = false ->
  fst (mapLabelToField (rowLabel ws lc r)
                       (Some (sc_ctx (scanned cy ws s r lc yi)))) = None ->
  rowHasData ws r (yearCols yi) = true ->
  Js.length (rowLabel ws lc r) > 1 ->
  In (rowLabel ws lc r) (unmappedRows m)
  /\ In (warnUnmapped n (unmappedRows m))
        (warnings (parseBlockWithYears cy ws s e n lc yi w)).
Proof.
  intros Hm Hr Hh Hs Hf Hd Hl.
  apply parseBlockWithYears_model in Hm. cbv zeta in Hm.
  destruct Hm as (_ & _ & _ & Hu & Hw).
  assert (Hin : In (rowLabel ws lc r) (sc_unmapped (scanned cy ws s e lc yi))).
  { rewrite (scanned_split cy ws s r e lc yi Hr).
    destruct (scanRows_unmapped_grows ws lc yi (fromTo (r + 1) (e - 1))
                (scanRow ws lc yi (scanned cy ws s r lc yi) r)) as (more & E).
    rewrite E. apply in_or_app. left. now apply scanRow_records. }
  rewrite Hu, Hw. split; [exact Hin|].
  destruct (sc_unmapped (scanned cy ws s e lc yi)); [contradiction|].
  apply in_or_app. right. now left.
Qed.

(** *** Periods keep the year and the date they were created with *)

Lemma setField_stamp p k v : stamp (setField p k v) = stamp p.
Proof. destruct p, k; reflexivity. Qed.

Lemma populate_stamp ws r f ps ycs :
  map stamp (populate ws r f ps ycs) = map stamp ps.
Proof.
  revert ycs. induction ps as [|p ps IH]; intros ycs; [reflexivity|].
  destruct ycs as [|yc ycs]; [reflexivity|]. simpl. rewrite IH. f_equal.
  destruct (cellNum (getCell ws r (col yc))); [apply setField_stamp|reflexivity].
Qed.

Lemma scanRow_stamp ws lc yi st r :
  map stamp (sc_periods (scanRow ws lc yi st r)) = map stamp (sc_periods st).
Proof.
  unfold scanRow.
  destruct (r =? headerRow yi); [reflexivity|].
  destruct (rowLabel ws lc r) as [|c l]; [reflexivity|].
  destruct (isSkippedLabel (c :: l)); [reflexivity|].
  destruct (mapLabelToField (c :: l) (Some (sc_ctx st))) as [[f|] ctx']; simpl.
  - apply populate_stamp.
  - now destruct (rowHasData ws r (yearCols yi) && (Js.length (c :: l) >? 1)).
Qed.

Lemma scanRows_stamp ws lc yi rows st :
  map stamp (sc_periods (scanRows ws lc yi st rows)) = map stamp (sc_periods st).
Proof.
  unfold scanRows. revert st. induction rows as [|r rows IH]; intros st; simpl.
  - reflexivity.
  - rewrite IH. apply scanRow_stamp.
Qed.

Lemma scanned_stamp cy ws s e lc yi :
  map stamp (sc_periods (scanned cy ws s e lc yi))
  = map (fun yc => stampOfYear (yc_year yc)) (yearCols yi).
Proof.
  unfold scanned. rewrite scanRows_stamp. simpl. now rewrite map_map.
Qed.

(** *** The year header *)

Lemma findYearHeaderIn_some ws maxCol minCols rows yi :
  findYearHeaderIn ws maxCol minCols rows = Some yi ->
  In (headerRow yi) rows
  /\ yearCols yi
     = uniqueYears [] (sortByCol (rowCandidates ws (headerRow yi) maxCol)).
Proof.
  induction rows as [|r rows IH]; simpl; [discriminate|].
  destruct (Z.of_nat (List.length (rowCandidates ws r maxCol)) >=? minCols).
  - destruct (Z.of_nat (List.length
               (uniqueYears [] (sortByCol (rowCandidates ws r maxCol))))
              >=? minCols).
    + intros [= <-]. simpl. auto.
    + intros H. destruct (IH H). auto.
  - intros H. destruct (IH H). auto.
Qed.

Lemma fromTo_sorted a b : StronglySorted Z.lt (fromTo a b).
Proof.
  remember (Z.to_nat (b - a + 1)) as k eqn:Ek.
  revert a Ek. induction k as [|k IH]; intros a Ek.
  - rewrite fromTo_nil by lia. constructor.
  - rewrite fromTo_cons by lia. constructor; [apply IH; lia|].
    apply Forall_forall. intros x Hx. apply In_fromTo in Hx. lia.
Qed.

Lemma rowCandidates_sorted ws r maxCol :
  leftToRight (rowCandidates ws r maxCol).
Proof.
  unfold leftToRight, rowCandidates.
  induction (fromTo_sorted 1 maxCol) as [|c cs Hs IH Hc]; simpl; [constructor|].
  destruct (yearOfCell (getCell ws r c)) as [y|]; simpl; [|exact IH].
  constructor; [exact IH|].
  apply Forall_forall. intros yc Hyc. apply in_flat_map in Hyc as (c' & Hin & Hy).
  rewrite Forall_forall in Hc. specialize (Hc c' Hin).
  destruct (yearOfCell (getCell ws r c')); [|contradiction].
  destruct Hy as [<-|[]]. simpl. exact Hc.
Qed.

Lemma rowCandidates_cells ws r maxCol yc :
  In yc (rowCandidates ws r maxCol) ->
  1 <= col yc <= maxCol
  /\ yearOfCell (getCell ws r (col yc)) = Some (yc_year yc).
Proof.
  unfold rowCandidates. intros H. apply in_flat_map in H as (c & Hin & Hy).
  apply In_fromTo in Hin.
  destruct (yearOfCell (getCell ws r c)) as [y|] eqn:E; [|contradiction].
  destruct Hy as [<-|[]]. simpl. auto.
Qed.

Lemma insertByCol_front x l :
  Forall (fun y => col x < col y) l -> insertByCol x l = x :: l.
Proof.
  destruct l as [|y l]; [reflexivity|]. intros H. simpl.
  apply Forall_inv in H. destruct (Z.ltb_spec (col x) (col y)); [reflexivity|lia].
Qed.

(** The candidates are pushed from left to right, so the sort keeps them. *)
Lemma sortByCol_sorted l : leftToRight l -> sortByCol l = l.
Proof.
  unfold leftToRight. induction 1 as [|x l Hs IH Hx]; [reflexivity|].
  simpl. rewrite IH. now apply insertByCol_front.
Qed.

Lemma uniqueYears_incl seen l c : In c (uniqueYears seen l) -> In c l.
Proof.
  revert seen. induction l as [|d l IH]; intros seen; simpl; [tauto|].
  destruct (existsb (Js.eqb (yc_year d)) seen).
  - intros H. right. eapply IH; eauto.
  - intros [<-|H]; [now left | right; eapply IH; eauto].
Qed.

Lemma uniqueYears_sorted seen l :
  leftToRight l -> leftToRight (uniqueYears seen l).
Proof.
  unfold leftToRight. intros H. revert seen.
  induction H as [|d l Hs IH Hd]; intros seen; simpl; [constructor|].
  destruct (existsb (Js.eqb (yc_year d)) seen); [apply IH|].
  constructor; [apply IH|].
  apply Forall_forall. intros c Hc. apply uniqueYears_incl in Hc.
  rewrite Forall_forall in Hd. auto.
Qed.

Lemma uniqueYears_unseen seen l :
  Forall (fun c => existsb (Js.eqb (yc_year c)) seen = false)
         (uniqueYears seen l).
Proof.
  revert seen. induction l as [|d l IH]; intros seen; simpl; [constructor|].
  destruct (existsb (Js.eqb (yc_year d)) seen) eqn:E; [apply IH|].
  constructor; [exact E|].
  eapply Forall_impl; [|apply (IH (yc_year d :: seen))].
  intros c Hc. simpl in Hc. apply orb_false_iff in Hc. tauto.
Qed.

Lemma uniqueYears_distinct seen l :
  distinctYears (map yc_year (uniqueYears seen l)).
Proof.
  unfold distinctYears. revert seen.
  induction l as [|d l IH]; intros seen; simpl; [constructor|].
  destruct (existsb (Js.eqb (yc_year d)) seen); [apply IH|].
  simpl. constructor; [|apply IH].
  apply Forall_forall. intros y Hy. apply in_map_iff in Hy as (c & <- & Hc).
  pose proof (uniqueYears_unseen (yc_year d :: seen) l) as U.
  rewrite Forall_forall in U. specialize (U c Hc). simpl in U.
  apply orb_false_iff in U. tauto.
Qed.

(** A detected year header: its columns are the cells of the header row
    that hold a year, from left to right, the first column of each year. *)
Lemma detectedHeader_props ws s e yi :
  detectedHeader ws s e yi ->
  leftToRight (yearCols yi)
  /\ distinctYears (map yc_year (yearCols yi))
  /\ Forall (fun yc =>
               1 <= col yc <= Z.min 30 (columnCount ws)
               /\ yearOfCell (getCell ws (headerRow yi) (col yc))
                  = Some (yc_year yc))
            (yearCols yi)
  /\ s <= headerRow yi <= Z.min e (rowCount ws).
Proof.
  intros H.
  assert (exists k, findYearHeader ws s e k = Some yi) as (k & Hk)
    by (destruct H as [H|[_ H]]; eauto).
  unfold findYearHeader in Hk. cbv zeta in Hk.
  apply findYearHeaderIn_some in Hk as (Hr & Hc).
  pose proof (rowCandidates_sorted ws (headerRow yi) (Z.min 30 (columnCount ws)))
    as Hs.
  rewrite (sortByCol_sorted _ Hs) in Hc. rewrite Hc.
  split; [now apply uniqueYears_sorted|].
  split; [apply uniqueYears_distinct|].
  split; [|now apply In_fromTo in Hr].
  apply Forall_forall. intros yc Hyc. apply uniqueYears_incl in Hyc.
  now apply rowCandidates_cells.
Qed.

Lemma sorted_map_filter {A B} (R : B -> B -> Prop) (g : A -> B) f l :
  StronglySorted R (map g l) -> StronglySorted R (map g (filter f l)).
Proof.
  induction l as [|x l IH]; simpl; [auto|].
  intros H. apply StronglySorted_inv in H as (Hs & Hx).
  destruct (f x); simpl; [|auto].
  constructor; [auto|].
  apply Forall_forall. intros y Hy. apply in_map_iff in Hy as (z & <- & Hz).
  apply filter_In in Hz as (Hz & _).
  rewrite Forall_forall in Hx. apply Hx. now apply in_map.
Qed.

Lemma pairs_map_filter {A B} (R : B -> B -> Prop) (g : A -> B) f l :
  ForallOrdPairs R (map g l) -> ForallOrdPairs R (map g (filter f l)).
Proof.
  induction l as [|x l IH]; simpl; [auto|].
  intros H. inversion H as [|? ? Hx Hs]; subst.
  destruct (f x); simpl; [|auto].
  constructor; [|auto].
  apply Forall_forall. intros y Hy. apply in_map_iff in Hy as (z & <- & Hz).
  apply filter_In in Hz as (Hz & _).
  rewrite Forall_forall in Hx. apply Hx. now apply in_map.
Qed.

(** C6, the claim as stated fails: with the years 2026, 2025 from left to
    right the Periods come out as 2026 then 2025, which is not ascending;
    and a detected year with no value under it has no Period. *)
Lemma C6_counterexample :
  (exists m,
      model (parseBlock 2026 sheetDescending 1 3 (u "Plan")) = Some m
      /\ map year (periods m) = [ofZ 2026; ofZ 2025]
      /\ ~ ascendingYears (map year (periods m)))
  /\
  (exists yi m,
      findYearHeader sheetSparse 1 3 2 = Some yi
      /\ map yc_year (yearCols yi) = [ofZ 2025; ofZ 2026]
      /\ model (parseBlock 2026 sheetSparse 1 3 (u "Plan")) = Some m
      /\ map year (periods m) = [ofZ 2025]).
Proof.
  split.
  - eexists. split; [vm_compute; reflexivity|]. split; [reflexivity|].
    simpl. intros H. apply StronglySorted_inv in H as (_ & H).
    apply Forall_inv in H. vm_compute in H. discriminate.
  - eexists. eexists. split; [vm_compute; reflexivity|].
    split; [reflexivity|]. split; [vm_compute; reflexivity|]. reflexivity.
Qed.

(** C8, the claim as stated fails: the row labelled x of the sample sheet
    maps to no field and has numbers under both years, yet the emitted block
    has no unmapped row and no warning, because the parser records only
    labels of more than one character. *)
Lemma C8_counterexample :
  let ws := sheetShortLabel in
  let lc := findLabelColumn ws 1 4 in
  exists yi m,
    findYearHeader ws 1 4 2 = Some yi
    /\ rowLabel ws lc 3 = u "x"
    /\ 3 <> headerRow yi
    /\ isSkippedLabel (rowLabel ws lc 3) = false
    /\ fst (mapLabelToField (rowLabel ws lc 3)
              (Some (sc_ctx (scanned 2026 ws 1 3 lc yi)))) = None
    /\ rowHasData ws 3 (yearCols yi) = true
    /\ parseBlock 2026 ws 1 4 (u "Plan")
       = parseBlockWithYears 2026 ws 1 4 (u "Plan") lc yi []
    /\ model (parseBlock 2026 ws 1 4 (u "Plan")) = Some m
    /\ unmappedRows m = []
    /\ warnings (parseBlock 2026 ws 1 4 (u "Plan")) = [].
Proof.
  cbv zeta. eexists. eexists.
  split; [vm_compute; reflexivity|].
  split; [vm_compute; reflexivity|].
  split; [vm_compute; discriminate|].
  split; [vm_compute; reflexivity|].
  split; [vm_compute; reflexivity|].
  split; [vm_compute; reflexivity|].
  split; [vm_compute; reflexivity|].
  split; [vm_compute; reflexivity|].
  split; reflexivity.
Qed.

(** C8 (amended) on the sample sheet with the unknown row Headcount. *)
Lemma C8_witness :
  let ws := sheetLongLabel in
  let yi := mkYearHeader 1 [mkYearCol 3 (ofZ 2025); mkYearCol 4 (ofZ 2026)] in
  rowLabel ws 2 3 = u "Headcount"
  /\ exists m,
      model (parseBlockWithYears 2026 ws 1 4 (u "Plan") 2 yi []) = Some m
      /\ In (u "Headcount") (unmappedRows m)
      /\ In (warnUnmapped (u "Plan") (unmappedRows m))
            (warnings (parseBlockWithYears 2026 ws 1 4 (u "Plan") 2 yi [])).
Proof.
  cbv zeta. split; [vm_compute; reflexivity|].
  eexists. split; [vm_compute; reflexivity|].
  refine (C8_unmapped_rows_recorded 2026 sheetLongLabel 1 4 (u "Plan") 2
            (mkYearHeader 1 [mkYearCol 3 (ofZ 2025); mkYearCol 4 (ofZ 2026)])
            [] _ 3 _ _ _ _ _ _ _).
  - vm_compute. reflexivity.
  - lia.
  - vm_compute. discriminate.
  - vm_compute. reflexivity.
  - vm_compute. reflexivity.
  - vm_compute. reflexivity.
  - vm_compute. reflexivity.
Defined.

(* ------------------------------------------------------------------ *)
(** ** Marker rows *)

Lemma trimStart_idem s : trimStart (trimStart s) = trimStart s.
Proof.
  induction s as [|c s IH]; simpl; [reflexivity|].
  destruct (isWhite c) eqn:E; [exact IH|]. simpl. now rewrite E.
Qed.

(** The name of a marker is the text after its five code units, trimmed. *)
Lemma marker_name marker X :
  List.length marker = 5%nat ->
  trim (stripNameMarker (marker ++ X)) = trim X.
Proof.
  intros H. unfold stripNameMarker.
  do 5 (destruct marker as [|? marker]; [discriminate|]).
  destruct marker; [|discriminate]. simpl skipn.
  unfold trim. now rewrite trimStart_idem.
Qed.

Lemma marker_length marker :
  toLowerCase marker = u "name:" -> List.length marker = 5%nat.
Proof.
  intros H. apply (f_equal (@List.length cunit)) in H.
  unfold toLowerCase in H. now rewrite length_map in H.
Qed.

Lemma marker_test marker X :
  toLowerCase marker = u "name:" -> test nameMarker (marker ++ X) = true.
Proof.
  intros H. rewrite nameMarker_test. unfold startsWithMarker.
  pose proof (marker_length marker H) as L.
  replace (firstn 5 (marker ++ X)) with marker.
  - rewrite H. now apply str_eqb_eq.
  - do 5 (destruct marker as [|? marker]; [discriminate|]).
    destruct marker; [reflexivity | discriminate].
Qed.

Lemma nameRow_app ws maxCol r blocks :
  nameRow ws maxCol r blocks = blocks ++ nameRow ws maxCol r [].
Proof.
  unfold nameRow.
  destruct (find _ (fromTo 1 maxCol)) as [c|]; [|now rewrite app_nil_r].
  destruct (nonEmpty _); [reflexivity | now rewrite app_nil_r].
Qed.

Lemma fold_nameRow ws maxCol rows acc :
  fold_left (fun blocks r => nameRow ws maxCol r blocks) rows acc
  = acc ++ flat_map (fun r => nameRow ws maxCol r []) rows.
Proof.
  revert acc. induction rows as [|r rows IH]; intros acc; simpl.
  - now rewrite app_nil_r.
  - rewrite IH, (nameRow_app ws maxCol r acc), <- app_assoc. reflexivity.
Qed.

Lemma nameRow_start ws maxCol r b :
  In b (nameRow ws maxCol r []) -> startRow b = r.
Proof.
  unfold nameRow.
  destruct (find _ (fromTo 1 maxCol)) as [c|]; [|contradiction].
  destruct (nonEmpty _); [|contradiction].
  intros [<-|[]]. reflexivity.
Qed.

Lemma markers_in_rows ws maxCol rows b :
  In b (flat_map (fun r => nameRow ws maxCol r []) rows) -> In (startRow b) rows.
Proof.
  intros H. apply in_flat_map in H as (r & Hr & Hb).
  now rewrite (nameRow_start _ _ _ _ Hb).
Qed.

Lemma find_app_first {A} (f : A -> bool) l1 x l2 :
  Forall (fun y => f y = false) l1 -> f x = true ->
  find f (l1 ++ x :: l2) = Some x.
Proof.
  induction 1 as [|y l1 Hy _ IH]; intros Hx; simpl.
  - now rewrite Hx.
  - rewrite Hy. now apply IH.
Qed.

Lemma adjustEndRows_cons b post :
  adjustEndRows (b :: post)
  = setEndRow b (match post with
                 | [] => endRow b
                 | next :: _ => startRow next
                 end) :: adjustEndRows post.
Proof.
  destruct post as [|next post]; [now destruct b|]. reflexivity.
Qed.

Lemma adjustEndRows_starts l : map startRow (adjustEndRows l) = map startRow l.
Proof.
  induction l as [|b l IH]; [reflexivity|].
  rewrite adjustEndRows_cons. simpl. now rewrite IH.
Qed.

Lemma adjustEndRows_app pre b post :
  exists pre',
    adjustEndRows (pre ++ b :: post) = pre' ++ adjustEndRows (b :: post)
    /\ map startRow pre' = map startRow pre.
Proof.
  induction pre as [|a pre (pre' & E & M)].
  - exists []. auto.
  - change ((a :: pre) ++ b :: post) with (a :: (pre ++ b :: post)).
    rewrite adjustEndRows_cons, E.
    eexists (_ :: pre'). split; [reflexivity|]. simpl. now rewrite M.
Qed.

Lemma Forall_starts (P : Z -> Prop) l l' :
  map startRow l' = map startRow l ->
  Forall (fun b => P (startRow b)) l -> Forall (fun b => P (startRow b)) l'.
Proof.
  intros M H.
  apply (Forall_map startRow P). rewrite M. now apply Forall_map.
Qed.

(** C7 (amended): a cell in one of the first ten columns of a row, the
    first of its row whose text begins with the marker (name: in either
    letter case), with a text X after the marker that is not blank, opens a
    block of [findNameBlocks] named X without the surrounding white space,
    which starts at that row and ends at the start row of the next block,
    or after the last row of the sheet. *)
Theorem C7_marker_opens_block ws r c marker X :
  1 <= r <= rowCount ws ->
  1 <= c <= Z.min 10 (columnCount ws) ->
  cellStr (getCell ws r c) = marker ++ X ->
  toLowerCase marker = u "name:" ->
  (forall c', 1 <= c' < c ->
              startsWithMarker (cellStr (getCell ws r c')) = false) ->
  trim X <> [] ->
  exists pre b post,
    findNameBlocks ws = pre ++ b :: post
    /\ rb_name b = trim X
    /\ sheetName b = ws_name ws
    /\ startRow b = r
    /\ Forall (fun p => startRow p < r) pre
    /\ Forall (fun p => r < startRow p) post
    /\ endRow b = match post with
                  | [] => rowCount ws + 1
                  | next :: _ => startRow next
                  end.
Proof.
  intros Hr Hc Hcell Hmark Hfirst HX.
  pose proof (marker_length marker Hmark) as Hlen.
  pose proof (marker_test marker X Hmark) as Htest.
  set (maxCol := Z.min 10 (columnCount ws)) in *.
  set (b0 := mkRaw (trim X) (ws_name ws) r (rowCount ws + 1)).
  assert (Hrow : nameRow ws maxCol r [] = [b0]).
  { unfold nameRow. rewrite (fromTo_split 1 c maxCol) by lia.
    rewrite find_app_first.
    - rewrite Hcell, (marker_name marker X Hlen).
      destruct (trim X); [congruence|]. reflexivity.
    - apply Forall_forall. intros c' Hc'. apply In_fromTo in Hc'.
      rewrite nameMarker_test. apply Hfirst. lia.
    - now rewrite Hcell. }
  unfold findNameBlocks. fold maxCol. rewrite fold_nameRow. simpl app.
  rewrite (fromTo_split 1 r (rowCount ws)) by lia.
  rewrite flat_map_app. simpl flat_map. rewrite Hrow. simpl app.
  set (l1 := flat_map (fun r0 => nameRow ws maxCol r0 []) (fromTo 1 (r - 1))).
  set (l2 := flat_map (fun r0 => nameRow ws maxCol r0 [])
                      (fromTo (r + 1) (rowCount ws))).
  destruct (adjustEndRows_app l1 b0 l2) as (pre' & E & M).
  rewrite E, adjustEndRows_cons.
  eexists pre', _, (adjustEndRows l2).
  split; [reflexivity|].
  split; [reflexivity|]. split; [reflexivity|]. split; [reflexivity|].
  split; [|split].
  - apply (Forall_starts (fun x => x < r) l1 pre' M).
    apply Forall_forall. intros p Hp. apply markers_in_rows in Hp.
    apply In_fromTo in Hp. lia.
  - apply (Forall_starts (fun x => r < x) l2 (adjustEndRows l2)
                         (adjustEndRows_starts l2)).
    apply Forall_forall. intros p Hp. apply markers_in_rows in Hp.
    apply In_fromTo in Hp. lia.
  - simpl. destruct l2 as [|n2 l2']; [reflexivity|].
    rewrite adjustEndRows_cons. reflexivity.
Qed.

(** C7 (amended) on the first marker of the sample sheet with two markers. *)
Lemma C7_witness :
  exists pre b post,
    findNameBlocks sheetTwoMarkers = pre ++ b :: post
    /\ rb_name b = u "Base case"
    /\ sheetName b = u "Ark1"
    /\ startRow b = 1
    /\ Forall (fun p => startRow p < 1) pre
    /\ Forall (fun p => 1 < startRow p) post
    /\ endRow b = match post with
                  | [] => rowCount sheetTwoMarkers + 1
                  | next :: _ => startRow next
                  end.
Proof.
  refine (C7_marker_opens_block sheetTwoMarkers 1 2 (u "Name:")
            (u "   Base case") _ _ _ _ _ _).
  - vm_compute. intuition discriminate.
  - vm_compute. intuition discriminate.
  - vm_compute. reflexivity.
  - vm_compute. reflexivity.
  - intros c' Hc'. assert (c' = 1) as -> by lia. vm_compute. reflexivity.
  - vm_compute. discriminate.
Defined.

(** C7, the claim as stated fails: the sample sheet has the text Name: X in
    column 11, which the marker pattern matches, but the scan stops at
    column 10: no marker block is found and the one block of the sheet is
    named after the sheet. *)
Lemma C7_counterexample :
  cellStr (getCell sheetFarMarker 1 11) = u "Name: X"
  /\ test nameMarker (cellStr (getCell sheetFarMarker 1 11)) = true
  /\ findNameBlocks sheetFarMarker = []
  /\ map rb_name (sheetBlocks [u "Ark1"] None sheetFarMarker) = [u "Ark1"]
  /\ ~ In (u "X") (map rb_name (sheetBlocks [u "Ark1"] None sheetFarMarker))
  /\ (exists r, parseExcelBuffer 2026 [sheetFarMarker] None = Ok r
                /\ map name (models r) = [u "Ark1"]).
Proof.
  split; [vm_compute; reflexivity|].
  split; [vm_compute; reflexivity|].
  split; [vm_compute; reflexivity|].
  split; [vm_compute; reflexivity|].
  split; [vm_compute; intuition discriminate|].
  eexists. split; [vm_compute; reflexivity|]. reflexivity.
Qed.

(* ------------------------------------------------------------------ *)
(** ** The choice of the segmentation strategy *)

(** C2 (amended): on a sheet with rows and columns the strategies are tried
    in order; marker rows determine the blocks when they yield at least one
    block, section heuristics when marker rows yield none and the heuristics
    yield at least two blocks, and the whole-sheet fallback otherwise, also
    when the heuristics yield exactly one block.  The models and warnings
    the sheet adds are those of [parseBlock] on the chosen blocks. *)
Theorem C2_strategy_order cy names fn st ws :
  isEmptySheet ws = false ->
  let out := processSheet cy names fn st ws in
  let adds blocks :=
    allModels out = allModels st ++ blockModels cy ws blocks
    /\ st_warnings out = st_warnings st ++ blockWarnings cy ws blocks in
  (findNameBlocks ws <> [] -> adds (findNameBlocks ws))
  /\ (findNameBlocks ws = [] ->
      (2 <= List.length (findSectionBlocks ws))%nat ->
      adds (findSectionBlocks ws))
  /\ (findNameBlocks ws = [] ->
      (List.length (findSectionBlocks ws) <= 1)%nat ->
      adds [wholeSheetBlock names fn ws]).
Proof.
  intros Hne. cbv zeta.
  destruct (processSheet_spec cy names fn st ws) as (A & B).
  unfold sheetModels, sheetWarnings in A, B. rewrite Hne in A, B.
  unfold sheetBlocks in A, B.
  split; [|split].
  - intros Hn. destruct (findNameBlocks ws); [congruence|]. auto.
  - intros Hn Hs. rewrite Hn in A, B.
    destruct (Z.gtb_spec (Z.of_nat (List.length (findSectionBlocks ws))) 1);
      [auto | lia].
  - intros Hn Hs. rewrite Hn in A, B.
    destruct (Z.gtb_spec (Z.of_nat (List.length (findSectionBlocks ws))) 1);
      [lia | auto].
Qed.

(** C2 (amended) on the sample sheet with two section titles. *)
Lemma C2_witness :
  let st := mkState [] [] noParams in
  let out := processSheet 2026 [u "Budsjett"] None st sheetTwoSections in
  map rb_name (findSectionBlocks sheetTwoSections)
  = [u "Scenario A"; u "Scenario B"]
  /\ allModels out
     = allModels st
       ++ blockModels 2026 sheetTwoSections (findSectionBlocks sheetTwoSections)
  /\ st_warnings out
     = st_warnings st
       ++ blockWarnings 2026 sheetTwoSections
                        (findSectionBlocks sheetTwoSections)
  /\ map name (allModels out) = [u "Scenario A"; u "Scenario B"].
Proof.
  cbv zeta. split; [vm_compute; reflexivity|].
  pose proof (C2_strategy_order 2026 [u "Budsjett"] None (mkState [] [] noParams)
                sheetTwoSections eq_refl) as H.
  cbv zeta in H. destruct H as (_ & H & _).
  assert (N : findNameBlocks sheetTwoSections = []) by (vm_compute; reflexivity).
  assert (L : (2 <= List.length (findSectionBlocks sheetTwoSections))%nat)
    by (vm_compute; lia).
  destruct (H N L) as (A & B).
  split; [exact A|]. split; [exact B|]. vm_compute. reflexivity.
Defined.

(** C2, the claim as stated fails: on the sample sheet the section
    heuristics yield exactly one block (Scenario A, from row 2), yet the
    sheet is parsed as one whole-sheet block named after the sheet, from
    row 1; the section block itself would yield no model. *)
Lemma C2_counterexample :
  let ws := sheetOneSection in
  let out := processSheet 2026 [u "Budsjett"] None (mkState [] [] noParams) ws in
  isEmptySheet ws = false
  /\ findNameBlocks ws = []
  /\ findSectionBlocks ws = [mkRaw (u "Scenario A") (u "Budsjett") 2 4]
  /\ allModels out
     = blockModels 2026 ws [mkRaw (u "Budsjett") (u "Budsjett") 1 4]
  /\ map name (allModels out) = [u "Budsjett"]
  /\ map source (allModels out) = [Some (u "Budsjett:1-3")]
  /\ blockModels 2026 ws (findSectionBlocks ws) = []
  /\ allModels out <> blockModels 2026 ws (findSectionBlocks ws).
Proof.
  cbv zeta.
  split; [vm_compute; reflexivity|].
  split; [vm_compute; reflexivity|].
  split; [vm_compute; reflexivity|].
  split; [vm_compute; reflexivity|].
  split; [vm_compute; reflexivity|].
  split; [vm_compute; reflexivity|].
  split; [vm_compute; reflexivity|].
  vm_compute. discriminate.
Qed.

(* ------------------------------------------------------------------ *)
(** ** The calendar year *)

Lemma eraseType_create cy1 cy2 y :
  eraseType (createEmptyPeriod cy1 y) = eraseType (createEmptyPeriod cy2 y).
Proof. reflexivity. Qed.
























(* ------------------------------------------------------------------ *)
(** ** The properties on the sample sheets *)



(** C10 on an emitted block, on a result, and on a block that has only an
    EBITDA margin. *)
Lemma C10_witness :
  (exists m,
      model (parseBlockWithYears 2026 sheetThreeYears 1 3 (u "Plan") 2
               (mkYearHeader 1 [mkYearCol 3 (ofZ 2025); mkYearCol 4 (ofZ 2026);
                                mkYearCol 5 (ofZ 2027)]) []) = Some m
      /\ keyFieldSet m)
  /\ (exists r,
         parseExcelBuffer 2026 [sheetBaseline] None = Ok r
         /\ Forall keyFieldSet (models r))
  /\ (let yi := mkYearHeader 1 [mkYearCol 3 (ofZ 2025); mkYearCol 4 (ofZ 2026)] in
      existsb hasAnyField (sc_periods (scanned 2026 sheetMarginOnly 1 3 2 yi))
      = true
      /\ parseBlockWithYears 2026 sheetMarginOnly 1 3 (u "Plan") 2 yi []
         = mkBlockResult None [warnNoData (u "Plan") sheetMarginOnly]).
Proof.
  destruct C10_emitted_blocks_have_key_field as (A & B & C).
  split; [|split].
  - eexists. split; [vm_compute; reflexivity|].
    apply (A 2026 sheetThreeYears 1 3 (u "Plan") 2
             (mkYearHeader 1 [mkYearCol 3 (ofZ 2025); mkYearCol 4 (ofZ 2026);
                              mkYearCol 5 (ofZ 2027)]) []).
    vm_compute. reflexivity.
  - destruct (parseExcelBuffer 2026 [sheetBaseline] None) as [r|msg] eqn:E;
      [|vm_compute in E; discriminate].
    exists r. split; [reflexivity|]. exact (B _ _ _ _ E).
  - cbv zeta. split; [vm_compute; reflexivity|].
    apply (C 2026 sheetMarginOnly 1 3 (u "Plan") 2
             (mkYearHeader 1 [mkYearCol 3 (ofZ 2025); mkYearCol 4 (ofZ 2026)])
             []).
    vm_compute. reflexivity.
Defined.

(* ================================================================== *)
(** * Further properties of the parser *)

(* ------------------------------------------------------------------ *)
(** ** Values of periods *)

Lemma numberOrNull_not_NaN x n : numberOrNull x = Some n -> isNaN n = false.
Proof.
  unfold numberOrNull. destruct (isNaN x) eqn:E; [discriminate|].
  now intros [= <-].
Qed.

(** X1: a cell never reads as NaN, whatever it holds: a number that is NaN,
    a text that is no numeral, a date and an empty cell all read as null. *)
Theorem cellNum_never_NaN cell n :
  cellNum cell = Some n -> isNaN n = false.
Proof.
  unfold cellNum.
  destruct (cellValue cell) as [[v|s|b|d|]|]; try discriminate;
    try (destruct (isSentinel _); [discriminate|]);
    apply numberOrNull_not_NaN.
Qed.

(** X1 on a text cell with a decimal comma. *)
Lemma cellNum_never_NaN_witness :
  cellNum (Tx "12,5") = Some (Fin 125 (-1)) /\ isNaN (Fin 125 (-1)) = false.
Proof.
  assert (E : cellNum (Tx "12,5") = Some (Fin 125 (-1)))
    by (vm_compute; reflexivity).
  split; [exact E | exact (cellNum_never_NaN (Tx "12,5") (Fin 125 (-1)) E)].
Defined.

Lemma getField_setField_same p k v : getField (setField p k v) k = Some v.
Proof. destruct p, k; reflexivity. Qed.

Lemma getField_setField_other p f k v :
  k <> f -> getField (setField p f v) k = getField p k.
Proof. destruct p, f, k; intros H; try reflexivity; congruence. Qed.

Lemma year_setField p k v : year (setField p k v) = year p.
Proof. destruct p, k; reflexivity. Qed.


(* ------------------------------------------------------------------ *)
(** ** What a block yields *)

(** The guard on empty periods cannot fire: once a period has a key field,
    the filter keeps that period. *)
Lemma key_field_keeps_a_period ps :
  existsb hasKeyField ps = true -> filter hasAnyField ps <> [].
Proof.
  intros H. apply keyField_survives_filter in H.
  destruct (filter hasAnyField ps); [discriminate H | discriminate].
Qed.

Lemma parseBlockWithYears_none cy ws s e n lc yi w :
  model (parseBlockWithYears cy ws s e n lc yi w) = None ->
  parseBlockWithYears cy ws s e n lc yi w
  = mkBlockResult None (w ++ [warnNoData n ws]).
Proof.
  rewrite parseBlockWithYears_unfold. cbv zeta.
  destruct (existsb hasKeyField (sc_periods (scanned cy ws s e lc yi))) eqn:K;
    simpl; [|reflexivity].
  pose proof (key_field_keeps_a_period _ K) as N.
  destruct (filter hasAnyField (sc_periods (scanned cy ws s e lc yi)));
    [congruence | discriminate].
Qed.

Lemma namesBlock_noData n ws : namesBlock n (warnNoData n ws).
Proof. unfold namesBlock, warnNoData. eexists. reflexivity. Qed.

Lemma namesBlock_noYears n ws s e : namesBlock n (warnNoYears n ws s e).
Proof. unfold namesBlock, warnNoYears. eexists. reflexivity. Qed.

Lemma namesBlock_unmapped n rows : namesBlock n (warnUnmapped n rows).
Proof. unfold namesBlock, warnUnmapped. eexists. reflexivity. Qed.

(** X3: a block never disappears silently and never leaves more than one
    warning.  A block without a model leaves exactly one warning, which is
    the no-years warning or the no-data warning (the all-periods-empty
    warning is never produced); a block with a model leaves no warning, or
    the one that lists its unmapped rows.  Every warning names the block. *)
Theorem parseBlock_model_or_one_warning cy ws s e n :
  let result := parseBlock cy ws s e n in
  let e' := Z.min e (rowCount ws + 1) in
  match model result with
  | None =>
    warnings result = [warnNoYears n ws s e']
    \/ warnings result = [warnNoData n ws]
  | Some m =>
    (unmappedRows m = [] /\ warnings result = [])
    \/ (unmappedRows m <> []
        /\ warnings result = [warnUnmapped n (unmappedRows m)])
  end
  /\ Forall (namesBlock n) (warnings result)
  /\ ~ In (warnAllEmpty n ws) (warnings result).
Proof.
  cbv zeta.
  assert (D : forall a b : jstring, a <> b -> ~ In a [b])
    by (intros a b H [E|[]]; congruence).
  assert (NE1 : warnAllEmpty n ws <> warnNoData n ws).
  { unfold warnAllEmpty, warnNoData. intros H.
    apply app_inv_head in H. apply app_inv_head in H.
    apply app_inv_head in H. apply app_inv_head in H.
    vm_compute in H. discriminate. }
  assert (NE2 : forall a b, warnAllEmpty n ws <> warnNoYears n ws a b).
  { intros a b. unfold warnAllEmpty, warnNoYears. intros H.
    apply app_inv_head in H. apply app_inv_head in H.
    apply app_inv_head in H. unfold quoted in H. rewrite <- !app_assoc in H.
    apply app_inv_head in H. apply app_inv_head in H.
    vm_compute in H. discriminate. }
  assert (NE3 : forall rows, warnAllEmpty n ws <> warnUnmapped n rows).
  { intros rows. unfold warnAllEmpty, warnUnmapped. intros H.
    apply app_inv_head in H. apply app_inv_head in H.
    vm_compute in H. discriminate. }
  destruct (model (parseBlock cy ws s e n)) as [m|] eqn:Hm.
  - destruct (parseBlock_model _ _ _ _ _ _ Hm) as (yi & _ & E).
    cbv zeta in E. rewrite E in Hm |- *. clear E.
    apply parseBlockWithYears_model in Hm. cbv zeta in Hm.
    destruct Hm as (_ & _ & _ & Hu & Hw). rewrite Hw, Hu. clear Hw Hu.
    destruct (sc_unmapped _) as [|l ls].
    + split; [left; split; reflexivity|].
      split; [constructor | intros []].
    + cbn [app].
      split; [right; split; [discriminate | reflexivity]|].
      split; [constructor; [apply namesBlock_unmapped | constructor]|].
      apply D, NE3.
  - unfold parseBlock in *. cbv zeta in *.
    destruct (findYearHeader ws s (Z.min e (rowCount ws + 1)) 2) as [yi|].
    + rewrite (parseBlockWithYears_none _ _ _ _ _ _ _ _ Hm).
      cbn [warnings app].
      split; [right; reflexivity|].
      split; [constructor; [apply namesBlock_noData | constructor]|].
      apply D, NE1.
    + destruct (findYearHeader ws s (Z.min e (rowCount ws + 1)) 1) as [yi|].
      * rewrite (parseBlockWithYears_none _ _ _ _ _ _ _ _ Hm).
        cbn [warnings app].
        split; [right; reflexivity|].
        split; [constructor; [apply namesBlock_noData | constructor]|].
        apply D, NE1.
      * cbn [warnings].
        split; [left; reflexivity|].
        split; [constructor; [apply namesBlock_noYears | constructor]|].
        apply D, NE2.
Qed.

Lemma scanRow_unmapped_labels ws lc yi st r :
  Forall (fun l => Js.length l > 1 /\ isSkippedLabel l = false) (sc_unmapped st) ->
  Forall (fun l => Js.length l > 1 /\ isSkippedLabel l = false)
         (sc_unmapped (scanRow ws lc yi st r)).
Proof.
  intros H. unfold scanRow.
  destruct (r =? headerRow yi); [exact H|].
  destruct (rowLabel ws lc r) as [|c l]; [exact H|].
  destruct (isSkippedLabel (c :: l)) eqn:Es; [exact H|].
  destruct (mapLabelToField (c :: l) (Some (sc_ctx st))) as [[f|] ctx'];
    simpl; [exact H|].
  destruct (rowHasData ws r (yearCols yi)); simpl; [|exact H].
  destruct (Z.gtb_spec (Js.length (c :: l)) 1); simpl; [|exact H].
  apply Forall_app. split; [exact H|]. constructor; [|constructor].
  split; [lia | exact Es].
Qed.

Lemma scanned_unmapped_labels cy ws s e lc yi :
  Forall (fun l => Js.length l > 1 /\ isSkippedLabel l = false)
         (sc_unmapped (scanned cy ws s e lc yi)).
Proof.
  unfold scanned, scanRows.
  generalize (fromTo s (e - 1)). intros rows.
  match goal with |- context [fold_left _ rows ?st0] =>
    assert (H0 : Forall (fun l => Js.length l > 1 /\ isSkippedLabel l = false)
                        (sc_unmapped st0)) by constructor;
    revert H0; generalize st0
  end.
  induction rows as [|r rows IH]; intros st H; simpl; [exact H|].
  apply IH. now apply scanRow_unmapped_labels.
Qed.

Lemma parseBlock_wellFormed cy ws s e n m :
  model (parseBlock cy ws s e n) = Some m -> wellFormedModel m.
Proof.
  intros Hm. destruct (parseBlock_model _ _ _ _ _ _ Hm) as (yi & _ & E).
  cbv zeta in E. rewrite E in Hm.
  apply parseBlockWithYears_model in Hm. cbv zeta in Hm.
  destruct Hm as (K & _ & Hp & Hu & _).
  unfold wellFormedModel. rewrite Hp, Hu. split; [|split].
  - now apply key_field_keeps_a_period.
  - apply Forall_forall. intros p Hin. now apply filter_In in Hin.
  - apply scanned_unmapped_labels.
Qed.

(** X4: a Parse Result that is returned is never empty, and every Model
    Block in it has at least one Period, every Period has at least one
    field set, and every unmapped label is longer than one character and is
    not one of the skipped labels. *)
Theorem returned_models_are_well_formed cy wss fn r :
  parseExcelBuffer cy wss fn = Ok r ->
  models r <> [] /\ Forall wellFormedModel (models r).
Proof.
  intros H. split.
  - rewrite (result_models _ _ _ _ H).
    apply parseExcelBuffer_ok in H as (_ & Hne & _). exact Hne.
  - rewrite (result_models _ _ _ _ H). apply models_from_parseBlock.
    intros ws s e n m. apply parseBlock_wellFormed.
Qed.

(** X4 on the end-to-end sample. *)
Lemma returned_models_are_well_formed_witness :
  exists r,
    parseExcelBuffer 2026 [sheetBaseline] None = Ok r
    /\ models r <> [] /\ Forall wellFormedModel (models r).
Proof.
  destruct (parseExcelBuffer 2026 [sheetBaseline] None) as [r|msg] eqn:E;
    [|vm_compute in E; discriminate].
  exists r. split; [reflexivity|].
  exact (returned_models_are_well_formed 2026 [sheetBaseline] None r E).
Defined.

(* ------------------------------------------------------------------ *)
(** ** Numerals with one separator or none *)

Lemma includes_single_false c s : ~ In c s -> includes [c] s = false.
Proof.
  intros H. destruct (includes [c] s) eqn:E; [|reflexivity].
  apply includes_single in E. contradiction.
Qed.

Lemma trim_sub c s : In c (trim s) -> In c s.
Proof.
  intros H. destruct (trim_decomp s) as (w1 & w2 & E & _).
  rewrite E. apply in_or_app. right. apply in_or_app. now left.
Qed.

Lemma parseFloat_digits ds :
  allDigits ds -> ds <> [] -> parseFloat ds = numberValue (digitsValue ds) 0.
Proof.
  intros Hd Hne. destruct ds as [|c ds]; [congruence|].
  pose proof (Forall_inv Hd) as Hc. cbv beta in Hc.
  pose proof (proj1 (isDigit_range c) Hc) as Rc.
  unfold parseFloat.
  assert (E0 : trimStart (c :: ds) = c :: ds)
    by (simpl; now rewrite (digit_not_white c Hc)).
  rewrite E0.
  assert (E1 : (c =? 45)%N = false) by (apply N.eqb_neq; lia).
  assert (E2 : (c =? 43)%N = false) by (apply N.eqb_neq; lia).
  assert (E3 : startsWith (u "Infinity") (c :: ds) = false).
  { change (startsWith (u "Infinity") (c :: ds))
      with ((73 =? c)%N && startsWith (u "nfinity") ds).
    replace (73 =? c)%N with false; [reflexivity|].
    symmetry. apply N.eqb_neq. lia. }
  cbv iota beta. rewrite E1, E2. cbv iota beta. rewrite E3.
  pose proof (takeDigits_app (c :: ds) [] Hd I) as E4.
  rewrite app_nil_r in E4. rewrite E4. cbv iota beta.
  rewrite app_nil_r. reflexivity.
Qed.

Lemma cleanNumeric_comma_only a b :
  ~ In comma a -> ~ In dot a -> ~ In dot b ->
  cleanNumeric (trim (a ++ comma :: b))
  = removeAll isBlank a ++ dot :: removeAll isBlank b.
Proof.
  intros Hc Hd Hb. set (s := a ++ comma :: b).
  assert (Ic : In comma (trim s))
    by (apply In_trim; [apply in_or_app; right; now left | reflexivity]).
  assert (Nd : ~ In dot (trim s)).
  { intros H. apply trim_sub in H. unfold s in H.
    apply in_app_or in H as [H|[H|H]]; [auto | discriminate H | auto]. }
  unfold cleanNumeric.
  change (u ",") with [comma]. change (u ".") with [dot].
  rewrite (proj2 (includes_single comma (trim s)) Ic).
  rewrite (includes_single_false dot (trim s) Nd).
  cbv beta iota zeta. simpl andb. cbv iota.
  rewrite removeAll_trim by (intros c Hw; now apply white_is_blank).
  unfold s. rewrite removeAll_app. simpl.
  apply replaceFirst_app_notin.
  intros Hin. apply removeAll_In in Hin. contradiction.
Qed.

Lemma cleanNumeric_no_comma s :
  ~ In comma s -> cleanNumeric (trim s) = removeAll isBlank s.
Proof.
  intros Hc.
  assert (Nc : ~ In comma (trim s)) by (intros H; apply trim_sub in H; auto).
  unfold cleanNumeric. change (u ",") with [comma].
  rewrite (includes_single_false comma (trim s) Nc). simpl.
  apply removeAll_trim. intros c Hw. now apply white_is_blank.
Qed.

Lemma digits_not_sentinel s :
  allDigits (removeAll isBlank s) -> removeAll isBlank s <> [] ->
  isSentinel (trim s) = false.
Proof.
  intros Hd Hne. destruct (removeAll isBlank s) as [|c r] eqn:E; [congruence|].
  pose proof (Forall_inv Hd) as Hc. cbv beta in Hc.
  assert (Hin : In c (trim s)).
  { apply In_trim; [|now apply digit_not_white].
    apply (removeAll_In isBlank). rewrite E. now left. }
  pose proof (proj1 (isDigit_range c) Hc) as Rc.
  unfold isSentinel.
  assert (X : forall x, ~ In c x -> str_eqb (trim s) x = false)
    by (intros x; now apply str_eqb_differs).
  rewrite !X; [reflexivity| | | | |]; vm_compute; intros H;
    repeat (destruct H as [H|H]; [subst c; lia|]);
    exact H.
Qed.

(** X5: a text with a comma and no dot reads with the comma as the decimal
    mark and its blanks (spaces, no-break spaces) dropped as grouping; a
    text without a comma reads with its blanks dropped.  When digits remain
    the cell is the Number value of the decimal they spell: the nearest
    double, so that 9007199254740993 reads as 9007199254740992. *)
Theorem comma_is_decimal_and_blanks_group :
  (forall a b,
      ~ In comma a -> ~ In dot a -> ~ In dot b ->
      allDigits (removeAll isBlank a) -> removeAll isBlank a <> [] ->
      allDigits (removeAll isBlank b) ->
      cellNum (CellPlain (JString (a ++ comma :: b)))
      = Some (numberValue
                (digitsValue (removeAll isBlank a ++ removeAll isBlank b))
                (- Js.length (removeAll isBlank b))))
  /\
  (forall s,
      ~ In comma s ->
      allDigits (removeAll isBlank s) -> removeAll isBlank s <> [] ->
      cellNum (CellPlain (JString s))
      = Some (numberValue (digitsValue (removeAll isBlank s)) 0)).
Proof.
  split.
  - intros a b Hc Hd Hb Da Na Db. rewrite cellNum_text.
    rewrite (not_sentinel_with comma)
      by (try (apply In_trim; [apply in_or_app; right; now left | reflexivity]);
          now left).
    rewrite cleanNumeric_comma_only by assumption.
    rewrite parseFloat_decimal by assumption.
    apply numberOrNull_numberValue.
  - intros s Hc Ds Ns. rewrite cellNum_text.
    rewrite digits_not_sentinel by assumption.
    rewrite cleanNumeric_no_comma by assumption.
    rewrite parseFloat_digits by assumption.
    apply numberOrNull_numberValue.
Qed.

(** X5 on a Norwegian numeral with a grouping space, on digits between
    spaces, and on an integer beyond [2^53]. *)
Lemma comma_is_decimal_and_blanks_group_witness :
  cellNum (Tx "1 234,5") = Some (Fin 12345 (-1))
  /\ cellNum (Tx " 1 234 ") = Some (Fin 1234 0)
  /\ cellNum (Tx "9007199254740993") = Some (Fin 9007199254740992 0).
Proof.
  destruct comma_is_decimal_and_blanks_group as (A & B).
  split; [|split]; cycle 2.
  { refine (B (u "9007199254740993") _ _ _).
    + vm_compute. intuition discriminate.
    + vm_compute. repeat constructor.
    + vm_compute. discriminate. }
  - refine (A (u "1 234") (u "5") _ _ _ _ _ _).
    + vm_compute. intuition discriminate.
    + vm_compute. intuition discriminate.
    + vm_compute. intuition discriminate.
    + vm_compute. repeat constructor.
    + vm_compute. discriminate.
    + vm_compute. repeat constructor.
  - refine (B (u " 1 234 ") _ _ _).
    + vm_compute. intuition discriminate.
    + vm_compute. repeat constructor.
    + vm_compute. discriminate.
Defined.

(* ------------------------------------------------------------------ *)
(** ** Labels *)

Lemma collapseFrom_punct inRun s t :
  Forall (fun c => isTrailingPunct c = true) t ->
  collapseFrom inRun (s ++ t) = collapseFrom inRun s ++ t.
Proof.
  intros Ht. revert inRun. induction s as [|c s IH]; intros inRun; simpl.
  - revert inRun. induction Ht as [|p t Hp _ IH]; intros inRun;
      [reflexivity|].
    simpl. replace (isWhite p) with false; [now rewrite IH|].
    symmetry. unfold isTrailingPunct in Hp. unfold isWhite.
    rewrite !orb_true_iff, !N.eqb_eq in Hp.
    destruct Hp as [[[[[->| ->]| ->]| ->]| ->]| ->]; reflexivity.
  - destruct (isWhite c); [destruct inRun|]; now rewrite IH.
Qed.

Lemma toLowerCase_punct t :
  Forall (fun c => isTrailingPunct c = true) t -> toLowerCase t = t.
Proof.
  induction 1 as [|p t Hp _ IH]; [reflexivity|].
  simpl. rewrite IH. f_equal. unfold isTrailingPunct in Hp.
  rewrite !orb_true_iff, !N.eqb_eq in Hp.
  destruct Hp as [[[[[->| ->]| ->]| ->]| ->]| ->]; reflexivity.
Qed.

Lemma dropWhile_all f t s :
  Forall (fun c => f c = true) t -> dropWhile f (rev t ++ s) = dropWhile f s.
Proof.
  intros H. apply Forall_rev in H. induction H as [|c r Hc _ IH]; [reflexivity|].
  simpl. now rewrite Hc.
Qed.

Lemma stripTrailing_punct f s t :
  Forall (fun c => f c = true) t -> stripTrailing f (s ++ t) = stripTrailing f s.
Proof.
  intros H. unfold stripTrailing. rewrite rev_app_distr.
  now rewrite (dropWhile_all f t (rev s) H).
Qed.

(** X6: punctuation at the end of a label (comma, dot, colon, semicolon,
    parentheses) is ignored: the label normalizes, and therefore maps, as
    the label without it. *)
Theorem trailing_punctuation_is_ignored label tail ctx :
  Forall (fun c => isTrailingPunct c = true) tail ->
  normalizeLabel (label ++ tail) = normalizeLabel label
  /\ mapLabelToField (label ++ tail) ctx = mapLabelToField label ctx.
Proof.
  intros H.
  assert (E : normalizeLabel (label ++ tail) = normalizeLabel label).
  { unfold normalizeLabel, toLowerCase, collapseSpaces.
    rewrite map_app. fold (toLowerCase tail). rewrite (toLowerCase_punct tail H).
    rewrite (collapseFrom_punct false _ tail H).
    now rewrite (stripTrailing_punct isTrailingPunct _ tail H). }
  split; [exact E|]. unfold mapLabelToField. now rewrite E.
Qed.

(** X6 on a label that ends in a closing parenthesis and a colon. *)
Lemma trailing_punctuation_is_ignored_witness :
  Forall (fun c => isTrailingPunct c = true) (u "):")
  /\ normalizeLabel (u "Revenue (NOK" ++ u "):") = normalizeLabel (u "Revenue (NOK")
  /\ mapLabelToField (u "Revenue (NOK" ++ u "):") None
     = mapLabelToField (u "Revenue (NOK") None.
Proof.
  assert (H : Forall (fun c => isTrailingPunct c = true) (u "):"))
    by (vm_compute; repeat constructor).
  split; [exact H|].
  exact (trailing_punctuation_is_ignored (u "Revenue (NOK") (u "):") None H).
Defined.

Lemma off_table_keeps_context label ctx :
  firstMapping LABEL_MAPPINGS (normalizeLabel label) = None ->
  snd (mapLabelToField label (Some ctx)) = Some ctx.
Proof.
  intros H. unfold mapLabelToField.
  destruct (normalizeLabel label) as [|c l]; [reflexivity|].
  rewrite H.
  repeat match goal with
         | |- context [if ?b then _ else _] => destruct b
         end; reflexivity.
Qed.

Lemma contextAfter_off_table labels ctx :
  Forall (fun l => firstMapping LABEL_MAPPINGS (normalizeLabel l) = None) labels ->
  contextAfter labels ctx = ctx.
Proof.
  unfold contextAfter. induction 1 as [|l ls Hl _ IH]; [reflexivity|].
  simpl. now rewrite (off_table_keeps_context l ctx Hl).
Qed.

(** X7: only a match in the label table changes the context; a label that
    maps to no field leaves it as it was.  So rows that the table does not
    know, between a row of a service line and a bare "% margin" row, do not
    break the link: the margin still goes to that service line. *)
Theorem unknown_rows_keep_context :
  (forall label ctx,
      fst (mapLabelToField label (Some ctx)) = None ->
      snd (mapLabelToField label (Some ctx)) = Some ctx)
  /\
  (forall prev between label ctx0 ctx1 f seg,
      mapLabelToField prev (Some ctx0) = (Some f, Some ctx1) ->
      segmentOf f = Some seg ->
      Forall (fun l => firstMapping LABEL_MAPPINGS (normalizeLabel l) = None)
             between ->
      normalizeLabel label = u "% margin" ->
      fst (mapLabelToField label (Some (contextAfter between ctx1)))
      = Some (marginOfSegment seg)).
Proof.
  split.
  - intros label ctx H.
    destruct (mapLabelToField_cases label ctx) as [(f & _ & E)|(E & _)];
      [|exact E].
    rewrite E in H. discriminate H.
  - intros prev between label ctx0 ctx1 f seg Hp Hs Hb Hl.
    rewrite (contextAfter_off_table between ctx1 Hb).
    rewrite (percent_margin_by_context label ctx1 Hl). simpl. f_equal.
    destruct (mapLabelToField_cases prev ctx0)
      as [(g & Hin & E)|(E & [E1|[E1|E1]])]; rewrite Hp in *; simpl in *.
    + injection E as -> ->. now apply table_field_margin.
    + discriminate E1.
    + injection E1 as ->. discriminate Hs.
    + injection E1 as ->. injection E as ->. now apply marginFor_segment.
Qed.

(** X7 on two rows that the table does not know, after a row of the managed
    services line. *)
Lemma unknown_rows_keep_context_witness :
  (let ctx := mkCtx (Some sec_ebitda) (Some F_ebitda_total) in
   snd (mapLabelToField (u "Headcount") (Some ctx)) = Some ctx)
  /\ (let ctx1 := mkCtx (Some sec_revenue) (Some F_revenue_managed_services) in
      fst (mapLabelToField (u "% margin")
             (Some (contextAfter [u "Headcount"; u "Antall kunder"] ctx1)))
      = Some F_margin_managed_services).
Proof.
  destruct unknown_rows_keep_context as (A & B).
  split.
  - cbv zeta.
    apply (A (u "Headcount") (mkCtx (Some sec_ebitda) (Some F_ebitda_total))).
    vm_compute. reflexivity.
  - cbv zeta.
    refine (B (u "Managed services") [u "Headcount"; u "Antall kunder"]
              (u "% margin") (mkCtx None None)
              (mkCtx (Some sec_revenue) (Some F_revenue_managed_services))
              F_revenue_managed_services ManagedServices _ _ _ _).
    + vm_compute. reflexivity.
    + vm_compute. reflexivity.
    + repeat constructor; vm_compute; reflexivity.
    + vm_compute. reflexivity.
Defined.

(* ------------------------------------------------------------------ *)
(** ** The year header *)

Lemma uniqueYears_length seen l :
  (List.length (uniqueYears seen l) <= List.length l)%nat.
Proof.
  revert seen. induction l as [|c l IH]; intros seen; simpl; [lia|].
  destruct (existsb (Js.eqb (yc_year c)) seen).
  - specialize (IH seen). lia.
  - specialize (IH (yc_year c :: seen)). simpl. lia.
Qed.

Lemma insertByCol_length x l :
  List.length (insertByCol x l) = S (List.length l).
Proof.
  induction l as [|y l IH]; simpl; [reflexivity|].
  destruct (col x <? col y); simpl; [reflexivity | now rewrite IH].
Qed.

Lemma sortByCol_length l : List.length (sortByCol l) = List.length l.
Proof.
  induction l as [|x l IH]; simpl; [reflexivity|].
  now rewrite insertByCol_length, IH.
Qed.

(** A row is taken as header exactly when it has enough distinct years. *)
Lemma header_test ws r minCols :
  let maxCol := Z.min 30 (columnCount ws) in
  (Z.of_nat (List.length (rowCandidates ws r maxCol)) >=? minCols)
  && (yearCount ws r >=? minCols)
  = (yearCount ws r >=? minCols).
Proof.
  cbv zeta. unfold yearCount, rowYears.
  pose proof (uniqueYears_length []
                (sortByCol (rowCandidates ws r (Z.min 30 (columnCount ws))))) as L.
  rewrite sortByCol_length in L.
  destruct (Z.geb_spec (Z.of_nat (List.length (uniqueYears []
              (sortByCol (rowCandidates ws r (Z.min 30 (columnCount ws)))))))
                       minCols) as [G|G].
  - rewrite andb_true_r. apply Z.geb_le. lia.
  - apply andb_false_r.
Qed.

Lemma findYearHeaderIn_first ws minCols rows :
  match findYearHeaderIn ws (Z.min 30 (columnCount ws)) minCols rows with
  | Some yi =>
    exists before after,
      rows = before ++ headerRow yi :: after
      /\ Forall (fun r => yearCount ws r < minCols) before
      /\ yearCols yi = rowYears ws (headerRow yi)
      /\ minCols <= yearCount ws (headerRow yi)
  | None => Forall (fun r => yearCount ws r < minCols) rows
  end.
Proof.
  induction rows as [|r rows IH]; [constructor|].
  cbn [findYearHeaderIn]. cbv zeta.
  pose proof (header_test ws r minCols) as T. cbv zeta in T.
  fold (rowYears ws r).
  change (Z.of_nat (List.length (rowYears ws r))) with (yearCount ws r).
  assert (Next : yearCount ws r < minCols ->
                 match findYearHeaderIn ws (Z.min 30 (columnCount ws)) minCols
                         rows with
                 | Some yi =>
                   exists before after,
                     r :: rows = before ++ headerRow yi :: after
                     /\ Forall (fun r => yearCount ws r < minCols) before
                     /\ yearCols yi = rowYears ws (headerRow yi)
                     /\ minCols <= yearCount ws (headerRow yi)
                 | None => Forall (fun r => yearCount ws r < minCols) (r :: rows)
                 end).
  { intros G.
    destruct (findYearHeaderIn ws (Z.min 30 (columnCount ws)) minCols rows)
      as [yi|].
    - destruct IH as (b & a & E & F & Y & M).
      exists (r :: b), a. rewrite E.
      split; [reflexivity|]. split; [constructor; assumption|].
      split; assumption.
    - constructor; assumption. }
  destruct (Z.of_nat (List.length
             (rowCandidates ws r (Z.min 30 (columnCount ws)))) >=? minCols).
  - destruct (Z.geb_spec (yearCount ws r) minCols) as [G|G].
    + exists [], rows. cbn [headerRow yearCols app].
      split; [reflexivity|]. split; [constructor|].
      split; [reflexivity | exact G].
    + exact (Next G).
  - rewrite andb_false_l in T. symmetry in T.
    rewrite Z.geb_leb in T. apply Z.leb_gt in T. exact (Next T).
Qed.

Lemma sorted_before_mid (l1 l2 : list Z) h x :
  StronglySorted Z.lt (l1 ++ h :: l2) -> In x (l1 ++ h :: l2) -> x < h ->
  In x l1.
Proof.
  induction l1 as [|a l1 IH]; simpl; intros S Hin Hlt.
  - apply StronglySorted_inv in S as (_ & F). rewrite Forall_forall in F.
    destruct Hin as [->|Hin]; [lia|]. specialize (F x Hin). lia.
  - apply StronglySorted_inv in S as (S & _).
    destruct Hin as [->|Hin]; [now left|]. right. now apply IH.
Qed.

Lemma yearOfCell_in_range cell y : yearOfCell cell = Some y -> inYearRange y = true.
Proof.
  unfold yearOfCell.
  destruct (cellValue cell) as [[v|v|b|d|]|]; try discriminate.
  - destruct (inYearRange v) eqn:E; [now intros [= <-] | discriminate].
  - destruct (firstFourDigits v); [|discriminate].
    destruct (inYearRange (parseIntDigits j)) eqn:E;
      [now intros [= <-] | discriminate].
  - destruct (inYearRange (getFullYear d)) eqn:E;
      [now intros [= <-] | discriminate].
Qed.

Lemma rowYears_cells ws r yc :
  In yc (rowYears ws r) ->
  1 <= col yc <= Z.min 30 (columnCount ws)
  /\ yearOfCell (getCell ws r (col yc)) = Some (yc_year yc)
  /\ inYearRange (yc_year yc) = true.
Proof.
  unfold rowYears. intros H. apply uniqueYears_incl in H.
  rewrite sortByCol_sorted in H by apply rowCandidates_sorted.
  apply rowCandidates_cells in H as (B & Y).
  repeat split; try tauto. eapply yearOfCell_in_range; eauto.
Qed.


(* ------------------------------------------------------------------ *)
(** ** Input parameters *)

Lemma inputRow_multiples ws lc r p :
  ev_multiple (inputRow ws lc r p) = ev_multiple p
  /\ pref_growth_rate (inputRow ws lc r p) = pref_growth_rate p.
Proof.
  unfold inputRow. destruct p. cbv zeta beta iota.
  repeat match goal with
         | |- context [if ?b then _ else _] => destruct b
         end; split; reflexivity.
Qed.

Lemma parseInputParameters_multiples ws e lc :
  ev_multiple (parseInputParameters ws e lc) = None
  /\ pref_growth_rate (parseInputParameters ws e lc) = None.
Proof.
  unfold parseInputParameters.
  assert (G : forall rows p,
             ev_multiple (fold_left (fun params r => inputRow ws lc r params)
                                    rows p) = ev_multiple p
             /\ pref_growth_rate
                  (fold_left (fun params r => inputRow ws lc r params) rows p)
                = pref_growth_rate p).
  { induction rows as [|r rows IH]; intros p; simpl; [auto|].
    destruct (IH (inputRow ws lc r p)) as (A & B).
    destruct (inputRow_multiples ws lc r p) as (C & D).
    split; congruence. }
  apply (G _ noParams).
Qed.

Lemma keyCount_pos p :
  keyCount p > 0
  <-> existsb (fun b : bool => b)
        [isSet (shares_completion p); isSet (shares_year_end p);
         isSet (tso_warrants_count p); isSet (tso_warrants_price p);
         isSet (mip_share_pct p); isSet (existing_warrants_count p);
         isSet (existing_warrants_price p);
         isSet (acquired_companies_multiple p);
         isSet (acquired_with_shares_pct p); isSet (ev_multiple p);
         isSet (pref_growth_rate p)] = true.
Proof.
  unfold keyCount.
  generalize [isSet (shares_completion p); isSet (shares_year_end p);
              isSet (tso_warrants_count p); isSet (tso_warrants_price p);
              isSet (mip_share_pct p); isSet (existing_warrants_count p);
              isSet (existing_warrants_price p);
              isSet (acquired_companies_multiple p);
              isSet (acquired_with_shares_pct p); isSet (ev_multiple p);
              isSet (pref_growth_rate p)].
  intros l. induction l as [|[|] l IH]; simpl.
  - split; [lia | discriminate].
  - split; [reflexivity | lia].
  - exact IH.
Qed.

Ltac some_key_is_set :=
  apply keyCount_pos, existsb_exists; exists true;
  split; [simpl; repeat (first [left; reflexivity | right]) | reflexivity].

Lemma enrichRow_spec ws lc p r :
  labelParams (enrichRow ws lc p r) = labelParams p
  /\ keptIfSet (ev_multiple p) (ev_multiple (enrichRow ws lc p r))
  /\ keptIfSet (pref_growth_rate p) (pref_growth_rate (enrichRow ws lc p r))
  /\ (multiplesInRange p -> multiplesInRange (enrichRow ws lc p r))
  /\ (keyCount p > 0 -> keyCount (enrichRow ws lc p r) > 0).
Proof.
  unfold enrichRow, multiplesInRange, keptIfSet.
  destruct p as [sc sy tc tp mp ec ep am aw ev pg]. cbv zeta.
  cbn [ev_multiple pref_growth_rate].
  destruct (str_eqb _ (u "ev")), (startsWith (u "pref") _);
    cbn [andb];
    destruct (cellNum (getCell ws r (lc + 1))) as [m|];
    try (destruct (gtb m (ofZ 0) && Js.ltb m (ofZ 100)) eqn:B1);
    try (destruct (gtb m (ofZ 0) && Js.ltb m (ofZ 1)) eqn:B2);
    destruct ev as [[ev|]|], pg as [[pg|]|];
    cbn [isUndefined ev_multiple pref_growth_rate labelParams andb
         shares_completion shares_year_end tso_warrants_count tso_warrants_price
         mip_share_pct existing_warrants_count existing_warrants_price
         acquired_companies_multiple acquired_with_shares_pct absentOrWithin];
    try rewrite B1; try rewrite B2;
    cbn [isUndefined ev_multiple pref_growth_rate labelParams andb
         shares_completion shares_year_end tso_warrants_count tso_warrants_price
         mip_share_pct existing_warrants_count existing_warrants_price
         acquired_companies_multiple acquired_with_shares_pct absentOrWithin];
    (split; [reflexivity|]);
    (split; [intros ? [=]; subst; reflexivity|]);
    (split; [intros ? [=]; subst; reflexivity|]);
    repeat match goal with
           | H : _ && _ = true |- _ => apply andb_true_iff in H; destruct H
           end;
    (split; [tauto | intros K; first [exact K | some_key_is_set]]).
Qed.

Lemma keptIfSet_trans o1 o2 o3 :
  keptIfSet o1 o2 -> keptIfSet o2 o3 -> keptIfSet o1 o3.
Proof. unfold keptIfSet. intros A B m H. apply B, A, H. Qed.

Lemma enrichInputParameters_spec ws p s e lc :
  labelParams (enrichInputParameters ws p s e lc) = labelParams p
  /\ keptIfSet (ev_multiple p)
               (ev_multiple (enrichInputParameters ws p s e lc))
  /\ keptIfSet (pref_growth_rate p)
               (pref_growth_rate (enrichInputParameters ws p s e lc))
  /\ (multiplesInRange p ->
      multiplesInRange (enrichInputParameters ws p s e lc))
  /\ (keyCount p > 0 -> keyCount (enrichInputParameters ws p s e lc) > 0).
Proof.
  unfold enrichInputParameters.
  generalize (fromTo s (Z.min e (rowCount ws))). intros rows. revert p.
  induction rows as [|r rows IH]; intros p; simpl.
  - unfold keptIfSet. auto.
  - destruct (IH (enrichRow ws lc p r)) as (A & B & C & D & E).
    destruct (enrichRow_spec ws lc p r) as (A' & B' & C' & D' & E').
    split; [congruence|].
    split; [eapply keptIfSet_trans; eauto|].
    split; [eapply keptIfSet_trans; eauto|].
    split; auto.
Qed.

Lemma keepFirst_cases params current :
  (keepFirst params current = params /\ keyCount current = 0)
  \/ keepFirst params current = current.
Proof.
  unfold keepFirst. destruct (keyCount params >? 0); [|now right].
  destruct (Z.eqb_spec (keyCount current) 0); simpl; auto.
Qed.

Lemma keepFirst_kept params current :
  keyCount current > 0 -> keepFirst params current = current.
Proof.
  intros H. destruct (keepFirst_cases params current) as [(_ & E)|E];
    [lia | exact E].
Qed.

(** What a sheet does to the input parameters: it keeps them or takes
    those of its own input rows, and then enriches them. *)
Lemma processSheet_params_step cy names fn st ws :
  st_params (processSheet cy names fn st ws) = st_params st
  \/ exists e lc s e',
       st_params (processSheet cy names fn st ws)
       = enrichInputParameters ws
           (keepFirst (parseInputParameters ws e lc) (st_params st)) s e' lc.
Proof.
  unfold processSheet.
  destruct ((rowCount ws =? 0) || (columnCount ws =? 0)); [now left|].
  destruct (findNameBlocks ws) as [|first rest].
  - destruct (Z.of_nat (List.length (findSectionBlocks ws)) >? 1);
      rewrite parseBlocks_spec; [now left|].
    right. cbn [st_params withParams]. eauto.
  - rewrite parseBlocks_spec. right. cbn [st_params withParams]. eauto.
Qed.

Lemma processSheet_params_inv (P : InputParameters -> Prop) :
  (forall ws e lc cur, P cur -> P (keepFirst (parseInputParameters ws e lc) cur)) ->
  (forall ws p s e lc, P p -> P (enrichInputParameters ws p s e lc)) ->
  forall cy names fn wss st,
    P (st_params st) ->
    P (st_params (fold_left (processSheet cy names fn) wss st)).
Proof.
  intros K E cy names fn wss.
  induction wss as [|ws wss IH]; intros st H; simpl; [exact H|].
  apply IH.
  destruct (processSheet_params_step cy names fn st ws)
    as [->|(e & lc & s & e' & ->)]; [exact H|].
  apply E, K, H.
Qed.

Lemma result_params cy wss fn r :
  parseExcelBuffer cy wss fn = Ok r ->
  inputParameters r = st_params (runSheets cy wss fn).
Proof.
  intros H. apply parseExcelBuffer_ok in H as (_ & _ & ->). reflexivity.
Qed.

(** X9: the two figures that the enrichment reads from the model rows are
    within their bounds in every Parse Result that is returned: ev_multiple,
    when present, is a number strictly between 0 and 100, pref_growth_rate
    one strictly between 0 and 1; neither is ever present but undefined. *)
Theorem multiples_are_within_bounds cy wss fn r :
  parseExcelBuffer cy wss fn = Ok r ->
  multiplesInRange (inputParameters r).
Proof.
  intros H. rewrite (result_params _ _ _ _ H). unfold runSheets. cbv zeta.
  apply (processSheet_params_inv multiplesInRange).
  - intros ws e lc cur Hc.
    destruct (keepFirst_cases (parseInputParameters ws e lc) cur)
      as [(-> & _)| ->]; [|exact Hc].
    destruct (parseInputParameters_multiples ws e lc) as (A & B).
    unfold multiplesInRange. rewrite A, B. simpl. auto.
  - intros ws p s e lc Hp. now apply enrichInputParameters_spec.
  - simpl. unfold multiplesInRange. simpl. auto.
Qed.

(** X9 on a sheet with both figures among its rows. *)
Lemma multiples_are_within_bounds_witness :
  exists r,
    parseExcelBuffer 2026 [sheetWithInputs] None = Ok r
    /\ ev_multiple (inputParameters r) = Some (Some (ofZ 12))
    /\ pref_growth_rate (inputParameters r) = Some (Some (Fin 8 (-2)))
    /\ multiplesInRange (inputParameters r).
Proof.
  destruct (parseExcelBuffer 2026 [sheetWithInputs] None) as [r|msg] eqn:E;
    [|vm_compute in E; discriminate].
  exists r.
  split; [reflexivity|].
  split; [vm_compute in E; injection E as <-; reflexivity|].
  split; [vm_compute in E; injection E as <-; reflexivity|].
  exact (multiples_are_within_bounds 2026 [sheetWithInputs] None r E).
Defined.

(** X10: once the input parameters hold a key, no later sheet changes
    them: the nine parameters read from labelled rows stay as they are
    (those of a later sheet are not taken), and ev_multiple and
    pref_growth_rate stay once they hold a number.  A key that only the
    enrichment has set is enough to shut the later sheets out. *)
Theorem parameters_are_kept_once_found cy names fn wss st :
  keyCount (st_params st) > 0 ->
  let p := st_params st in
  let p' := st_params (fold_left (processSheet cy names fn) wss st) in
  labelParams p' = labelParams p
  /\ keptIfSet (ev_multiple p) (ev_multiple p')
  /\ keptIfSet (pref_growth_rate p) (pref_growth_rate p').
Proof.
  intros H. cbv zeta.
  assert (G : (fun q => keyCount q > 0
                        /\ labelParams q = labelParams (st_params st)
                        /\ keptIfSet (ev_multiple (st_params st)) (ev_multiple q)
                        /\ keptIfSet (pref_growth_rate (st_params st))
                                     (pref_growth_rate q))
                (st_params (fold_left (processSheet cy names fn) wss st))).
  { apply processSheet_params_inv.
    - intros ws e lc cur (K & Hc). now rewrite keepFirst_kept.
    - intros ws p s e lc (K & L & A & B).
      destruct (enrichInputParameters_spec ws p s e lc) as (L' & A' & B' & _ & K').
      split; [auto|]. split; [congruence|].
      split; eapply keptIfSet_trans; eauto.
    - unfold keptIfSet. auto. }
  cbv beta in G. tauto.
Qed.

(** X10 on a state in which only the enrichment has set a key: the share
    count of the next sheet is not taken. *)
Lemma parameters_are_kept_once_found_witness :
  let st := mkState [] []
                    (mkParams None None None None None None None None None
                              (Some (Some (ofZ 12))) None) in
  keyCount (st_params st) > 0
  /\ shares_completion (parseInputParameters sheetWithInputs 3 2)
     = Some (Some (ofZ 1000))
  /\ labelParams (st_params (fold_left (processSheet 2026 [u "Modell"] None)
                                       [sheetWithInputs] st))
     = labelParams (st_params st)
  /\ keptIfSet (ev_multiple (st_params st))
               (ev_multiple
                  (st_params (fold_left (processSheet 2026 [u "Modell"] None)
                                        [sheetWithInputs] st)))
  /\ keptIfSet (pref_growth_rate (st_params st))
               (pref_growth_rate
                  (st_params (fold_left (processSheet 2026 [u "Modell"] None)
                                        [sheetWithInputs] st))).
Proof.
  cbv zeta.
  assert (K : keyCount
                (st_params
                   (mkState [] []
                      (mkParams None None None None None None None None None
                                (Some (Some (ofZ 12))) None))) > 0)
    by (vm_compute; reflexivity).
  split; [exact K|].
  split; [vm_compute; reflexivity|].
  exact (parameters_are_kept_once_found 2026 [u "Modell"] None [sheetWithInputs]
           (mkState [] []
              (mkParams None None None None None None None None None
                        (Some (Some (ofZ 12))) None)) K).
Defined.

(** The invariant of the loop of [parseInputParameters]. *)
Definition inputsReadAbove (ws : Worksheet) (e lc : Z) (p : InputParameters)
  : Prop :=
  readAbove ws e (lc + 1) (shares_completion p)
  /\ readAbove ws e (lc + 1) (shares_year_end p)
  /\ readAbove ws e (lc + 1) (tso_warrants_count p)
  /\ numberAbove ws e [lc + 2] (tso_warrants_price p)
  /\ readAbove ws e (lc + 1) (mip_share_pct p)
  /\ readAbove ws e (lc + 1) (existing_warrants_count p)
  /\ numberAbove ws e [lc + 2] (existing_warrants_price p)
  /\ numberAbove ws e [lc + 2; lc + 1] (acquired_companies_multiple p)
  /\ numberAbove ws e [lc + 2; lc + 1] (acquired_with_shares_pct p)
  /\ ev_multiple p = None
  /\ pref_growth_rate p = None.

Lemma inputRow_reads ws e lc r p :
  1 <= r < e -> inputsReadAbove ws e lc p ->
  inputsReadAbove ws e lc (inputRow ws lc r p).
Proof.
  intros Hr. unfold inputsReadAbove, inputRow.
  destruct p as [sc sy tc tp mp ec ep am aw ev pg]. cbv zeta.
  cbn [shares_completion shares_year_end tso_warrants_count tso_warrants_price
       mip_share_pct existing_warrants_count existing_warrants_price
       acquired_companies_multiple acquired_with_shares_pct ev_multiple
       pref_growth_rate].
  intros (H1 & H2 & H3 & H4 & H5 & H6 & H7 & H8 & H9 & H10 & H11).
  destruct (cellNum (getCell ws r (lc + 2))) as [v2|] eqn:E2;
    destruct (cellNum (getCell ws r (lc + 1))) as [v1|] eqn:E1;
    repeat match goal with
           | |- context [if ?b then _ else _] => destruct b
           end;
    cbn [shares_completion shares_year_end tso_warrants_count tso_warrants_price
         mip_share_pct existing_warrants_count existing_warrants_price
         acquired_companies_multiple acquired_with_shares_pct ev_multiple
         pref_growth_rate];
    repeat split; auto;
    first [ solve [exists r; auto]
          | solve [exists r, (lc + 2); simpl; auto]
          | solve [exists r, (lc + 1); simpl; auto] ].
Qed.

(** X11: parseInputParameters reads only the rows above endRow and only
    the two columns right of the label column.  The share counts, the
    warrant counts and the MIP share are what cellNum reads in column
    labelCol + 1 (undefined when that is null); the two warrant prices are
    numbers of column labelCol + 2; the two acquisition figures are numbers
    of column labelCol + 2 or labelCol + 1; ev_multiple and pref_growth_rate
    are never set. *)
Theorem input_parameters_are_read_above_the_block ws e lc :
  inputsReadAbove ws e lc (parseInputParameters ws e lc).
Proof.
  unfold parseInputParameters.
  assert (G : forall rows p,
             Forall (fun r => 1 <= r < e) rows ->
             inputsReadAbove ws e lc p ->
             inputsReadAbove ws e lc
               (fold_left (fun params r => inputRow ws lc r params) rows p)).
  { induction rows as [|r rows IH]; intros p Hrows Hp; simpl; [exact Hp|].
    apply IH; [now inversion Hrows|].
    apply inputRow_reads; [now inversion Hrows | exact Hp]. }
  apply G.
  - apply Forall_forall. intros r Hr. apply In_fromTo in Hr. lia.
  - unfold inputsReadAbove. simpl. tauto.
Qed.


(* ------------------------------------------------------------------ *)
(** ** The head of a period *)

Lemma setField_head p k v : periodHead (setField p k v) = periodHead p.
Proof. destruct p, k; reflexivity. Qed.

Lemma populate_head ws r f ps ycs :
  map periodHead (populate ws r f ps ycs) = map periodHead ps.
Proof.
  revert ycs. induction ps as [|p ps IH]; intros ycs; [reflexivity|].
  destruct ycs as [|yc ycs]; [reflexivity|]. simpl. rewrite IH. f_equal.
  destruct (cellNum (getCell ws r (col yc))); [apply setField_head|reflexivity].
Qed.

Lemma scanRow_head ws lc yi st r :
  map periodHead (sc_periods (scanRow ws lc yi st r))
  = map periodHead (sc_periods st).
Proof.
  unfold scanRow.
  destruct (r =? headerRow yi); [reflexivity|].
  destruct (rowLabel ws lc r) as [|c l]; [reflexivity|].
  destruct (isSkippedLabel (c :: l)); [reflexivity|].
  destruct (mapLabelToField (c :: l) (Some (sc_ctx st))) as [[f|] ctx']; simpl.
  - apply populate_head.
  - now destruct (rowHasData ws r (yearCols yi) && (Js.length (c :: l) >? 1)).
Qed.

Lemma scanned_head cy ws s e lc yi :
  map periodHead (sc_periods (scanned cy ws s e lc yi))
  = map (fun yc => periodHead (createEmptyPeriod cy (yc_year yc))) (yearCols yi).
Proof.
  unfold scanned, scanRows.
  generalize (fromTo s (e - 1)). intros rows.
  match goal with
  | |- context [fold_left _ rows ?st0] =>
    assert (E : map periodHead (sc_periods st0)
                = map (fun yc => periodHead (createEmptyPeriod cy (yc_year yc)))
                      (yearCols yi)) by (simpl; now rewrite map_map);
    revert E; generalize st0
  end.
  induction rows as [|r rows IH]; intros st E; simpl; [exact E|].
  apply IH. now rewrite scanRow_head.
Qed.

(** X12: every Period of an emitted block has a year between 2020 and 2040
    and the date, the label and the actual/budget/forecast classification
    that createEmptyPeriod gives to that year: the row loop changes the
    numeric fields only. *)
Theorem periods_are_stamped_by_their_year cy ws s e n m :
  model (parseBlock cy ws s e n) = Some m ->
  Forall (fun p =>
            inYearRange (year p) = true
            /\ periodHead p = periodHead (createEmptyPeriod cy (year p)))
         (periods m).
Proof.
  intros Hm. destruct (parseBlock_model _ _ _ _ _ _ Hm) as (yi & Hd & E).
  cbv zeta in Hd, E. rewrite E in Hm.
  apply parseBlockWithYears_model in Hm. cbv zeta in Hm.
  destruct Hm as (_ & _ & Hp & _).
  apply detectedHeader_props in Hd as (_ & _ & Hc & _).
  rewrite Forall_forall in Hc.
  apply Forall_forall. intros p Hin. rewrite Hp in Hin.
  apply filter_In in Hin as (Hin & _).
  apply (in_map periodHead) in Hin. rewrite scanned_head in Hin.
  apply in_map_iff in Hin as (yc & Ey & Hyc).
  assert (Y : year p = yc_year yc)
    by (unfold periodHead in Ey; now injection Ey as <- _ _ _).
  rewrite Y. split; [|now symmetry].
  destruct (Hc yc Hyc) as (_ & Hcell). eapply yearOfCell_in_range; eauto.
Qed.

(** X12 on the sample sheet with three years, read in 2026. *)
Lemma periods_are_stamped_by_their_year_witness :
  exists m,
    model (parseBlock 2026 sheetThreeYears 1 3 (u "Plan")) = Some m
    /\ map period_type (periods m) = [u "actual"; u "budget"; u "forecast"]
    /\ Forall (fun p =>
                 inYearRange (year p) = true
                 /\ periodHead p = periodHead (createEmptyPeriod 2026 (year p)))
              (periods m).
Proof.
  destruct (model (parseBlock 2026 sheetThreeYears 1 3 (u "Plan")))
    as [m|] eqn:E; [|vm_compute in E; discriminate].
  exists m. split; [reflexivity|].
  split; [vm_compute in E; injection E as <-; reflexivity|].
  exact (periods_are_stamped_by_their_year 2026 sheetThreeYears 1 3 (u "Plan")
           m E).
Defined.

(* ------------------------------------------------------------------ *)
(** ** Blocks without a year *)

Lemma uniqueYears_nil l : uniqueYears [] l = [] -> l = [].
Proof. destruct l as [|c l]; [reflexivity | discriminate]. Qed.

Lemma rowCandidates_nil ws r maxCol :
  rowCandidates ws r maxCol = []
  <-> forall c, 1 <= c <= maxCol -> yearOfCell (getCell ws r c) = None.
Proof.
  unfold rowCandidates. split.
  - intros H c Hc.
    destruct (yearOfCell (getCell ws r c)) as [y|] eqn:E; [|reflexivity].
    exfalso.
    assert (Hin : In (mkYearCol c y)
                     (flat_map (fun c0 =>
                                  match yearOfCell (getCell ws r c0) with
                                  | Some yearNum => [mkYearCol c0 yearNum]
                                  | None => []
                                  end) (fromTo 1 maxCol))).
    { apply in_flat_map. exists c. split; [now apply In_fromTo|].
      rewrite E. now left. }
    rewrite H in Hin. contradiction.
  - intros H.
    assert (G : forall cols, Forall (fun c => 1 <= c <= maxCol) cols ->
                  flat_map (fun c0 =>
                              match yearOfCell (getCell ws r c0) with
                              | Some yearNum => [mkYearCol c0 yearNum]
                              | None => []
                              end) cols = []).
    { induction 1 as [|c cols Hc _ IH]; simpl; [reflexivity|].
      now rewrite (H c Hc). }
    apply G, Forall_forall. intros c Hc. now apply In_fromTo in Hc.
Qed.

Lemma rowYears_nil ws r :
  yearCount ws r < 1
  <-> forall c, 1 <= c <= Z.min 30 (columnCount ws) ->
                yearOfCell (getCell ws r c) = None.
Proof.
  unfold yearCount, rowYears.
  rewrite sortByCol_sorted by apply rowCandidates_sorted.
  rewrite <- rowCandidates_nil. split.
  - intros H. apply uniqueYears_nil.
    destruct (uniqueYears [] _); [reflexivity | simpl in H; lia].
  - intros ->. simpl. lia.
Qed.

Lemma findYearHeader_none ws s e minCols :
  1 <= minCols ->
  findYearHeader ws s e minCols = None ->
  forall r, s <= r <= Z.min e (rowCount ws) -> yearCount ws r < minCols.
Proof.
  intros _ H r Hr. unfold findYearHeader in H. cbv zeta in H.
  pose proof (findYearHeaderIn_first ws minCols
                (fromTo s (Z.min e (rowCount ws)))) as F.
  rewrite H in F. rewrite Forall_forall in F. apply F. now apply In_fromTo.
Qed.

Lemma findYearHeader_noYearCell ws s e minCols :
  1 <= minCols -> noYearCell ws s e -> findYearHeader ws s e minCols = None.
Proof.
  intros Hm H. unfold findYearHeader. cbv zeta.
  pose proof (findYearHeaderIn_first ws minCols
                (fromTo s (Z.min e (rowCount ws)))) as F.
  destruct (findYearHeaderIn ws (Z.min 30 (columnCount ws)) minCols
              (fromTo s (Z.min e (rowCount ws)))) as [yi|]; [|reflexivity].
  exfalso. destruct F as (b & a & E & _ & _ & M).
  assert (Hin : In (headerRow yi) (fromTo s (Z.min e (rowCount ws))))
    by (rewrite E; apply in_or_app; right; now left).
  apply In_fromTo in Hin.
  assert (yearCount ws (headerRow yi) < 1)
    by (apply rowYears_nil; intros c Hc; now apply H).
  lia.
Qed.

Lemma warnNoData_not_warnNoYears n ws a b :
  warnNoData n ws <> warnNoYears n ws a b.
Proof.
  unfold warnNoData, warnNoYears. intros H.
  apply app_inv_head in H. apply app_inv_head in H.
  apply app_inv_head in H. unfold quoted in H. rewrite <- !app_assoc in H.
  apply app_inv_head in H. apply app_inv_head in H.
  vm_compute in H. discriminate.
Qed.

(** X13: parseBlock gives up with the no-years warning exactly when no
    cell of the block holds a year: none of the rows from startRow to the
    smaller of the end row and the last row of the sheet, in none of the
    first 30 columns. *)
Theorem no_years_warning_iff_no_year_cell cy ws s e n :
  let e' := Z.min e (rowCount ws + 1) in
  parseBlock cy ws s e n = mkBlockResult None [warnNoYears n ws s e']
  <-> noYearCell ws s e'.
Proof.
  cbv zeta. unfold parseBlock. cbv zeta. split.
  - intros H.
    assert (X : forall lc yi,
               parseBlockWithYears cy ws s (Z.min e (rowCount ws + 1)) n lc yi []
               <> mkBlockResult None
                    [warnNoYears n ws s (Z.min e (rowCount ws + 1))]).
    { intros lc yi E.
      assert (Hm : model (parseBlockWithYears cy ws s
                            (Z.min e (rowCount ws + 1)) n lc yi []) = None)
        by now rewrite E.
      rewrite (parseBlockWithYears_none _ _ _ _ _ _ _ _ Hm) in E.
      apply (f_equal warnings) in E. cbn [warnings app] in E.
      apply (f_equal (hd [])) in E. cbn [hd] in E.
      exact (warnNoData_not_warnNoYears _ _ _ _ E). }
    destruct (findYearHeader ws s (Z.min e (rowCount ws + 1)) 2) as [yi|] eqn:E2;
      [now apply X in H|].
    destruct (findYearHeader ws s (Z.min e (rowCount ws + 1)) 1) as [yi|] eqn:E1;
      [now apply X in H|].
    intros r c Hr Hc.
    assert (Y : yearCount ws r < 1)
      by (apply (findYearHeader_none ws s _ 1 ltac:(lia) E1); exact Hr).
    exact (proj1 (rowYears_nil ws r) Y c Hc).
  - intros H.
    rewrite (findYearHeader_noYearCell ws s _ 2 ltac:(lia) H).
    now rewrite (findYearHeader_noYearCell ws s _ 1 ltac:(lia) H).
Qed.


(** X13 on a block of two data rows without a header. *)
Lemma no_years_warning_iff_no_year_cell_witness :
  noYearCell sheetNoYears 1 (Z.min 3 (rowCount sheetNoYears + 1)).
Proof.
  apply (proj1 (no_years_warning_iff_no_year_cell 2026 sheetNoYears 1 3
                  (u "Plan"))).
  vm_compute. reflexivity.
Defined.

(* ------------------------------------------------------------------ *)
(** ** The label column *)

Lemma bump_scoreOf c c' sc :
  scoreOf c' (bump c sc) = scoreOf c' sc + (if c =? c' then 1 else 0).
Proof.
  unfold scoreOf. induction sc as [|[k v] t IH]; simpl.
  - destruct (c =? c'); reflexivity.
  - destruct (Z.eqb_spec k c) as [->|Hk]; simpl.
    + destruct (c =? c'); simpl; lia.
    + destruct (Z.eqb_spec k c') as [->|Hk'].
      * destruct (Z.eqb_spec c c'); simpl; lia.
      * exact IH.
Qed.

Lemma bump_keys c sc k :
  In k (map fst (bump c sc)) <-> k = c \/ In k (map fst sc).
Proof.
  induction sc as [|[k0 v] t IH]; simpl.
  - intuition.
  - destruct (Z.eqb_spec k0 c) as [->|Hk]; simpl; intuition.
Qed.

Lemma bump_scoreMap c sc : scoreMap sc -> scoreMap (bump c sc).
Proof.
  unfold scoreMap. intros (N & P). induction sc as [|[k v] t IH]; simpl.
  - split; [constructor; [intros [] | constructor]
           | constructor; [simpl; lia | constructor]].
  - apply NoDup_cons_iff in N as (Nk & Nt).
    pose proof (Forall_inv P) as Pv. pose proof (Forall_inv_tail P) as Pt.
    simpl in Pv. destruct (Z.eqb_spec k c) as [->|Hk]; simpl.
    + split; [constructor; assumption|]. constructor; [simpl; lia | exact Pt].
    + destruct (IH Nt Pt) as (N' & P').
      split; [|constructor; assumption].
      constructor; [|exact N']. rewrite bump_keys. tauto.
Qed.

Lemma scoreOf_In sc k v :
  NoDup (map fst sc) -> In (k, v) sc -> scoreOf k sc = v.
Proof.
  unfold scoreOf. induction sc as [|[k0 v0] t IH]; simpl; [tauto|].
  intros N [E|Hin].
  - injection E as -> ->. now rewrite Z.eqb_refl.
  - apply NoDup_cons_iff in N as (Nk & Nt).
    destruct (Z.eqb_spec k0 k) as [->|Hk]; [|now apply IH].
    exfalso. apply Nk. now apply (in_map fst) in Hin.
Qed.

Lemma scoreOf_absent sc k : ~ In k (map fst sc) -> scoreOf k sc = 0.
Proof.
  unfold scoreOf. induction sc as [|[k0 v0] t IH]; simpl; [reflexivity|].
  intros H. destruct (Z.eqb_spec k0 k); [tauto|]. apply IH. tauto.
Qed.

Lemma scoreCell_scoreOf ws r c c' sc :
  scoreOf c' (scoreCell ws r sc c)
  = scoreOf c' sc + (if isKnownLabelCell ws r c && (c =? c') then 1 else 0).
Proof.
  unfold scoreCell. destruct (isKnownLabelCell ws r c); simpl; [|lia].
  apply bump_scoreOf.
Qed.

Lemma scoreCell_scoreMap ws r c sc :
  scoreMap sc -> scoreMap (scoreCell ws r sc c).
Proof.
  intros H. unfold scoreCell.
  destruct (isKnownLabelCell ws r c); [now apply bump_scoreMap | exact H].
Qed.

Lemma scoreRow_fold ws maxCol r sc :
  scoreRow ws maxCol r sc = fold_left (scoreCell ws r) (fromTo 1 maxCol) sc.
Proof.
  unfold scoreRow. generalize (fromTo 1 maxCol). intros cols. revert sc.
  induction cols as [|c cols IH]; intros sc; simpl; [reflexivity|].
  rewrite IH. f_equal. unfold scoreCell, isKnownLabelCell.
  now destruct (cellStr (getCell ws r c)).
Qed.

Lemma existsb_fromTo c a b :
  existsb (Z.eqb c) (fromTo a b) = (a <=? c) && (c <=? b).
Proof.
  destruct (existsb (Z.eqb c) (fromTo a b)) eqn:E.
  - apply existsb_exists in E as (x & Hin & Hx). apply Z.eqb_eq in Hx.
    subst x. apply In_fromTo in Hin. symmetry. apply andb_true_iff.
    split; apply Z.leb_le; lia.
  - symmetry. apply not_true_is_false. intros H.
    apply andb_true_iff in H as (H1 & H2).
    apply Z.leb_le in H1. apply Z.leb_le in H2.
    assert (X : existsb (Z.eqb c) (fromTo a b) = true).
    { apply existsb_exists. exists c. split; [apply In_fromTo; lia|].
      apply Z.eqb_refl. }
    congruence.
Qed.

Lemma scoreCells_scoreOf ws r c' cols sc :
  StronglySorted Z.lt cols ->
  scoreOf c' (fold_left (scoreCell ws r) cols sc)
  = scoreOf c' sc
    + (if isKnownLabelCell ws r c' && existsb (Z.eqb c') cols then 1 else 0).
Proof.
  intros S. revert sc. induction S as [|c cols _ IH Hc]; intros sc; simpl.
  - rewrite andb_false_r. lia.
  - rewrite IH, scoreCell_scoreOf.
    destruct (Z.eqb_spec c' c) as [->|Hne].
    + rewrite !Z.eqb_refl.
      replace (existsb (Z.eqb c) cols) with false.
      * destruct (isKnownLabelCell ws r c); simpl; lia.
      * symmetry. apply not_true_is_false. intros E.
        apply existsb_exists in E as (x & Hin & Hx). apply Z.eqb_eq in Hx.
        subst x. rewrite Forall_forall in Hc. specialize (Hc c Hin). lia.
    + replace (c =? c') with false
        by (symmetry; apply Z.eqb_neq; congruence).
      destruct (isKnownLabelCell ws r c), (isKnownLabelCell ws r c'),
        (existsb (Z.eqb c') cols); simpl; lia.
Qed.

Lemma scoreRow_scoreOf ws maxCol r c' sc :
  scoreOf c' (scoreRow ws maxCol r sc)
  = scoreOf c' sc
    + (if isKnownLabelCell ws r c' && ((1 <=? c') && (c' <=? maxCol))
       then 1 else 0).
Proof.
  rewrite scoreRow_fold, scoreCells_scoreOf by apply fromTo_sorted.
  now rewrite existsb_fromTo.
Qed.

Lemma scoreRow_scoreMap ws maxCol r sc :
  scoreMap sc -> scoreMap (scoreRow ws maxCol r sc).
Proof.
  rewrite scoreRow_fold. generalize (fromTo 1 maxCol). intros cols. revert sc.
  induction cols as [|c cols IH]; intros sc H; simpl; [exact H|].
  apply IH. now apply scoreCell_scoreMap.
Qed.

Lemma scoreRows_scoreOf ws maxCol rows c' sc :
  scoreOf c' (fold_left (fun sc r => scoreRow ws maxCol r sc) rows sc)
  = scoreOf c' sc
    + (if (1 <=? c') && (c' <=? maxCol)
       then Z.of_nat (List.length
                        (filter (fun r => isKnownLabelCell ws r c') rows))
       else 0).
Proof.
  revert sc. induction rows as [|r rows IH]; intros sc; simpl.
  - destruct ((1 <=? c') && (c' <=? maxCol)); simpl; lia.
  - rewrite IH, scoreRow_scoreOf.
    destruct ((1 <=? c') && (c' <=? maxCol));
      destruct (isKnownLabelCell ws r c'); simpl List.length; simpl andb;
      cbv iota; lia.
Qed.

Lemma scoreRows_scoreMap ws maxCol rows sc :
  scoreMap sc ->
  scoreMap (fold_left (fun sc r => scoreRow ws maxCol r sc) rows sc).
Proof.
  revert sc. induction rows as [|r rows IH]; intros sc H; simpl; [exact H|].
  apply IH. now apply scoreRow_scoreMap.
Qed.

Lemma bestColumn_fold sc acc :
  let res :=
    @fold_left (Z * Z) (Z * Z)
               (fun '(bestCol, bestScore) '(c, score) =>
                  if score >? bestScore then (c, score)
                  else (bestCol, bestScore)) sc acc in
  snd acc <= snd res
  /\ Forall (fun kv => snd kv <= snd res) sc
  /\ (res = acc \/ In res sc).
Proof.
  cbv zeta. revert acc. induction sc as [|[c v] t IH]; intros [bc bs]; simpl.
  - split; [lia|]. split; [constructor | now left].
  - destruct (Z.gtb_spec v bs) as [G|G].
    + destruct (IH (c, v)) as (A & B & C). simpl in A.
      split; [lia|]. split; [constructor; [simpl; lia | exact B]|].
      destruct C as [->|C]; [right; now left | right; now right].
    + destruct (IH (bc, bs)) as (A & B & C). simpl in A.
      split; [lia|]. split; [constructor; [simpl; lia | exact B]|].
      destruct C as [->|C]; [now left | right; now right].
Qed.

Lemma bestColumn_spec sc :
  scoreMap sc -> sc <> [] ->
  In (bestColumn sc) (map fst sc)
  /\ forall k, scoreOf k sc <= scoreOf (bestColumn sc) sc.
Proof.
  intros (N & P) Hne. unfold bestColumn.
  destruct (bestColumn_fold sc (2, 0)) as (A & B & C). cbv zeta in A, B, C.
  set (res := fold_left _ sc (2, 0)) in *. simpl in A.
  rewrite Forall_forall in B, P.
  assert (Hin : In res sc).
  { destruct C as [E|C]; [|exact C]. exfalso.
    destruct sc as [|kv t]; [congruence|].
    specialize (B kv (or_introl eq_refl)). specialize (P kv (or_introl eq_refl)).
    rewrite E in B. simpl in B. lia. }
  destruct res as [bc bs] eqn:Er. simpl.
  split; [now apply (in_map fst) in Hin|].
  intros k. rewrite (scoreOf_In sc bc bs N Hin).
  destruct (in_dec Z.eq_dec k (map fst sc)) as [Hk|Hk].
  - apply in_map_iff in Hk as ([k' v] & Ek & Hkv). simpl in Ek. subst k'.
    rewrite (scoreOf_In sc k v N Hkv). exact (B _ Hkv).
  - rewrite (scoreOf_absent sc k Hk).
    specialize (P _ Hin). simpl in P. lia.
Qed.

Lemma labelColumn_scores ws s e c :
  let maxCol := Z.min 10 (columnCount ws) in
  let colScores :=
    fold_left (fun sc r => scoreRow ws maxCol r sc)
              (fromTo s (Z.min e (rowCount ws))) [] in
  scoreMap colScores
  /\ scoreOf c colScores
     = if (1 <=? c) && (c <=? maxCol) then labelScore ws s e c else 0.
Proof.
  cbv zeta. split.
  - apply scoreRows_scoreMap. split; constructor.
  - rewrite scoreRows_scoreOf. unfold labelScore. reflexivity.
Qed.

(** X14: the label column is the column, among the first ten, with the
    most cells that hold a known financial term in the rows of the range
    (the end row included); it is column 2 when no column has one. *)
Theorem findLabelColumn_has_most_known_labels ws s e :
  let lc := findLabelColumn ws s e in
  let maxCol := Z.min 10 (columnCount ws) in
  ((forall c, 1 <= c <= maxCol -> labelScore ws s e c = 0) -> lc = 2)
  /\ ((exists c, 1 <= c <= maxCol /\ 0 < labelScore ws s e c) ->
      1 <= lc <= maxCol
      /\ 0 < labelScore ws s e lc
      /\ forall c, 1 <= c <= maxCol ->
                   labelScore ws s e c <= labelScore ws s e lc).
Proof.
  cbv zeta. unfold findLabelColumn. cbv zeta.
  pose proof (fun c => proj2 (labelColumn_scores ws s e c)) as Sc.
  pose proof (proj1 (labelColumn_scores ws s e 0)) as M.
  cbv zeta in Sc, M.
  set (colScores := fold_left _ (fromTo s (Z.min e (rowCount ws))) []) in *.
  assert (InRange : forall c, 1 <= c <= Z.min 10 (columnCount ws) ->
                      scoreOf c colScores = labelScore ws s e c).
  { intros c Hc. rewrite Sc.
    replace ((1 <=? c) && (c <=? Z.min 10 (columnCount ws))) with true;
      [reflexivity|].
    symmetry. apply andb_true_iff. split; apply Z.leb_le; lia. }
  assert (Keys : forall k, In k (map fst colScores) ->
                   1 <= k <= Z.min 10 (columnCount ws) /\ 0 < scoreOf k colScores).
  { intros k Hk. destruct M as (N & P).
    apply in_map_iff in Hk as ([k' v] & Ek & Hkv). simpl in Ek. subst k'.
    rewrite Forall_forall in P. pose proof (P _ Hkv) as Pv. simpl in Pv.
    pose proof (scoreOf_In colScores k v N Hkv) as E.
    split; [|lia]. rewrite Sc in E.
    destruct ((1 <=? k) && (k <=? Z.min 10 (columnCount ws))) eqn:R; [|lia].
    apply andb_true_iff in R as (R1 & R2).
    apply Z.leb_le in R1. apply Z.leb_le in R2. lia. }
  split.
  - intros Zero. destruct colScores as [|[k v] t] eqn:Ec; [reflexivity|].
    exfalso. destruct (Keys k (or_introl eq_refl)) as (Rk & Pk).
    rewrite (InRange k Rk), (Zero k Rk) in Pk. lia.
  - intros (c & Rc & Pc).
    assert (Hne : colScores <> []).
    { intros E. rewrite <- (InRange c Rc) in Pc. rewrite E in Pc.
      unfold scoreOf in Pc. simpl in Pc. lia. }
    destruct (bestColumn_spec colScores M Hne) as (Hin & Hmax).
    destruct colScores as [|kv t] eqn:Ec; [congruence|]. rewrite <- Ec in *.
    destruct (Keys _ Hin) as (Rb & Pb).
    split; [exact Rb|]. rewrite <- (InRange _ Rb). split; [exact Pb|].
    intros c0 Rc0. rewrite <- (InRange c0 Rc0). apply Hmax.
Qed.


(** X14 on the block of the end-to-end sample. *)
Lemma findLabelColumn_has_most_known_labels_witness :
  1 <= findLabelColumn sheetBaseline 11 15
    <= Z.min 10 (columnCount sheetBaseline)
  /\ 0 < labelScore sheetBaseline 11 15 (findLabelColumn sheetBaseline 11 15)
  /\ forall c, 1 <= c <= Z.min 10 (columnCount sheetBaseline) ->
               labelScore sheetBaseline 11 15 c
               <= labelScore sheetBaseline 11 15
                             (findLabelColumn sheetBaseline 11 15).
Proof.
  apply (proj2 (findLabelColumn_has_most_known_labels sheetBaseline 11 15)).
  exists 2. split; [vm_compute; intuition discriminate | vm_compute; reflexivity].
Defined.

(* ------------------------------------------------------------------ *)
(** ** The blocks of the marker rows *)

Lemma trimStart_head s :
  match trimStart s with
  | [] => True
  | c :: _ => isWhite c = false
  end.
Proof.
  induction s as [|c s IH]; simpl; [exact I|].
  destruct (isWhite c) eqn:E; [exact IH | exact E].
Qed.

Lemma trimStart_fixed c s : isWhite c = false -> trimStart (c :: s) = c :: s.
Proof. intros H. simpl. now rewrite H. Qed.

Lemma trimEnd_idem s : trimEnd (trimEnd s) = trimEnd s.
Proof.
  unfold trimEnd. now rewrite rev_involutive, trimStart_idem.
Qed.

Lemma trim_idem s : trim (trim s) = trim s.
Proof.
  unfold trim. pose proof (trimStart_head s) as H.
  destruct (trimStart s) as [|c t] eqn:E; [reflexivity|].
  destruct (trimEnd_decomp (c :: t)) as (w & D & F).
  destruct (trimEnd (c :: t)) as [|c0 t0] eqn:E0.
  - exfalso. simpl in D. subst w. apply Forall_inv in F. congruence.
  - simpl in D. injection D as <- _.
    rewrite (trimStart_fixed c t0 H), <- E0. apply trimEnd_idem.
Qed.

Lemma nameRow_opened ws r b :
  1 <= r <= rowCount ws ->
  In b (nameRow ws (Z.min 10 (columnCount ws)) r []) ->
  openedByMarker ws b /\ startRow b = r /\ endRow b = rowCount ws + 1.
Proof.
  intros Hr. unfold nameRow.
  destruct (find _ (fromTo 1 (Z.min 10 (columnCount ws)))) as [c|] eqn:Ef;
    [|contradiction].
  cbv zeta.
  destruct (trim (stripNameMarker (cellStr (getCell ws r c)))) as [|x l] eqn:En;
    [contradiction|].
  cbn [nonEmpty app]. intros [<-|[]].
  cbn [startRow endRow]. split; [|split; reflexivity].
  unfold openedByMarker. cbn [startRow sheetName rb_name].
  split; [exact Hr|]. split; [reflexivity|]. split; [discriminate|].
  split; [rewrite <- En; apply trim_idem|].
  pose proof (find_some _ _ Ef) as (Hin & Ht).
  apply In_fromTo in Hin. rewrite nameMarker_test in Ht.
  exists c. split; [exact Hin|]. split; [exact Ht|].
  split; [now rewrite En|].
  intros c' Hc'.
  assert (Hsplit : fromTo 1 (Z.min 10 (columnCount ws))
                   = fromTo 1 (c' - 1) ++ c' :: fromTo (c' + 1)
                                                  (Z.min 10 (columnCount ws)))
    by (apply fromTo_split; lia).
  rewrite Hsplit in Ef.
  destruct (startsWithMarker (cellStr (getCell ws r c'))) eqn:Em;
    [|reflexivity].
  exfalso.
  assert (G : forall l1 l2,
             find (fun c0 => test nameMarker (cellStr (getCell ws r c0)))
                  (l1 ++ c' :: l2) = Some c ->
             Forall (fun x => x < c') l1 -> c <= c').
  { induction l1 as [|y l1 IH]; simpl; intros l2 E F.
    - rewrite nameMarker_test, Em in E. injection E as <-. lia.
    - destruct (test nameMarker (cellStr (getCell ws r y))).
      + injection E as <-. apply Forall_inv in F. lia.
      + apply (IH l2 E). now apply Forall_inv_tail in F. }
  assert (c <= c').
  { apply (G _ _ Ef). apply Forall_forall. intros y Hy.
    apply In_fromTo in Hy. lia. }
  lia.
Qed.

Lemma rawBlocks_sorted ws maxCol rows :
  StronglySorted Z.lt rows ->
  StronglySorted (fun a b => startRow a < startRow b)
                 (flat_map (fun r => nameRow ws maxCol r []) rows).
Proof.
  induction 1 as [|r rows _ IH Hr]; simpl; [constructor|].
  assert (T : forall b, In b (flat_map (fun r0 => nameRow ws maxCol r0 []) rows)
                        -> r < startRow b).
  { intros b Hb. apply markers_in_rows in Hb.
    rewrite Forall_forall in Hr. auto. }
  pose proof (nameRow_start ws maxCol r) as St.
  unfold nameRow in *.
  destruct (find _ (fromTo 1 maxCol)) as [c|]; [|exact IH].
  destruct (nonEmpty _); [|exact IH].
  cbn [app]. constructor; [exact IH|].
  apply Forall_forall. intros b Hb.
  rewrite (St _ (or_introl eq_refl)). cbn [startRow]. auto.
Qed.

Lemma adjustEndRows_chained last raw :
  StronglySorted (fun a b => startRow a < startRow b) raw ->
  Forall (fun b => endRow b = last /\ startRow b < last) raw ->
  chained last (adjustEndRows raw).
Proof.
  unfold chained.
  induction 1 as [|b raw S IH Hb]; intros F; [exact I|].
  pose proof (Forall_inv F) as (Eb & Lb). apply Forall_inv_tail in F.
  rewrite adjustEndRows_cons.
  destruct raw as [|next raw'].
  - simpl. rewrite Eb. auto.
  - specialize (IH F). apply Forall_inv in Hb.
    rewrite adjustEndRows_cons in *.
    cbn [chainWith setEndRow startRow endRow]. auto.
Qed.

Lemma adjustEndRows_opened ws raw :
  Forall (openedByMarker ws) raw -> Forall (openedByMarker ws) (adjustEndRows raw).
Proof.
  induction 1 as [|b raw Hb _ IH]; [constructor|].
  rewrite adjustEndRows_cons. constructor; [exact Hb | exact IH].
Qed.

(** X15: the blocks of the marker strategy tile the sheet from the first
    marker row on: every block has a row, ends where the next one starts,
    and the last one ends after the last row.  Every block starts at a row
    of the sheet and is named by the first marker cell of that row among the
    first ten columns, with a name that is not empty and has no white space
    around it. *)
Theorem findNameBlocks_tile_the_sheet ws :
  chained (rowCount ws + 1) (findNameBlocks ws)
  /\ Forall (openedByMarker ws) (findNameBlocks ws).
Proof.
  unfold findNameBlocks. cbv zeta. rewrite fold_nameRow. cbn [app].
  assert (F : Forall (fun b => openedByMarker ws b
                               /\ endRow b = rowCount ws + 1
                               /\ startRow b < rowCount ws + 1)
                     (flat_map (fun r => nameRow ws (Z.min 10 (columnCount ws))
                                                 r [])
                               (fromTo 1 (rowCount ws)))).
  { apply Forall_forall. intros b Hb. apply in_flat_map in Hb as (r & Hr & Hb).
    apply In_fromTo in Hr.
    destruct (nameRow_opened ws r b Hr Hb) as (O & S & E).
    split; [exact O|]. split; [exact E | lia]. }
  split.
  - apply adjustEndRows_chained; [apply rawBlocks_sorted, fromTo_sorted|].
    eapply Forall_impl; [|exact F]. cbv beta. tauto.
  - apply adjustEndRows_opened.
    eapply Forall_impl; [|exact F]. cbv beta. tauto.
Qed.


(* ------------------------------------------------------------------ *)
(** ** The blocks of the section titles *)

Lemma setLastEnd_starts blocks e :
  map startRow (setLastEnd blocks e) = map startRow blocks.
Proof.
  induction blocks as [|b [|next rest] IH]; [reflexivity | reflexivity|].
  change (setLastEnd (b :: next :: rest) e)
    with (b :: setLastEnd (next :: rest) e).
  rewrite (map_cons startRow b (setLastEnd (next :: rest) e)), IH.
  reflexivity.
Qed.

Lemma setLastEnd_Forall (R : RawBlock -> Prop) blocks e :
  (forall b, R b -> R (setEndRow b e)) ->
  Forall R blocks -> Forall R (setLastEnd blocks e).
Proof.
  intros HR. induction blocks as [|b [|next rest] IH]; intros F.
  - constructor.
  - constructor; [apply HR; now apply Forall_inv in F | constructor].
  - change (setLastEnd (b :: next :: rest) e)
      with (b :: setLastEnd (next :: rest) e).
    constructor; [now apply Forall_inv in F|].
    apply IH. now apply Forall_inv_tail in F.
Qed.

Lemma chainWith_setLastEnd (P Q : RawBlock -> Prop) blocks e :
  chainWith P blocks ->
  Forall (fun b => startRow b < e) blocks ->
  (forall b, In b blocks -> Q (setEndRow b e)) ->
  chainWith Q (setLastEnd blocks e).
Proof.
  induction blocks as [|b [|next rest] IH]; intros C F HQ.
  - exact I.
  - cbn [setLastEnd chainWith setEndRow startRow endRow].
    apply Forall_inv in F. split; [exact F|]. split; [|exact I].
    apply (HQ b). now left.
  - change (setLastEnd (b :: next :: rest) e)
      with (b :: setLastEnd (next :: rest) e).
    destruct C as (C1 & C2 & C3).
    assert (IH' : chainWith Q (setLastEnd (next :: rest) e)).
    { apply IH; [exact C3 | now apply Forall_inv_tail in F|].
      intros b0 Hb0. apply HQ. now right. }
    pose proof (setLastEnd_starts (next :: rest) e) as St.
    destruct (setLastEnd (next :: rest) e) as [|n' r'] eqn:E;
      [discriminate St|].
    cbn [chainWith]. split; [exact C1|]. split; [|exact IH'].
    simpl in St. injection St as St _. now rewrite St.
Qed.

Lemma chainWith_snoc (P : RawBlock -> Prop) blocks b r :
  chainWith (fun x => endRow x = r) blocks ->
  startRow b = r -> startRow b < endRow b -> P b ->
  chainWith P (blocks ++ [b]).
Proof.
  intros C Sb Lb Pb. induction blocks as [|x [|next rest] IH].
  - simpl. auto.
  - destruct C as (C1 & C2 & _). simpl. repeat split; auto; lia.
  - destruct C as (C1 & C2 & C3). specialize (IH C3).
    change ((x :: next :: rest) ++ [b]) with (x :: (next :: rest) ++ [b]).
    change ((next :: rest) ++ [b]) with (next :: rest ++ [b]) in *.
    cbn [chainWith] in *. auto.
Qed.

Lemma sectionRow_loop ws r st :
  1 <= r <= rowCount ws ->
  sectionLoop ws r st ->
  sectionLoop ws (r + 1)
              (sectionRow ws (findLabelColumn ws 1 (rowCount ws)) r st).
Proof.
  intros Hr. destruct st as [[blocks gap] lastNE].
  unfold sectionLoop, sectionRow. intros (C & F & L & G).
  fold (hasContentRow ws r). cbv zeta.
  destruct (hasContentRow ws r) eqn:Hc; cbn [negb].
  - (* a row with content *)
    set (blocks1 := if (gap >? 0) && (r - gap >=? 3) && (lastNE >? 0)
                    then setLastEnd blocks gap else blocks).
    assert (C1 : chainWith (endsAtGapOrSheetEnd ws) blocks1
                 /\ Forall (fun b => openedBySection ws b
                                     /\ startRow b <= lastNE) blocks1).
    { unfold blocks1.
      destruct ((gap >? 0) && (r - gap >=? 3) && (lastNE >? 0)) eqn:B;
        [|split; assumption].
      apply andb_true_iff in B as (B & B3).
      apply andb_true_iff in B as (B1 & B2).
      apply Z.gtb_lt in B1. apply Z.geb_le in B2.
      destruct G as [G|(G1 & G2)]; [lia|].
      split.
      - apply (chainWith_setLastEnd (endsAtGapOrSheetEnd ws)); [exact C| |].
        + eapply Forall_impl; [|exact F]. cbv beta. intros b (_ & Sb). lia.
        + intros b _. right. cbn [setEndRow endRow].
          split; [lia|]. intros r' Hr'. apply G2. lia.
      - apply setLastEnd_Forall; [|exact F].
        intros b (O & Sb). split; [exact O | exact Sb]. }
    destruct C1 as (C1 & F1).
    set (label := cellStr (getCell ws r (findLabelColumn ws 1 (rowCount ws)))).
    destruct (nonEmpty label && test sectionPattern label
              && negb (test knownFinancialLabel label)) eqn:T.
    + apply andb_true_iff in T as (T & T3).
      apply andb_true_iff in T as (T1 & T2).
      apply negb_true_iff in T3.
      split; [|split; [|split; [lia | now left]]].
      * apply (chainWith_snoc _ _ _ r).
        -- apply (chainWith_setLastEnd (endsAtGapOrSheetEnd ws));
             [exact C1| |reflexivity].
           eapply Forall_impl; [|exact F1]. cbv beta. intros b (_ & Sb). lia.
        -- reflexivity.
        -- cbn [startRow endRow]. lia.
        -- now left.
      * apply Forall_app. split.
        -- apply setLastEnd_Forall.
           ++ intros b (O & Sb). split; [exact O | exact Sb].
           ++ eapply Forall_impl; [|exact F1]. cbv beta.
              intros b (O & Sb). split; [exact O | lia].
        -- constructor; [|constructor]. split; [|cbn [startRow]; lia].
           unfold openedBySection. cbn [startRow sheetName rb_name]. cbv zeta.
           fold label. split; [exact Hr|]. split; [exact Hc|].
           split; [reflexivity|]. split; [reflexivity|].
           split; [destruct label; [discriminate T1 | discriminate]|].
           split; assumption.
    + split; [exact C1|]. split; [|split; [lia | now left]].
      eapply Forall_impl; [|exact F1]. cbv beta.
      intros b (O & Sb). split; [exact O | lia].
  - (* a row without content *)
    split; [exact C|]. split; [exact F|]. split; [lia|]. right.
    destruct (Z.ltb_spec gap 0) as [Neg|Pos].
    + split; [lia|]. intros r' Hr'. replace r' with r by lia. exact Hc.
    + destruct G as [G|(G1 & G2)]; [lia|].
      split; [lia|]. intros r' Hr'.
      destruct (Z.eq_dec r' r) as [->|Ne]; [exact Hc | apply G2; lia].
Qed.

Lemma sectionRows_loop ws k :
  forall a st,
    1 <= a -> a + Z.of_nat k = rowCount ws + 1 ->
    sectionLoop ws a st ->
    sectionLoop ws (rowCount ws + 1)
      (fold_left (fun st r =>
                    sectionRow ws (findLabelColumn ws 1 (rowCount ws)) r st)
                 (fromTo a (rowCount ws)) st).
Proof.
  induction k as [|k IH]; intros a st Ha Hk H.
  - rewrite fromTo_nil by lia. simpl. now replace (rowCount ws + 1) with a by lia.
  - rewrite fromTo_cons by lia. simpl.
    apply IH; [lia | lia|]. apply sectionRow_loop; [lia | exact H].
Qed.

(** X16: the blocks of the section strategy.  Every block starts at a row
    with content whose text in the label column is its name, matches the
    section pattern and holds no financial term; every block has a row and
    ends where the next one starts; the last one ends after the last row
    of the sheet or at the first of three rows without content. *)
Theorem findSectionBlocks_are_chained_sections ws :
  chainWith (endsAtGapOrSheetEnd ws) (findSectionBlocks ws)
  /\ Forall (openedBySection ws) (findSectionBlocks ws).
Proof.
  unfold findSectionBlocks. cbv zeta.
  destruct (Z.le_gt_cases 0 (rowCount ws)) as [Pos|Neg];
    [|rewrite fromTo_nil by lia; simpl; split; [exact I | constructor]].
  assert (H : sectionLoop ws (rowCount ws + 1)
                (fold_left (fun st r =>
                              sectionRow ws (findLabelColumn ws 1 (rowCount ws))
                                         r st)
                           (fromTo 1 (rowCount ws)) ([], -1, 0))).
  { apply (sectionRows_loop ws (Z.to_nat (rowCount ws))); [lia | lia|].
    simpl. split; [exact I|]. split; [constructor|]. split; [lia | now left]. }
  destruct (fold_left _ (fromTo 1 (rowCount ws)) ([], -1, 0))
    as [[blocks gap] lastNE].
  destruct H as (C & F & _). split; [exact C|].
  eapply Forall_impl; [|exact F]. cbv beta. tauto.
Qed.

(* ------------------------------------------------------------------ *)
(** ** The name of a whole-sheet block *)

Lemma dropWhile_until f pre x post :
  Forall (fun c => f c = true) pre -> f x = false ->
  dropWhile f (pre ++ x :: post) = x :: post.
Proof.
  intros F Hx. induction F as [|c pre Hc _ IH]; simpl.
  - now rewrite Hx.
  - now rewrite Hc.
Qed.

Lemma dropWhile_none f s :
  Forall (fun c => f c = true) s -> dropWhile f s = [].
Proof.
  induction 1 as [|c s Hc _ IH]; simpl; [reflexivity|]. now rewrite Hc.
Qed.

Lemma not_dot_Forall s :
  ~ In dot s -> Forall (fun c : cunit => negb (c =? dot)%N = true) (rev s).
Proof.
  intros H. apply Forall_forall. intros c Hc. apply in_rev in Hc.
  apply negb_true_iff, N.eqb_neq. intros ->. contradiction.
Qed.

Lemma stripExtension_ext base ext :
  ext <> [] -> ~ In dot ext -> stripExtension (base ++ dot :: ext) = base.
Proof.
  intros Hne Hd. unfold stripExtension. cbv zeta.
  rewrite rev_app_distr. cbn [rev]. rewrite <- app_assoc. cbn [app].
  rewrite (dropWhile_until (fun c : cunit => negb (c =? dot)%N)
             (rev ext) dot (rev base) (not_dot_Forall ext Hd))
    by (now rewrite N.eqb_refl).
  replace (List.length (dot :: rev base)
           =? List.length (rev ext ++ dot :: rev base))%nat with false.
  - apply rev_involutive.
  - symmetry. apply Nat.eqb_neq. rewrite length_app. cbn [List.length].
    rewrite !length_rev. destruct ext; [congruence|]. cbn [List.length]. lia.
Qed.

Lemma stripExtension_no_dot s : ~ In dot s -> stripExtension s = s.
Proof.
  intros Hd. unfold stripExtension. cbv zeta.
  now rewrite (dropWhile_none (fun c : cunit => negb (c =? dot)%N) (rev s)
                 (not_dot_Forall s Hd)).
Qed.

(** X17: a workbook of one sheet that is taken as a whole is named after
    the file: the file name without its last extension, with dashes and
    underscores as spaces, trimmed; a file name without a dot is taken as
    it is. *)
Theorem whole_sheet_block_is_named_after_the_file ws n :
  (forall base ext,
      ext <> [] -> ~ In dot ext ->
      rb_name (wholeSheetBlock [n] (Some (base ++ dot :: ext)) ws)
      = trim (replaceAll isDashOrUnderscore 32%N base))
  /\ (forall f,
         f <> [] -> ~ In dot f ->
         rb_name (wholeSheetBlock [n] (Some f) ws)
         = trim (replaceAll isDashOrUnderscore 32%N f)).
Proof.
  split.
  - intros base ext Hne Hd. unfold wholeSheetBlock, sheetModelName.
    cbn [rb_name List.length Z.of_nat]. change (Z.of_nat 1 >? 1) with false.
    cbv iota. rewrite stripExtension_ext by assumption.
    destruct (base ++ dot :: ext) eqn:E; [|reflexivity].
    destruct base; discriminate E.
  - intros f Hne Hd. unfold wholeSheetBlock, sheetModelName.
    cbn [rb_name List.length Z.of_nat]. change (Z.of_nat 1 >? 1) with false.
    cbv iota. rewrite stripExtension_no_dot by assumption.
    destruct f; [congruence | reflexivity].
Qed.

(** X17 on a file name with a dash, an underscore and two dots. *)
Lemma whole_sheet_block_is_named_after_the_file_witness :
  rb_name (wholeSheetBlock [u "Ark1"] (Some (u "Budget_2025-v1.2.xlsx"))
                           sheetThreeYears)
  = u "Budget 2025 v1.2".
Proof.
  refine (proj1 (whole_sheet_block_is_named_after_the_file
                   sheetThreeYears (u "Ark1"))
                (u "Budget_2025-v1.2") (u "xlsx") _ _).
  - discriminate.
  - vm_compute. intuition discriminate.
Defined.

(* ------------------------------------------------------------------ *)
(** ** Where a model comes from *)

Lemma parseBlock_parsedFrom cy ws b m :
  model (parseBlock cy ws (startRow b) (endRow b) (rb_name b)) = Some m ->
  parsedFrom ws b m.
Proof.
  intros Hm. destruct (parseBlock_model _ _ _ _ _ _ Hm) as (yi & _ & E).
  cbv zeta in E. rewrite E in Hm. clear E.
  rewrite parseBlockWithYears_unfold in Hm. cbv zeta in Hm.
  destruct (existsb hasKeyField _); [|discriminate Hm]. cbn [negb] in Hm.
  destruct (filter hasAnyField _); [discriminate Hm|].
  cbn [model] in Hm. injection Hm as <-.
  unfold parsedFrom. cbn [name source]. split; [reflexivity|].
  replace (Z.min (Z.min (endRow b) (rowCount ws + 1)) (rowCount ws))
    with (Z.min (endRow b) (rowCount ws)) by lia.
  reflexivity.
Qed.

(** X18: every Model Block of a returned Parse Result bears the name of a
    block of one of the sheets that are not empty, and its source is the
    name of that sheet, a colon, the first row of the block, a dash and the
    end row of the block cut at the last row of the sheet. *)
Theorem every_model_names_its_block cy wss fn r :
  parseExcelBuffer cy wss fn = Ok r ->
  Forall (fun m =>
            exists ws b,
              In ws wss
              /\ isEmptySheet ws = false
              /\ In b (sheetBlocks (map ws_name wss) fn ws)
              /\ parsedFrom ws b m)
         (models r).
Proof.
  intros H. rewrite (result_models _ _ _ _ H).
  rewrite (proj1 (runSheets_spec cy wss fn)).
  apply Forall_forall. intros m Hm.
  apply in_flat_map in Hm as (ws & Hws & Hm).
  unfold sheetModels in Hm.
  destruct (isEmptySheet ws) eqn:Ee; [contradiction|].
  unfold blockModels in Hm. apply in_flat_map in Hm as (b & Hb & Hm).
  destruct (model (parseBlock cy ws (startRow b) (endRow b) (rb_name b)))
    as [m'|] eqn:E; [|contradiction].
  destruct Hm as [<-|[]].
  exists ws, b. split; [exact Hws|]. split; [exact Ee|].
  split; [exact Hb|]. exact (parseBlock_parsedFrom cy ws b m' E).
Qed.

(** X18 on the sheet with two markers. *)
Lemma every_model_names_its_block_witness :
  exists r,
    parseExcelBuffer 2026 [sheetTwoMarkers] None = Ok r
    /\ map name (models r) = [u "Base case"; u "Upside"]
    /\ map source (models r) = [Some (u "Ark1:1-3"); Some (u "Ark1:3-4")]
    /\ Forall (fun m =>
                 exists ws b,
                   In ws [sheetTwoMarkers]
                   /\ isEmptySheet ws = false
                   /\ In b (sheetBlocks (map ws_name [sheetTwoMarkers]) None ws)
                   /\ parsedFrom ws b m)
              (models r).
Proof.
  destruct (parseExcelBuffer 2026 [sheetTwoMarkers] None) as [r|msg] eqn:E;
    [|vm_compute in E; discriminate].
  exists r. split; [reflexivity|].
  split; [vm_compute in E; injection E as <-; reflexivity|].
  split; [vm_compute in E; injection E as <-; reflexivity|].
  exact (every_model_names_its_block 2026 [sheetTwoMarkers] None r E).
Defined.


(* ------------------------------------------------------------------ *)
(** ** The rows of a block, one at a time

    The block parser folds [scanRow] over the rows of a block.  Read row by
    row, the fold gives every Period the numbers of its own column: a row
    feeds the field that its label maps to in the context left by the rows
    above it, and a later row that feeds the same field overwrites. *)

Lemma fromTo_snoc a b : a <= b -> fromTo a b = fromTo a (b - 1) ++ [b].
Proof.
  intros H. rewrite (fromTo_split a b b) by lia.
  now rewrite (fromTo_nil (b + 1) b) by lia.
Qed.

Lemma scanned_next cy ws s e lc yi :
  s <= e ->
  scanned cy ws s (e + 1) lc yi
  = scanRow ws lc yi (scanned cy ws s e lc yi) e.
Proof.
  intros H. unfold scanned, scanRows.
  replace (e + 1 - 1) with e by lia.
  rewrite (fromTo_snoc s e H), fold_left_app. reflexivity.
Qed.

Lemma scanned_empty cy ws s e lc yi :
  e <= s ->
  scanned cy ws s e lc yi
  = mkScan (map (fun yc => createEmptyPeriod cy (yc_year yc)) (yearCols yi))
           [] (mkCtx None None).
Proof.
  intros H. unfold scanned, scanRows. rewrite fromTo_nil by lia. reflexivity.
Qed.

(** What one row does to the periods, in terms of the field it feeds. *)
Lemma scanRow_periods cy ws s e lc yi :
  s <= e ->
  sc_periods (scanned cy ws s (e + 1) lc yi)
  = match fieldOfRow cy ws s lc yi e with
    | Some f => populate ws e f (sc_periods (scanned cy ws s e lc yi))
                         (yearCols yi)
    | None => sc_periods (scanned cy ws s e lc yi)
    end.
Proof.
  intros H. rewrite scanned_next by exact H.
  unfold fieldOfRow, contextAt, scanRow.
  destruct (e =? headerRow yi); [reflexivity|].
  destruct (rowLabel ws lc e) as [|c l]; [reflexivity|].
  destruct (isSkippedLabel (c :: l)); [reflexivity|].
  destruct (mapLabelToField (c :: l) (Some (sc_ctx (scanned cy ws s e lc yi))))
    as [[f|] ctx']; simpl; [reflexivity|].
  now destruct (rowHasData ws e (yearCols yi) && (Js.length (c :: l) >? 1)).
Qed.

Lemma readFrom_next cy ws lc yi s e c k v :
  s <= e ->
  readFrom cy ws lc yi s (e + 1) c k v
  <-> feeds cy ws s lc yi e c k v
      \/ (readFrom cy ws lc yi s e c k v
          /\ forall v', ~ feeds cy ws s lc yi e c k v').
Proof.
  intros H. split.
  - intros (r & Hr & Hf & Hl).
    destruct (Z.eq_dec r e) as [->|Hne]; [now left|].
    right. split.
    + exists r. split; [lia|]. split; [exact Hf|].
      intros r' v' Hr'. apply Hl. lia.
    + intros v'. apply Hl. lia.
  - intros [Hf|((r & Hr & Hf & Hl) & Hn)].
    + exists e. split; [lia|]. split; [exact Hf|]. intros r' v' Hr'. lia.
    + exists r. split; [lia|]. split; [exact Hf|].
      intros r' v' Hr'. destruct (Z.eq_dec r' e) as [->|Hne]; [apply Hn|].
      apply Hl. lia.
Qed.

Lemma populate_Forall2 (P Q : PeriodYear -> YearColumn -> Prop) ws r f ps ycs :
  (forall p yc, P p yc ->
     Q (match cellNum (getCell ws r (col yc)) with
        | Some val => setField p f val
        | None => p
        end) yc) ->
  Forall2 P ps ycs -> Forall2 Q (populate ws r f ps ycs) ycs.
Proof.
  intros HPQ H. induction H as [|p yc ps ycs Hp _ IH]; simpl.
  - constructor.
  - constructor; [now apply HPQ | exact IH].
Qed.

Lemma Forall2_weaken {A B} (P Q : A -> B -> Prop) l1 l2 :
  (forall a b, P a b -> Q a b) -> Forall2 P l1 l2 -> Forall2 Q l1 l2.
Proof. intros H. induction 1; constructor; auto. Qed.

(** The periods after the rows [s] to [e - 1], column by column. *)
Lemma scanned_periodFrom cy ws s lc yi (n : nat) :
  Forall2 (periodFrom cy ws lc yi s (s + Z.of_nat n))
          (sc_periods (scanned cy ws s (s + Z.of_nat n) lc yi))
          (yearCols yi).
Proof.
  induction n as [|n IH].
  - rewrite scanned_empty by lia. simpl.
    induction (yearCols yi) as [|yc ycs IHy]; simpl; constructor; auto.
    split; [reflexivity|]. intros k v. split.
    + intros Hk. destruct k; discriminate.
    + intros (r & Hr & _). lia.
  - replace (s + Z.of_nat (S n)) with (s + Z.of_nat n + 1) by lia.
    set (e := s + Z.of_nat n) in *.
    assert (He : s <= e) by lia.
    rewrite (scanRow_periods cy ws s e lc yi He).
    destruct (fieldOfRow cy ws s lc yi e) as [f|] eqn:Ef.
    + apply (populate_Forall2 (periodFrom cy ws lc yi s e)); [|exact IH].
      intros p yc (Hy & Hp).
      destruct (cellNum (getCell ws e (col yc))) as [val|] eqn:Ev.
      * split; [now rewrite year_setField|]. intros k v.
        rewrite (readFrom_next cy ws lc yi s e (col yc) k v He).
        unfold feeds. rewrite Ef, Ev.
        destruct (FieldKey_eq_dec k f) as [->|Hne].
        -- rewrite getField_setField_same. split.
           ++ intros [= <-]. left. split; reflexivity.
           ++ intros [[_ [= <-]]|[_ Hn]]; [reflexivity|].
              exfalso. apply (Hn val). split; reflexivity.
        -- rewrite getField_setField_other by exact Hne. rewrite Hp. split.
           ++ intros H. right. split; [exact H|].
              intros v' [[= E] _]. congruence.
           ++ intros [[[= E] _]|[H _]]; [congruence | exact H].
      * split; [exact Hy|]. intros k v.
        rewrite (readFrom_next cy ws lc yi s e (col yc) k v He).
        unfold feeds. rewrite Ef, Ev. rewrite Hp. split.
        -- intros H. right. split; [exact H|]. intros v' [_ [=]].
        -- intros [[_ [=]]|[H _]]. exact H.
    + apply (Forall2_weaken (periodFrom cy ws lc yi s e)); [|exact IH].
      intros p yc (Hy & Hp). split; [exact Hy|]. intros k v.
      rewrite (readFrom_next cy ws lc yi s e (col yc) k v He).
      unfold feeds. rewrite Ef. rewrite Hp. split.
      * intros H. right. split; [exact H|]. intros v' [[=] _].
      * intros [[[=] _]|[H _]]. exact H.
Qed.

Lemma scanned_from cy ws s e lc yi :
  Forall2 (periodFrom cy ws lc yi s e)
          (sc_periods (scanned cy ws s e lc yi)) (yearCols yi).
Proof.
  destruct (Z_le_gt_dec s e) as [H|H].
  - replace e with (s + Z.of_nat (Z.to_nat (e - s))) by lia.
    apply scanned_periodFrom.
  - rewrite scanned_empty by lia. simpl.
    induction (yearCols yi) as [|yc ycs IHy]; simpl; constructor; auto.
    split; [reflexivity|]. intros k v. split.
    + intros Hk. destruct k; discriminate.
    + intros (r & Hr & _). lia.
Qed.

Lemma In_allFields k : In k allFields.
Proof. destruct k; unfold allFields; simpl; tauto. Qed.

Lemma hasAnyField_spec p :
  hasAnyField p = true <-> exists k v, getField p k = Some v.
Proof.
  unfold hasAnyField. rewrite existsb_exists. split.
  - intros (k & _ & H). destruct (getField p k) as [v|] eqn:E; [|discriminate].
    now exists k, v.
  - intros (k & v & H). exists k. split; [apply In_allFields|].
    now rewrite H.
Qed.

Lemma hasAnyField_setField p f v : hasAnyField (setField p f v) = true.
Proof.
  apply hasAnyField_spec. exists f, v. apply getField_setField_same.
Qed.

Lemma hasAnyField_empty cy y : hasAnyField (createEmptyPeriod cy y) = false.
Proof. reflexivity. Qed.

Lemma columnHasData_next cy ws lc yi s e c :
  s <= e ->
  columnHasData cy ws lc yi s (e + 1) c
  = columnHasData cy ws lc yi s e c
    || (isSet (fieldOfRow cy ws s lc yi e) && isSet (cellNum (getCell ws e c))).
Proof.
  intros H. unfold columnHasData. replace (e + 1 - 1) with e by lia.
  rewrite (fromTo_snoc s e H), existsb_app. simpl. now rewrite orb_false_r.
Qed.

Lemma scanned_hasData_n cy ws s lc yi (n : nat) :
  Forall2 (fun p yc => hasAnyField p
                       = columnHasData cy ws lc yi s (s + Z.of_nat n) (col yc))
          (sc_periods (scanned cy ws s (s + Z.of_nat n) lc yi))
          (yearCols yi).
Proof.
  induction n as [|n IH].
  - rewrite scanned_empty by lia. simpl.
    induction (yearCols yi) as [|yc ycs IHy]; simpl; constructor; auto.
    unfold columnHasData. rewrite fromTo_nil by lia. reflexivity.
  - replace (s + Z.of_nat (S n)) with (s + Z.of_nat n + 1) by lia.
    set (e := s + Z.of_nat n) in *.
    assert (He : s <= e) by lia.
    rewrite (scanRow_periods cy ws s e lc yi He).
    destruct (fieldOfRow cy ws s lc yi e) as [f|] eqn:Ef.
    + apply (populate_Forall2
               (fun p yc => hasAnyField p
                            = columnHasData cy ws lc yi s e (col yc)));
        [|exact IH].
      intros p yc Hp. rewrite (columnHasData_next cy ws lc yi s e _ He), Ef.
      destruct (cellNum (getCell ws e (col yc))) as [val|]; simpl.
      * rewrite hasAnyField_setField. now rewrite orb_true_r.
      * now rewrite orb_false_r.
    + apply (Forall2_weaken
               (fun p yc => hasAnyField p
                            = columnHasData cy ws lc yi s e (col yc)));
        [|exact IH].
      intros p yc Hp. rewrite (columnHasData_next cy ws lc yi s e _ He), Ef.
      simpl. now rewrite orb_false_r.
Qed.

Lemma scanned_hasData cy ws s e lc yi :
  Forall2 (fun p yc => hasAnyField p
                       = columnHasData cy ws lc yi s e (col yc))
          (sc_periods (scanned cy ws s e lc yi)) (yearCols yi).
Proof.
  destruct (Z_le_gt_dec s e) as [H|H].
  - replace e with (s + Z.of_nat (Z.to_nat (e - s))) by lia.
    apply scanned_hasData_n.
  - rewrite scanned_empty by lia. simpl.
    induction (yearCols yi) as [|yc ycs IHy]; simpl; constructor; auto.
    unfold columnHasData. rewrite fromTo_nil by lia. reflexivity.
Qed.

Lemma Forall2_and {A B} (P Q : A -> B -> Prop) l1 l2 :
  Forall2 P l1 l2 -> Forall2 Q l1 l2 -> Forall2 (fun a b => P a b /\ Q a b) l1 l2.
Proof.
  induction 1 as [|a b l1 l2 Hp _ IH]; intros HQ; inversion HQ; subst;
    constructor; auto.
Qed.

Lemma Forall2_map_eq {A B C} (f : A -> C) (g : B -> C) l1 l2 :
  map f l1 = map g l2 -> Forall2 (fun a b => f a = g b) l1 l2.
Proof.
  revert l2. induction l1 as [|a l1 IH]; intros [|b l2] H; simpl in H;
    try discriminate; constructor.
  - now injection H.
  - apply IH. now injection H.
Qed.

(** Filtering two aligned lists by tests that agree keeps them aligned. *)
Lemma Forall2_filter {A B} (R : A -> B -> Prop) (f : A -> bool) (g : B -> bool)
      l1 l2 :
  Forall2 (fun a b => f a = g b /\ R a b) l1 l2 ->
  Forall2 R (filter f l1) (filter g l2).
Proof.
  induction 1 as [|a b l1 l2 (E & Hr) _ IH]; simpl; [constructor|].
  rewrite E. destruct (g b); [constructor|]; auto.
Qed.

(** The Periods of an emitted block: those of the year columns of the
    detected header that some row feeds, column by column. *)
Lemma parseBlock_periods cy ws s e n m :
  model (parseBlock cy ws s e n) = Some m ->
  let e' := Z.min e (rowCount ws + 1) in
  let lc := findLabelColumn ws s e' in
  exists yi,
    detectedHeader ws s e' yi
    /\ Forall2 (fun p yc => stamp p = stampOfYear (yc_year yc)
                            /\ periodFrom cy ws lc yi s e' p yc)
               (periods m)
               (filter (fun yc => columnHasData cy ws lc yi s e' (col yc))
                       (yearCols yi)).
Proof.
  intros Hm. cbv zeta.
  destruct (parseBlock_model _ _ _ _ _ _ Hm) as (yi & Hd & E).
  cbv zeta in Hd, E. rewrite E in Hm.
  apply parseBlockWithYears_model in Hm. cbv zeta in Hm.
  destruct Hm as (_ & _ & Hp & _).
  exists yi. split; [exact Hd|]. rewrite Hp.
  apply Forall2_filter.
  apply Forall2_and; [apply scanned_hasData|].
  apply Forall2_and; [|apply scanned_from].
  apply (Forall2_map_eq stamp (fun yc => stampOfYear (yc_year yc))).
  apply scanned_stamp.
Qed.


(* ------------------------------------------------------------------ *)
(** ** The year columns of a row *)

Lemma cmpFin_scaled m1 e1 m2 e2 E :
  E <= Z.min e1 e2 ->
  cmpFin m1 e1 m2 e2 = Z.compare (m1 * 10 ^ (e1 - E)) (m2 * 10 ^ (e2 - E)).
Proof.
  intros H. unfold cmpFin. cbv zeta.
  set (e := Z.min e1 e2) in *.
  replace (e1 - E) with ((e1 - e) + (e - E)) by lia.
  replace (e2 - E) with ((e2 - e) + (e - E)) by lia.
  rewrite !Z.pow_add_r by lia.
  rewrite !Z.mul_assoc.
  assert (P : 0 < 10 ^ (e - E)) by (apply Z.pow_pos_nonneg; lia).
  set (a := m1 * 10 ^ (e1 - e)). set (b := m2 * 10 ^ (e2 - e)).
  set (k := 10 ^ (e - E)) in *.
  destruct (Z.compare_spec a b) as [Eab|Lab|Gab]; symmetry.
  - apply Z.compare_eq_iff. now rewrite Eab.
  - apply Z.compare_lt_iff. nia.
  - apply Z.compare_gt_iff. nia.
Qed.

Lemma eqb_trans x y z :
  Js.eqb x y = true -> Js.eqb y z = true -> Js.eqb x z = true.
Proof.
  destruct x as [|a|m1 e1], y as [|b|m2 e2], z as [|c|m3 e3]; simpl;
    try discriminate.
  - destruct a, b, c; simpl; auto.
  - set (E := Z.min e1 (Z.min e2 e3)).
    rewrite (cmpFin_scaled m1 e1 m2 e2 E) by lia.
    rewrite (cmpFin_scaled m2 e2 m3 e3 E) by lia.
    rewrite (cmpFin_scaled m1 e1 m3 e3 E) by lia.
    destruct (Z.compare_spec (m1 * 10 ^ (e1 - E)) (m2 * 10 ^ (e2 - E)))
      as [E12| |]; try discriminate.
    destruct (Z.compare_spec (m2 * 10 ^ (e2 - E)) (m3 * 10 ^ (e3 - E)))
      as [E23| |]; try discriminate.
    intros _ _. rewrite E12, E23. now rewrite Z.compare_refl.
Qed.

Lemma holdsYearBefore_next ws r c y :
  1 <= c ->
  holdsYearBefore ws r (c + 1) y
  = holdsYearBefore ws r c y
    || match yearOfCell (getCell ws r c) with
       | Some y' => Js.eqb y y'
       | None => false
       end.
Proof.
  intros H. unfold holdsYearBefore. replace (c + 1 - 1) with c by lia.
  rewrite (fromTo_snoc 1 c H), existsb_app. simpl. now rewrite orb_false_r.
Qed.

Lemma uniqueYears_columns ws r (n : nat) c seen M :
  1 <= c -> M = c + Z.of_nat n - 1 ->
  (forall y, existsb (Js.eqb y) seen = holdsYearBefore ws r c y) ->
  uniqueYears seen
    (flat_map (fun c => match yearOfCell (getCell ws r c) with
                        | Some yearNum => [mkYearCol c yearNum]
                        | None => []
                        end)
              (fromTo c M))
  = flat_map (fun c => match yearOfCell (getCell ws r c) with
                       | Some y => if holdsYearBefore ws r c y then []
                                   else [mkYearCol c y]
                       | None => []
                       end)
             (fromTo c M).
Proof.
  revert c seen. induction n as [|n IH]; intros c seen Hc HM Inv.
  - rewrite fromTo_nil by lia. reflexivity.
  - rewrite (fromTo_cons c M) by lia. simpl flat_map.
    destruct (yearOfCell (getCell ws r c)) as [y|] eqn:Ey.
    + simpl app. simpl uniqueYears. rewrite (Inv y).
      destruct (holdsYearBefore ws r c y) eqn:Eh.
      * simpl app. apply IH; [lia | lia |].
        intros y2. rewrite (holdsYearBefore_next ws r c y2 Hc), Ey, <- (Inv y2).
        destruct (Js.eqb y2 y) eqn:E2; [|now rewrite orb_false_r].
        rewrite orb_true_r. rewrite <- (Inv y) in Eh.
        apply existsb_exists in Eh as (sy & Hin & Es).
        apply existsb_exists. exists sy. split; [exact Hin|].
        now apply (eqb_trans y2 y sy).
      * simpl app. f_equal. apply IH; [lia | lia |].
        intros y2. rewrite (holdsYearBefore_next ws r c y2 Hc), Ey, <- (Inv y2).
        simpl. apply orb_comm.
    + simpl app. apply IH; [lia | lia |].
      intros y2. rewrite (holdsYearBefore_next ws r c y2 Hc), Ey, <- (Inv y2).
      now rewrite orb_false_r.
Qed.

Lemma rowYears_first ws r : rowYears ws r = firstYearColumns ws r.
Proof.
  unfold rowYears, firstYearColumns.
  rewrite sortByCol_sorted by apply rowCandidates_sorted.
  unfold rowCandidates.
  set (M := Z.min 30 (columnCount ws)).
  destruct (Z_le_gt_dec 1 M) as [H|H].
  - apply (uniqueYears_columns ws r (Z.to_nat M) 1 [] M); [lia | lia |].
    intros y. unfold holdsYearBefore. rewrite fromTo_nil by lia. reflexivity.
  - rewrite fromTo_nil by lia. reflexivity.
Qed.

Lemma holdsYearBefore_false ws r c y :
  holdsYearBefore ws r c y = false
  <-> forall c' y', 1 <= c' < c -> yearOfCell (getCell ws r c') = Some y' ->
                    Js.eqb y y' = false.
Proof.
  unfold holdsYearBefore. split.
  - intros H c' y' Hc Hy.
    destruct (Js.eqb y y') eqn:E; [|reflexivity].
    assert (X : existsb (fun c' => match yearOfCell (getCell ws r c') with
                                   | Some y' => Js.eqb y y'
                                   | None => false
                                   end) (fromTo 1 (c - 1)) = true).
    { apply existsb_exists. exists c'. split; [apply In_fromTo; lia|].
      now rewrite Hy. }
    congruence.
  - intros H.
    destruct (existsb _ (fromTo 1 (c - 1))) eqn:E; [|reflexivity].
    apply existsb_exists in E as (c' & Hin & Hc').
    apply In_fromTo in Hin.
    destruct (yearOfCell (getCell ws r c')) as [y'|] eqn:Ey; [|discriminate].
    rewrite (H c' y') in Hc'; [discriminate | lia | exact Ey].
Qed.

(** The year columns of a row are exactly the cells that are the first of
    their year. *)
Lemma firstYearColumns_spec ws r c y :
  In (mkYearCol c y) (firstYearColumns ws r) <-> isFirstOfItsYear ws r c y.
Proof.
  unfold firstYearColumns, isFirstOfItsYear. rewrite in_flat_map. split.
  - intros (c0 & Hin & H). apply In_fromTo in Hin.
    destruct (yearOfCell (getCell ws r c0)) as [y0|] eqn:Ey; [|contradiction].
    destruct (holdsYearBefore ws r c0 y0) eqn:Eh; [contradiction|].
    destruct H as [H|[]]. injection H as <- <-.
    split; [exact Hin|]. split; [exact Ey|].
    now apply holdsYearBefore_false.
  - intros (Hc & Ey & Hf). exists c. split; [now apply In_fromTo|].
    rewrite Ey. rewrite (proj2 (holdsYearBefore_false ws r c y) Hf).
    now left.
Qed.


(* ------------------------------------------------------------------ *)
(** ** Margin rows, Periods and year headers of a block *)

Lemma anchored_dead_from R c t :
  isAnchored R = true ->
  matchesFrom (Some c) (Cat anything (Cat R anything)) t = false.
Proof.
  destruct R as [| | | a b | | | | |]; try discriminate.
  destruct a; try discriminate. intros _. apply anchored_dead.
Qed.

(** An anchored pattern that no text beginning with [c] can start does not
    match such a text. *)
Lemma test_dead_head R c s :
  isAnchored R = true ->
  isEmptyRe (deriv None c (Cat R anything)) = true ->
  test R (c :: s) = false.
Proof.
  intros A E. unfold test.
  change (matchesFrom None (Cat anything (Cat R anything)) (c :: s))
    with (matchesFrom (Some c)
            (alt (Cat anything (Cat R anything))
                 (deriv None c (Cat R anything))) s).
  rewrite matchesFrom_alt, (anchored_dead_from R c s A).
  destruct (deriv None c (Cat R anything)); try discriminate.
  apply matchesFrom_Empty.
Qed.

Lemma white_heads c : isWhite c = true -> In c marginLabelHeads.
Proof.
  unfold isWhite, marginLabelHeads. intros H.
  repeat (apply orb_true_iff in H as [H|H]);
    try (apply N.eqb_eq in H; subst c; simpl; tauto);
    apply andb_true_iff in H as (A & B); apply N.leb_le in A, B.
  - assert (X : (c = 9 \/ c = 10 \/ c = 11 \/ c = 12 \/ c = 13)%N) by lia.
    simpl. intuition.
  - assert (X : (c = 8192 \/ c = 8193 \/ c = 8194 \/ c = 8195 \/ c = 8196
                 \/ c = 8197 \/ c = 8198 \/ c = 8199 \/ c = 8200 \/ c = 8201
                 \/ c = 8202)%N) by lia.
    simpl. intuition.
Qed.

Lemma dropWhile_snoc f l c :
  dropWhile f (l ++ [c]) = [] \/ exists d, dropWhile f (l ++ [c]) = d ++ [c].
Proof.
  induction l as [|a l IH]; simpl.
  - destruct (f c); [now left | right; now exists []].
  - destruct (f a); [exact IH | right; now exists (a :: l)].
Qed.

Lemma trimStart_snoc l c :
  isWhite c = false -> exists d, trimStart (l ++ [c]) = d ++ [c].
Proof.
  intros H. induction l as [|a l IH]; simpl.
  - rewrite H. now exists [].
  - destruct (isWhite a); [exact IH | now exists (a :: l)].
Qed.

(** A label whose lower-case text begins with a code unit that is neither
    white space nor a quote normalizes to the empty text or to a text that
    begins with that code unit. *)
Lemma normalizeLabel_head raw c rest :
  toLowerCase raw = c :: rest ->
  isWhite c = false -> isQuote c = false ->
  normalizeLabel raw = [] \/ exists t, normalizeLabel raw = c :: t.
Proof.
  intros E W Q. unfold normalizeLabel. rewrite E.
  unfold collapseSpaces. simpl collapseFrom. rewrite W.
  unfold stripTrailing. simpl rev.
  destruct (dropWhile_snoc isTrailingPunct (rev (collapseFrom false rest)) c)
    as [->|(d & ->)]; [now left|].
  rewrite rev_app_distr. simpl rev. simpl app.
  unfold removeAll. simpl filter. rewrite Q. simpl negb. cbv iota.
  set (z := filter (fun c0 => negb (isQuote c0)) (rev d)).
  unfold trim. simpl trimStart. rewrite W.
  unfold trimEnd. simpl rev.
  destruct (trimStart_snoc (rev z) c W) as (d' & ->).
  rewrite rev_app_distr. simpl. right. eauto.
Qed.

Lemma margin_label_head raw :
  normalizeLabel raw = u "% margin" ->
  exists c rest, toLowerCase raw = c :: rest /\ In c marginLabelHeads.
Proof.
  intros H. destruct (toLowerCase raw) as [|c rest] eqn:E.
  - unfold normalizeLabel in H. rewrite E in H. vm_compute in H. discriminate.
  - exists c, rest. split; [reflexivity|].
    destruct (isWhite c) eqn:W; [now apply white_heads|].
    destruct (isQuote c) eqn:Q.
    + unfold isQuote in Q. apply orb_true_iff in Q as [Q|Q];
        apply N.eqb_eq in Q; subst c; simpl; tauto.
    + destruct (normalizeLabel_head raw c rest E W Q) as [N|(t & N)];
        rewrite N in H; [vm_compute in H; discriminate|].
      change (u "% margin") with (37 :: u " margin")%N in H.
      injection H as -> _. now left.
Qed.

Lemma skipPattern_heads :
  isAnchored skipPattern = true
  /\ forallb (fun c => isEmptyRe (deriv None c (Cat skipPattern anything)))
             marginLabelHeads = true.
Proof. vm_compute. split; reflexivity. Qed.

(** A label that normalizes to [% margin] is none of the skipped labels. *)
Lemma margin_label_not_skipped raw :
  normalizeLabel raw = u "% margin" -> isSkippedLabel raw = false.
Proof.
  intros H. destruct (margin_label_head raw H) as (c & rest & E & Hin).
  destruct skipPattern_heads as (A & F).
  rewrite forallb_forall in F. specialize (F c Hin).
  unfold isSkippedLabel. cbv zeta. rewrite E.
  fold skipPattern. rewrite (test_dead_head skipPattern c rest A F).
  rewrite orb_false_r.
  assert (S : forall x, hd 0%N x <> c -> str_eqb (c :: rest) x = false).
  { intros x Hx. destruct (str_eqb (c :: rest) x) eqn:Eq; [|reflexivity].
    apply str_eqb_eq in Eq. subst x. now elim Hx. }
  assert (N : forall k, (k <> c)%N -> (k =? c)%N = false)
    by (intros k Hk; now apply N.eqb_neq).
  unfold marginLabelHeads in Hin.
  repeat (destruct Hin as [<-|Hin];
          [rewrite !S by (vm_compute; discriminate); reflexivity|]).
  destruct Hin.
Qed.

Lemma contextAt_next cy ws s lc yi r :
  s <= r ->
  contextAt cy ws s lc yi (r + 1)
  = if r =? headerRow yi then contextAt cy ws s lc yi r
    else
      match rowLabel ws lc r with
      | [] => contextAt cy ws s lc yi r
      | rawLabel =>
        if isSkippedLabel rawLabel then contextAt cy ws s lc yi r
        else
          match snd (mapLabelToField rawLabel
                                     (Some (contextAt cy ws s lc yi r))) with
          | Some c => c
          | None => contextAt cy ws s lc yi r
          end
      end.
Proof.
  intros H. unfold contextAt. rewrite scanned_next by exact H.
  unfold scanRow.
  destruct (r =? headerRow yi); [reflexivity|].
  destruct (rowLabel ws lc r) as [|c l]; [reflexivity|].
  destruct (isSkippedLabel (c :: l)); [reflexivity|].
  destruct (mapLabelToField (c :: l) (Some (sc_ctx (scanned cy ws s r lc yi))))
    as [[f|] ctx']; simpl; [reflexivity|].
  now destruct (rowHasData ws r (yearCols yi) && (Js.length (c :: l) >? 1)).
Qed.

Lemma fieldOfRow_margin cy ws s lc yi r :
  isMarginRow ws lc yi r ->
  fieldOfRow cy ws s lc yi r = Some (marginFor (contextAt cy ws s lc yi r)).
Proof.
  intros (Hh & Hl). pose proof (margin_label_not_skipped _ Hl) as Hs.
  unfold fieldOfRow.
  destruct (Z.eqb_spec r (headerRow yi)); [contradiction|].
  destruct (rowLabel ws lc r) as [|c l] eqn:El;
    [vm_compute in Hl; discriminate|].
  rewrite Hs. now rewrite (percent_margin_by_context (c :: l) _ Hl).
Qed.

(** After a row that feeds a field of a service line, the context answers
    the margin of that line. *)
Lemma marginFor_after_segment cy ws s lc yi r f seg :
  s <= r ->
  fieldOfRow cy ws s lc yi r = Some f ->
  segmentOf f = Some seg ->
  marginFor (contextAt cy ws s lc yi (r + 1)) = marginOfSegment seg.
Proof.
  intros Hr Hf Hseg. rewrite contextAt_next by exact Hr.
  unfold fieldOfRow in Hf.
  destruct (r =? headerRow yi); [discriminate|].
  destruct (rowLabel ws lc r) as [|c l]; [discriminate|].
  cbv zeta in Hf |- *.
  destruct (isSkippedLabel (c :: l)); [discriminate|].
  destruct (mapLabelToField_cases (c :: l) (contextAt cy ws s lc yi r))
    as [(g & Hin & E)|(E & [E1|[E1|E1]])].
  - rewrite E in Hf |- *. simpl in Hf |- *. injection Hf as ->.
    now apply table_field_margin.
  - congruence.
  - rewrite E1 in Hf. injection Hf as <-. discriminate.
  - rewrite E1 in Hf. injection Hf as <-. rewrite E.
    now apply marginFor_segment.
Qed.

Lemma marginFor_no_segment ctx :
  (forall f, lastField ctx = Some f -> segmentOf f = None) ->
  marginFor ctx = F_ebitda_margin.
Proof.
  intros Hnone. unfold marginFor.
  destruct (lastField ctx) as [f|] eqn:Ef; [|reflexivity].
  specialize (Hnone f eq_refl).
  destruct f; simpl in Hnone; try discriminate; reflexivity.
Qed.

(** With no row above that feeds a field of a service line, the last
    matched field of the context belongs to none. *)
Lemma lastField_no_segment cy ws s lc yi (n : nat) :
  (forall r' f, s <= r' < s + Z.of_nat n ->
                fieldOfRow cy ws s lc yi r' = Some f -> segmentOf f = None) ->
  forall f, lastField (contextAt cy ws s lc yi (s + Z.of_nat n)) = Some f ->
            segmentOf f = None.
Proof.
  induction n as [|n IH]; intros Hrows f.
  - unfold contextAt. rewrite scanned_empty by lia. discriminate.
  - replace (s + Z.of_nat (S n)) with (s + Z.of_nat n + 1) by lia.
    set (r := s + Z.of_nat n) in *.
    assert (IH' : forall f, lastField (contextAt cy ws s lc yi r) = Some f ->
                            segmentOf f = None)
      by (apply IH; intros r' f' Hr'; apply Hrows; lia).
    specialize (Hrows r).
    rewrite contextAt_next by lia. unfold fieldOfRow in Hrows.
    destruct (r =? headerRow yi); [apply IH'|].
    destruct (rowLabel ws lc r) as [|c l]; [apply IH'|].
    cbv zeta in Hrows |- *.
    destruct (isSkippedLabel (c :: l)); [apply IH'|].
    destruct (mapLabelToField_cases (c :: l) (contextAt cy ws s lc yi r))
      as [(g & Hin & E)|(E & _)].
    + rewrite E in Hrows |- *. simpl in Hrows |- *.
      intros [= <-]. apply Hrows; [lia | reflexivity].
    + rewrite E. apply IH'.
Qed.

Lemma Forall2_forall {A B} (P : A -> B -> Prop) l1 l2 :
  Forall2 P l1 l2 -> forall a, In a l1 -> exists b, In b l2 /\ P a b.
Proof.
  induction 1 as [|a b l1 l2 Hab _ IH]; intros x Hin; [contradiction|].
  destruct Hin as [<-|Hin].
  - exists b. split; [now left | assumption].
  - destruct (IH x Hin) as (y & Hy & Hr).
    exists y. split; [now right | assumption].
Qed.

(** C4: in every block, its rows read from top to bottom, a row whose label
    normalizes to "% margin" (and which is not the row of the year header;
    such a label is never one of the skipped labels) feeds the field that
    the context left by the rows above answers.  Right after a row that
    feeds a field of a service line this is the margin field of that line
    and not the blended EBITDA margin; when no row above feeds a field of a
    service line, or
    when the last match of the label table that the context holds belongs
    to none, it is the blended EBITDA margin.  In an emitted block the
    numbers of a margin row under a service line row are the margin of that
    line in the Periods of their columns, unless a later row feeds that
    field there, and no number of the row reaches the blended margin.  On
    the sample sheet the row under "EBITDA managed services" fills the
    managed services margin of both years, and the row under "EBITDA" the
    blended margin. *)
Theorem C4_percent_margin_follows_segment :
  (forall cy ws s lc yi r,
      isMarginRow ws lc yi r ->
      fieldOfRow cy ws s lc yi r
      = Some (marginFor (contextAt cy ws s lc yi r)))
  /\
  (forall cy ws s lc yi r f seg,
      s <= r ->
      fieldOfRow cy ws s lc yi r = Some f ->
      segmentOf f = Some seg ->
      isMarginRow ws lc yi (r + 1) ->
      fieldOfRow cy ws s lc yi (r + 1) = Some (marginOfSegment seg))
  /\
  (forall cy ws s lc yi r,
      s <= r ->
      (forall r' f, s <= r' < r -> fieldOfRow cy ws s lc yi r' = Some f ->
                    segmentOf f = None) ->
      isMarginRow ws lc yi r ->
      fieldOfRow cy ws s lc yi r = Some F_ebitda_margin)
  /\
  (forall cy ws s lc yi r f,
      lastField (contextAt cy ws s lc yi r) = Some f ->
      segmentOf f = None ->
      isMarginRow ws lc yi r ->
      fieldOfRow cy ws s lc yi r = Some F_ebitda_margin)
  /\
  (forall cy ws s e n m,
      model (parseBlock cy ws s e n) = Some m ->
      let e' := Z.min e (rowCount ws + 1) in
      let lc := findLabelColumn ws s e' in
      exists yi,
        detectedHeader ws s e' yi
        /\ forall r f seg,
            s <= r -> r + 1 < e' ->
            fieldOfRow cy ws s lc yi r = Some f ->
            segmentOf f = Some seg ->
            isMarginRow ws lc yi (r + 1) ->
            Forall2
              (fun p yc =>
                 year p = yc_year yc
                 /\ (forall v,
                        cellNum (getCell ws (r + 1) (col yc)) = Some v ->
                        (forall r' v', r + 1 < r' < e' ->
                           ~ feeds cy ws s lc yi r' (col yc)
                                   (marginOfSegment seg) v') ->
                        getField p (marginOfSegment seg) = Some v)
                 /\ (forall v,
                        getField p F_ebitda_margin = Some v ->
                        exists r', s <= r' < e' /\ r' <> r + 1
                                   /\ feeds cy ws s lc yi r' (col yc)
                                            F_ebitda_margin v))
              (periods m)
              (filter (fun yc => columnHasData cy ws lc yi s e' (col yc))
                      (yearCols yi)))
  /\
  (forall cy,
      option_map
        (fun m => map (fun p => (year p, margin_managed_services p,
                                 ebitda_margin p)) (periods m))
        (model (parseBlock cy sheetSegmentMargins 1 7 (u "Plan")))
      = Some [(ofZ 2025, Some (ofZ 40), Some (ofZ 30));
              (ofZ 2026, Some (ofZ 41), None)]).
Proof.
  split; [exact fieldOfRow_margin|].
  split.
  { intros cy ws s lc yi r f seg Hr Hf Hseg Hm.
    rewrite (fieldOfRow_margin cy ws s lc yi (r + 1) Hm).
    f_equal. exact (marginFor_after_segment cy ws s lc yi r f seg Hr Hf Hseg). }
  split.
  { intros cy ws s lc yi r Hr Hrows Hm.
    rewrite (fieldOfRow_margin cy ws s lc yi r Hm). f_equal.
    apply marginFor_no_segment.
    replace r with (s + Z.of_nat (Z.to_nat (r - s))) by lia.
    apply lastField_no_segment.
    intros r' f Hr'. apply Hrows. lia. }
  split.
  { intros cy ws s lc yi r f Hf Hseg Hm.
    rewrite (fieldOfRow_margin cy ws s lc yi r Hm). f_equal.
    apply marginFor_no_segment. intros g Hg. congruence. }
  split.
  { intros cy ws s e n m Hm. cbv zeta.
    destruct (parseBlock_periods cy ws s e n m Hm) as (yi & Hd & HF).
    cbv zeta in HF. exists yi. split; [exact Hd|].
    intros r f seg Hr Hr1 Hf Hseg Hmr.
    assert (Ef : fieldOfRow cy ws s (findLabelColumn ws s (Z.min e (rowCount ws + 1)))
                            yi (r + 1) = Some (marginOfSegment seg)).
    { rewrite (fieldOfRow_margin cy ws s _ yi (r + 1) Hmr). f_equal.
      exact (marginFor_after_segment cy ws s _ yi r f seg Hr Hf Hseg). }
    refine (Forall2_weaken _ _ _ _ _ HF).
    intros p yc (Hst & Hy & Hp). split; [exact Hy|]. split.
    - intros v Hv Hlast. apply Hp. exists (r + 1).
      split; [lia|]. split; [split; assumption|]. exact Hlast.
    - intros v Hv. apply Hp in Hv as (r' & Hr' & Hfeed & _).
      exists r'. split; [exact Hr'|]. split; [|exact Hfeed].
      intros ->. destruct Hfeed as (Hfeed & _). rewrite Ef in Hfeed.
      destruct seg; discriminate. }
  intros cy. vm_compute. reflexivity.
Qed.

(** C4 on the rows 4 and 6 of the sample sheet. *)
Lemma C4_witness :
  let yi := mkYearHeader 1 [mkYearCol 3 (ofZ 2025); mkYearCol 4 (ofZ 2026)] in
  fieldOfRow 2026 sheetSegmentMargins 1 2 yi 4 = Some F_margin_managed_services
  /\ fieldOfRow 2026 sheetSegmentMargins 1 2 yi 6 = Some F_ebitda_margin.
Proof.
  cbv zeta.
  destruct C4_percent_margin_follows_segment as (_ & B & _ & D & _).
  split.
  - refine (B 2026 sheetSegmentMargins 1 2 _ 3 F_revenue_managed_services
              ManagedServices _ _ _ _).
    + lia.
    + vm_compute. reflexivity.
    + reflexivity.
    + split; vm_compute; [discriminate | reflexivity].
  - refine (D 2026 sheetSegmentMargins 1 2 _ 6 F_ebitda_total _ _ _).
    + vm_compute. reflexivity.
    + reflexivity.
    + split; vm_compute; [discriminate | reflexivity].
Defined.

(** X2: the Periods of an emitted block are those of the year columns that
    some data row feeds, column by column from left to right.  A field of a
    Period holds a number exactly when a data row of the block (not the
    header row, not a skipped label), whose label maps to that field in the
    context left by the rows above it, has a number in the column of the
    Period; the Period holds the number of the last such row. *)
Theorem period_values_come_from_their_column cy ws s e n m :
  model (parseBlock cy ws s e n) = Some m ->
  let e' := Z.min e (rowCount ws + 1) in
  let lc := findLabelColumn ws s e' in
  exists yi,
    detectedHeader ws s e' yi
    /\ Forall2 (periodFrom cy ws lc yi s e')
               (periods m)
               (filter (fun yc => columnHasData cy ws lc yi s e' (col yc))
                       (yearCols yi)).
Proof.
  intros Hm. cbv zeta.
  destruct (parseBlock_periods cy ws s e n m Hm) as (yi & Hd & HF).
  cbv zeta in HF. exists yi. split; [exact Hd|].
  refine (Forall2_weaken _ _ _ _ _ HF). intros p yc (_ & H). exact H.
Qed.

(** X2 on the sample sheet with three years. *)
Lemma period_values_come_from_their_column_witness :
  exists m,
    model (parseBlock 2026 sheetThreeYears 1 3 (u "Plan")) = Some m
    /\ exists yi,
         detectedHeader sheetThreeYears 1
                        (Z.min 3 (rowCount sheetThreeYears + 1)) yi
         /\ Forall2
              (periodFrom 2026 sheetThreeYears
                 (findLabelColumn sheetThreeYears 1
                    (Z.min 3 (rowCount sheetThreeYears + 1)))
                 yi 1 (Z.min 3 (rowCount sheetThreeYears + 1)))
              (periods m)
              (filter (fun yc =>
                         columnHasData 2026 sheetThreeYears
                           (findLabelColumn sheetThreeYears 1
                              (Z.min 3 (rowCount sheetThreeYears + 1)))
                           yi 1 (Z.min 3 (rowCount sheetThreeYears + 1))
                           (col yc))
                      (yearCols yi)).
Proof.
  destruct (model (parseBlock 2026 sheetThreeYears 1 3 (u "Plan")))
    as [m|] eqn:E; [|vm_compute in E; discriminate].
  exists m. split; [reflexivity|].
  exact (period_values_come_from_their_column
           2026 sheetThreeYears 1 3 (u "Plan") m E).
Defined.

Lemma detectedHeader_first ws s e yi :
  detectedHeader ws s e yi ->
  yearCols yi = firstYearColumns ws (headerRow yi).
Proof.
  intros H.
  assert (exists k, findYearHeader ws s e k = Some yi) as (k & Hk)
    by (destruct H as [H|[_ H]]; eauto).
  unfold findYearHeader in Hk. cbv zeta in Hk.
  apply findYearHeaderIn_some in Hk as (_ & Hc).
  rewrite Hc. apply rowYears_first.
Qed.

(** C6 (amended): the year columns of the detected header are, from left
    to right, the cells among the first 30 of the header row that hold a
    year which no cell to their left holds; the Periods of an emitted block
    are those of the year columns that some data row of the block feeds with
    a number, in the left-to-right order of the columns, one for each, and
    no other; the date of each is its year followed by -12-31; no year
    comes twice and they ascend by year when the header does.  A header row
    2025, 2026, 2027 with data under each year gives the dates 2025-12-31,
    2026-12-31, 2027-12-31 in that order. *)
Theorem C6_periods_follow_header_columns :
  (forall cy ws s e n m,
      model (parseBlock cy ws s e n) = Some m ->
      let e' := Z.min e (rowCount ws + 1) in
      let lc := findLabelColumn ws s e' in
      exists yi,
        detectedHeader ws s e' yi
        /\ yearCols yi = firstYearColumns ws (headerRow yi)
        /\ (forall c y, In (mkYearCol c y) (yearCols yi)
                        <-> isFirstOfItsYear ws (headerRow yi) c y)
        /\ leftToRight (yearCols yi)
        /\ distinctYears (map yc_year (yearCols yi))
        /\ map stamp (periods m)
           = map (fun yc => stampOfYear (yc_year yc))
                 (filter (fun yc => columnHasData cy ws lc yi s e' (col yc))
                         (yearCols yi))
        /\ distinctYears (map year (periods m))
        /\ Forall (fun p => period_date p
                            = numberToString (year p) ++ u "-12-31")
                  (periods m)
        /\ (ascendingYears (map yc_year (yearCols yi)) ->
            ascendingYears (map year (periods m))))
  /\
  (forall cy,
      option_map (fun m => map period_date (periods m))
                 (model (parseBlock cy sheetThreeYears 1 3 (u "Plan")))
      = Some [u "2025-12-31"; u "2026-12-31"; u "2027-12-31"]).
Proof.
  split.
  - intros cy ws s e n m Hm. cbv zeta.
    destruct (parseBlock_periods cy ws s e n m Hm) as (yi & Hd & HF).
    cbv zeta in HF.
    destruct (detectedHeader_props _ _ _ _ Hd) as (L & D & _).
    pose proof (detectedHeader_first _ _ _ _ Hd) as Hfirst.
    set (e' := Z.min e (rowCount ws + 1)) in *.
    set (lc := findLabelColumn ws s e') in *.
    set (fed := filter (fun yc => columnHasData cy ws lc yi s e' (col yc))
                       (yearCols yi)) in *.
    assert (St : map stamp (periods m)
                 = map (fun yc => stampOfYear (yc_year yc)) fed).
    { clear - HF. induction HF as [|p yc ps ycs (E & _) _ IH]; simpl;
        [reflexivity|]. now rewrite E, IH. }
    assert (Ey : map year (periods m) = map yc_year fed).
    { replace (map year (periods m)) with (map fst (map stamp (periods m)))
        by (rewrite map_map; reflexivity).
      rewrite St, map_map. reflexivity. }
    exists yi. split; [exact Hd|]. split; [exact Hfirst|].
    split; [intros c y; rewrite Hfirst; apply firstYearColumns_spec|].
    split; [exact L|]. split; [exact D|]. split; [exact St|].
    split; [|split].
    + rewrite Ey. unfold fed, distinctYears in *. now apply pairs_map_filter.
    + apply Forall_forall. intros p Hin.
      apply (in_map stamp) in Hin. rewrite St in Hin.
      apply in_map_iff in Hin as (yc & Es & _).
      unfold stamp, stampOfYear in Es. now injection Es as <- <-.
    + intros Asc. rewrite Ey. unfold fed, ascendingYears in *.
      now apply sorted_map_filter.
  - intros cy. vm_compute. reflexivity.
Qed.

(** C6 (amended) on the sample sheet with an empty year column: of the
    years 2025 and 2026 of the header only the first is fed, and it alone
    has a Period. *)
Lemma C6_witness :
  exists m yi,
    model (parseBlock 2026 sheetSparse 1 3 (u "Plan")) = Some m
    /\ detectedHeader sheetSparse 1 (Z.min 3 (rowCount sheetSparse + 1)) yi
    /\ map yc_year (yearCols yi) = [ofZ 2025; ofZ 2026]
    /\ map (fun yc =>
              columnHasData 2026 sheetSparse
                (findLabelColumn sheetSparse 1
                   (Z.min 3 (rowCount sheetSparse + 1)))
                yi 1 (Z.min 3 (rowCount sheetSparse + 1)) (col yc))
           (yearCols yi) = [true; false]
    /\ map stamp (periods m) = [stampOfYear (ofZ 2025)].
Proof.
  destruct (model (parseBlock 2026 sheetSparse 1 3 (u "Plan"))) as [m|] eqn:E;
    [|vm_compute in E; discriminate].
  destruct (proj1 C6_periods_follow_header_columns 2026 sheetSparse 1 3
              (u "Plan") m E) as (yi & Hd & Hf & _ & _ & _ & St & _).
  exists m, yi. split; [reflexivity|]. split; [exact Hd|].
  assert (Ey : yi = mkYearHeader 1 [mkYearCol 3 (ofZ 2025);
                                    mkYearCol 4 (ofZ 2026)]).
  { destruct Hd as [H|[H _]]; vm_compute in H; [|discriminate].
    now injection H as <-. }
  subst yi. split; [reflexivity|].
  split; [vm_compute; reflexivity|].
  rewrite St. vm_compute. reflexivity.
Defined.

(** X8: the year columns of a row are exactly its cells, among the first
    30 columns, that hold a year between 2020 and 2040 which no cell to
    their left holds.  The year header is the first row of the range, within
    the sheet, that has at least [minCols] of them, and its columns are
    those, from left to right.  When no row has that many, there is no
    header. *)
Theorem findYearHeader_is_first_row_with_enough_years ws s e minCols :
  (forall r c y, In (mkYearCol c y) (firstYearColumns ws r)
                 <-> isFirstOfItsYear ws r c y)
  /\
  match findYearHeader ws s e minCols with
  | Some yi =>
    s <= headerRow yi <= Z.min e (rowCount ws)
    /\ minCols <= distinctYearCount ws (headerRow yi)
    /\ (forall r, s <= r < headerRow yi -> distinctYearCount ws r < minCols)
    /\ yearCols yi = firstYearColumns ws (headerRow yi)
    /\ leftToRight (yearCols yi)
    /\ distinctYears (map yc_year (yearCols yi))
    /\ Forall (fun yc =>
                 1 <= col yc <= Z.min 30 (columnCount ws)
                 /\ yearOfCell (getCell ws (headerRow yi) (col yc))
                    = Some (yc_year yc)
                 /\ inYearRange (yc_year yc) = true)
              (yearCols yi)
  | None =>
    forall r, s <= r <= Z.min e (rowCount ws) ->
              distinctYearCount ws r < minCols
  end.
Proof.
  split; [intros r c y; apply firstYearColumns_spec|].
  unfold findYearHeader. cbv zeta.
  pose proof (findYearHeaderIn_first ws minCols
                (fromTo s (Z.min e (rowCount ws)))) as H.
  assert (Yc : forall r, distinctYearCount ws r = yearCount ws r)
    by (intros r; unfold distinctYearCount, yearCount;
        now rewrite rowYears_first).
  destruct (findYearHeaderIn ws (Z.min 30 (columnCount ws)) minCols
              (fromTo s (Z.min e (rowCount ws)))) as [yi|].
  - destruct H as (b & a & E & F & Y & M).
    assert (Hin : In (headerRow yi) (fromTo s (Z.min e (rowCount ws))))
      by (rewrite E; apply in_or_app; right; now left).
    apply In_fromTo in Hin.
    split; [exact Hin|].
    split; [rewrite Yc; exact M|]. split.
    { intros r Hr. rewrite Yc. rewrite Forall_forall in F. apply F.
      apply (sorted_before_mid b a (headerRow yi) r).
      - rewrite <- E. apply fromTo_sorted.
      - rewrite <- E. apply In_fromTo. lia.
      - lia. }
    split; [rewrite Y; apply rowYears_first|]. rewrite Y. unfold rowYears at 1 2.
    split; [apply uniqueYears_sorted;
            rewrite sortByCol_sorted by apply rowCandidates_sorted;
            apply rowCandidates_sorted|].
    split; [apply uniqueYears_distinct|].
    apply Forall_forall. intros yc Hyc. now apply rowYears_cells.
  - intros r Hr. rewrite Yc. rewrite Forall_forall in H. apply H.
    now apply In_fromTo.
Qed.

(* ------------------------------------------------------------------ *)
(** ** Two runs of the parse *)











Lemma sheetOf_cells n rows r c :
  getCell (sheetOf n rows) r c = CellNull
  \/ exists row, In row rows /\ In (getCell (sheetOf n rows) r c) row.
Proof.
  unfold sheetOf. cbn [getCell].
  destruct ((r <? 1) || (c <? 1)); [now left|].
  destruct (nth_in_or_default (Z.to_nat (r - 1)) rows []) as [Hr|Hr].
  - destruct (nth_in_or_default (Z.to_nat (c - 1))
                (nth (Z.to_nat (r - 1)) rows []) CellNull) as [Hc|Hc].
    + right. eauto.
    + now left.
  - rewrite Hr. left. now destruct (Z.to_nat (c - 1)).
Qed.



(** The time zone is read: a header of two dates in the last hour of 2025
    and of 2026 (UTC) gives the Periods 2025, 2026 in UTC and 2026, 2027 one
    hour east of it. *)
Example C9_time_zone_matters :
  parseIn 2026 zoneUTC [sheetDateHeader] None
  <> parseIn 2026 zoneEast [sheetDateHeader] None
  /\ (exists r1 r2,
         parseIn 2026 zoneUTC [sheetDateHeader] None = Ok r1
         /\ parseIn 2026 zoneEast [sheetDateHeader] None = Ok r2
         /\ map (fun m => map year (periods m)) (models r1)
            = [[ofZ 2025; ofZ 2026]]
         /\ map (fun m => map year (periods m)) (models r2)
            = [[ofZ 2026; ofZ 2027]]).
Proof.
  split.
  - vm_compute. discriminate.
  - eexists. eexists. split; [vm_compute; reflexivity|].
    split; [vm_compute; reflexivity|]. split; reflexivity.
Qed.



(* ------------------------------------------------------------------ *)
(** ** Errors and warnings of the parse *)

Lemma existsb_none {A} (f : A -> bool) l :
  (forall x, In x l -> f x = false) -> existsb f l = false.
Proof.
  intros H. destruct (existsb f l) eqn:E; [|reflexivity].
  apply existsb_exists in E as (x & Hin & Hx). rewrite (H x Hin) in Hx.
  discriminate.
Qed.

Lemma readsUntilThrow_none stop cs :
  (forall c, In c cs -> cellStrThrows c = false) ->
  readsUntilThrow stop cs = false.
Proof.
  induction cs as [|c cs IH]; intros H; simpl; [reflexivity|].
  rewrite (H c) by now left. rewrite IH by (intros x Hx; apply H; now right).
  now rewrite andb_false_r.
Qed.

Section NoInvalidDate.

Variable ws : Worksheet.
Hypothesis valid : forall r c, cellStrThrows (getCell ws r c) = false.

Lemma reads_valid stop r cols :
  readsUntilThrow stop (map (getCell ws r) cols) = false.
Proof.
  apply readsUntilThrow_none. intros c Hc.
  apply in_map_iff in Hc as (x & <- & _). apply valid.
Qed.

Lemma findLabelColumnThrows_valid s e : findLabelColumnThrows ws s e = false.
Proof.
  unfold findLabelColumnThrows. cbv zeta.
  apply existsb_none. intros r _. apply existsb_none. intros c _. apply valid.
Qed.

Lemma parseBlockThrows_valid s e : parseBlockThrows ws s e = false.
Proof.
  assert (R : forall lc r, rowLabelThrows ws lc r = false).
  { intros lc r. unfold rowLabelThrows. rewrite valid. simpl.
    destruct (cellStr (getCell ws r lc)); [apply reads_valid | reflexivity]. }
  assert (P : forall s e lc yi, parseBlockWithYearsThrows ws s e lc yi = false).
  { intros s0 e0 lc yi. unfold parseBlockWithYearsThrows.
    apply existsb_none. intros r _. rewrite R. apply andb_false_r. }
  unfold parseBlockThrows. cbv zeta. rewrite findLabelColumnThrows_valid. simpl.
  destruct (findYearHeader ws s (Z.min e (rowCount ws + 1)) 2); [apply P|].
  destruct (findYearHeader ws s (Z.min e (rowCount ws + 1)) 1);
    [apply P | reflexivity].
Qed.

Lemma processSheetThrows_valid : processSheetThrows ws = false.
Proof.
  assert (B : forall blocks, parseBlocksThrow ws blocks = false).
  { intros blocks. unfold parseBlocksThrow. apply existsb_none.
    intros b _. apply parseBlockThrows_valid. }
  assert (I : forall e lc, parseInputParametersThrows ws e lc = false).
  { intros e lc. unfold parseInputParametersThrows. apply existsb_none.
    intros r _. apply valid. }
  assert (E : forall s e lc, enrichInputParametersThrows ws s e lc = false).
  { intros s e lc. unfold enrichInputParametersThrows. apply existsb_none.
    intros r _. apply valid. }
  assert (N : findNameBlocksThrows ws = false).
  { unfold findNameBlocksThrows. cbv zeta. apply existsb_none.
    intros r _. apply reads_valid. }
  assert (S : findSectionBlocksThrows ws = false).
  { unfold findSectionBlocksThrows. rewrite findLabelColumnThrows_valid.
    cbv zeta. simpl. apply existsb_none. intros r _.
    rewrite valid. simpl. apply reads_valid. }
  unfold processSheetThrows.
  destruct ((rowCount ws =? 0) || (columnCount ws =? 0)); [reflexivity|].
  rewrite N. simpl.
  destruct (findNameBlocks ws) as [|first rest].
  - rewrite S. cbv zeta. simpl.
    destruct (Z.of_nat (List.length (findSectionBlocks ws)) >? 1); [apply B|].
    now rewrite findLabelColumnThrows_valid, I, E, parseBlockThrows_valid.
  - cbv zeta. now rewrite findLabelColumnThrows_valid, I, E, B.
Qed.

Lemma diagSheetThrows_valid : diagSheetThrows ws = false.
Proof.
  unfold diagSheetThrows. apply existsb_none. intros r _.
  apply existsb_none. intros c _. apply valid.
Qed.

End NoInvalidDate.

Lemma noInvalidDate_returns wss :
  noInvalidDate wss ->
  existsb processSheetThrows wss = false
  /\ existsb diagSheetThrows wss = false.
Proof.
  intros H. split; apply existsb_none; intros ws Hws.
  - apply processSheetThrows_valid. intros r c. now apply H.
  - apply diagSheetThrows_valid. intros r c. now apply H.
Qed.

(** The warnings of a block are the issue it has. *)
Lemma parseBlock_issue cy ws b :
  warnings (parseBlock cy ws (startRow b) (endRow b) (rb_name b))
  = blockIssue cy ws b.
Proof.
  unfold blockIssue. cbv zeta.
  destruct (model (parseBlock cy ws (startRow b) (endRow b) (rb_name b)))
    as [m|] eqn:Hm.
  - destruct (parseBlock_model _ _ _ _ _ _ Hm) as (yi & Hd & E).
    cbv zeta in Hd, E. rewrite E in Hm |- *. clear E.
    apply parseBlockWithYears_model in Hm. cbv zeta in Hm.
    destruct Hm as (_ & _ & _ & Hu & Hw). rewrite Hw, Hu. clear Hw Hu.
    destruct Hd as [->|[-> ->]];
      now destruct (sc_unmapped (scanned cy ws (startRow b) _ _ yi)).
  - unfold parseBlock in *. cbv zeta in *.
    destruct (findYearHeader ws (startRow b)
                (Z.min (endRow b) (rowCount ws + 1)) 2) as [yi|].
    + now rewrite (parseBlockWithYears_none _ _ _ _ _ _ _ _ Hm).
    + destruct (findYearHeader ws (startRow b)
                  (Z.min (endRow b) (rowCount ws + 1)) 1) as [yi|].
      * now rewrite (parseBlockWithYears_none _ _ _ _ _ _ _ _ Hm).
      * reflexivity.
Qed.

Lemma sheetWarnings_issues cy names fn ws :
  sheetWarnings cy names fn ws = sheetIssues cy names fn ws.
Proof.
  unfold sheetWarnings, sheetIssues, blockWarnings, warnEmptySheet.
  destruct (isEmptySheet ws); [reflexivity|].
  apply flat_map_ext. intros b. apply parseBlock_issue.
Qed.

(** The outcome of a parse, case by case. *)
Lemma parseExcelBuffer_cases cy wss fn :
  let names := map ws_name wss in
  let produced := flat_map (sheetModels cy names fn) wss in
  let issues := sheetCountNote wss ++ flat_map (sheetIssues cy names fn) wss in
  (produced = [] /\ exists message, parseExcelBuffer cy wss fn = Err message)
  \/ (existsb processSheetThrows wss = true
      /\ parseExcelBuffer cy wss fn = Err invalidTimeValue)
  \/ (produced <> [] /\ existsb processSheetThrows wss = false
      /\ exists params,
           parseExcelBuffer cy wss fn = Ok (mkResult produced params issues)).
Proof.
  cbv zeta. destruct (runSheets_spec cy wss fn) as (A & B).
  rewrite (flat_map_ext _ _ (sheetWarnings_issues cy (map ws_name wss) fn)) in B.
  unfold parseExcelBuffer. rewrite <- A, <- B.
  destruct wss as [|ws wss].
  - left. split; [reflexivity | eauto].
  - destruct (existsb processSheetThrows (ws :: wss)) eqn:T.
    + right. left. split; reflexivity.
    + destruct (allModels (runSheets cy (ws :: wss) fn)) as [|m ms] eqn:E.
      * left. split; [reflexivity|].
        destruct (existsb diagSheetThrows (ws :: wss)); eauto.
      * right. right. split; [discriminate|]. split; [reflexivity|]. eauto.
Qed.

(** C5 (the code, and the code at the failing input): on a decoded
    workbook the parse throws exactly when no sheet yields a Model Block or
    a [cellStr] call of the sheet loop meets an Invalid Date.  On a workbook
    without an Invalid Date it throws exactly when no sheet yields a Model
    Block, and otherwise returns the Model Blocks of all sheets with, in the
    warnings, the sheet count note and the issue of every sheet and block in
    order: the empty sheet, the block without a year header, the block
    without a key figure, the unmapped rows of an emitted block.  On the
    workbook whose first sheet yields a Model Block and whose second sheet
    holds an Invalid Date, the parse throws the RangeError of
    [toISOString]. *)
Theorem C5_raises_iff_no_block_or_invalid_date :
  (forall cy wss fn,
      let names := map ws_name wss in
      let produced := flat_map (sheetModels cy names fn) wss in
      let issues :=
        sheetCountNote wss ++ flat_map (sheetIssues cy names fn) wss in
      ((exists message, parseExcelBuffer cy wss fn = Err message)
       <-> produced = [] \/ existsb processSheetThrows wss = true)
      /\ (produced <> [] -> existsb processSheetThrows wss = false ->
          exists params,
            parseExcelBuffer cy wss fn = Ok (mkResult produced params issues))
      /\ (noInvalidDate wss ->
          ((exists message, parseExcelBuffer cy wss fn = Err message)
           <-> produced = [])
          /\ (produced <> [] ->
              exists params,
                parseExcelBuffer cy wss fn
                = Ok (mkResult produced params issues))))
  /\
  (let wss := [sheetThreeYears; sheetInvalidDate] in
   sheetModels 2026 (map ws_name wss) None sheetThreeYears <> []
   /\ processSheetThrows sheetThreeYears = false
   /\ processSheetThrows sheetInvalidDate = true
   /\ parseExcelBuffer 2026 wss None = Err invalidTimeValue).
Proof.
  split.
  - intros cy wss fn. cbv zeta.
    pose proof (parseExcelBuffer_cases cy wss fn) as H. cbv zeta in H.
    assert (G : (exists message, parseExcelBuffer cy wss fn = Err message)
                <-> flat_map (sheetModels cy (map ws_name wss) fn) wss = []
                    \/ existsb processSheetThrows wss = true).
    { destruct H as [(P & M)|[(T & E)|(P & T & params & E)]].
      - split; [intros _; now left | intros _; exact M].
      - split; [intros _; now right | intros _; eauto].
      - split.
        + intros (msg & M). rewrite E in M. discriminate.
        + intros [P'|T']; [contradiction | congruence]. }
    assert (R : flat_map (sheetModels cy (map ws_name wss) fn) wss <> [] ->
                existsb processSheetThrows wss = false ->
                exists params,
                  parseExcelBuffer cy wss fn
                  = Ok (mkResult
                          (flat_map (sheetModels cy (map ws_name wss) fn) wss)
                          params
                          (sheetCountNote wss
                           ++ flat_map (sheetIssues cy (map ws_name wss) fn)
                                       wss))).
    { intros P T. destruct H as [(P' & _)|[(T' & _)|(_ & _ & E)]];
        [contradiction | congruence | exact E]. }
    split; [exact G|]. split; [exact R|].
    intros V. destruct (noInvalidDate_returns wss V) as (T & _).
    split.
    + rewrite G. rewrite T. split; [intros [P|D]; [exact P | discriminate]
                                   | intros P; now left].
    + intros P. now apply R.
  - cbv zeta. split; [vm_compute; discriminate|].
    split; [vm_compute; reflexivity|]. split; vm_compute; reflexivity.
Qed.

Lemma noInvalidDate_no_dates n rows :
  forallb (forallb (fun cell => match cellValue cell with
                                | Some (JDate _) => false
                                | _ => true
                                end)) rows = true ->
  noInvalidDate [sheetOf n rows].
Proof.
  intros H ws r c [<-|[]]. unfold cellStrThrows.
  destruct (sheetOf_cells n rows r c) as [E|(row & Hrow & Hc)].
  - now rewrite E.
  - rewrite forallb_forall in H. specialize (H row Hrow).
    rewrite forallb_forall in H. specialize (H _ Hc).
    destruct (cellValue (getCell (sheetOf n rows) r c)) as [[| | |d|]|];
      try reflexivity. discriminate.
Qed.

(** C5 on the end-to-end sample, on a workbook that yields no block, and on
    the workbook whose second sheet holds an Invalid Date. *)
Lemma C5_witness :
  (exists params,
      parseExcelBuffer 2026 [sheetBaseline] None
      = Ok (mkResult
              (flat_map (sheetModels 2026 [u "Ark1"] None) [sheetBaseline])
              params
              (sheetCountNote [sheetBaseline]
               ++ flat_map (sheetIssues 2026 [u "Ark1"] None)
                           [sheetBaseline])))
  /\ (exists message,
         parseExcelBuffer 2026 [sheetNoRows; sheetMarginOnly] None
         = Err message)
  /\ (exists message,
         parseExcelBuffer 2026 [sheetThreeYears; sheetInvalidDate] None
         = Err message).
Proof.
  destruct C5_raises_iff_no_block_or_invalid_date as (G & _).
  split; [|split].
  - destruct (G 2026 [sheetBaseline] None) as (_ & _ & V). cbv zeta in V.
    refine (proj2 (V _) _).
    + apply noInvalidDate_no_dates. vm_compute. reflexivity.
    + vm_compute. discriminate.
  - destruct (G 2026 [sheetNoRows; sheetMarginOnly] None) as (I & _).
    cbv zeta in I. apply (proj2 I). left. vm_compute. reflexivity.
  - destruct (G 2026 [sheetThreeYears; sheetInvalidDate] None) as (I & _).
    cbv zeta in I. apply (proj2 I). right. vm_compute. reflexivity.
Defined.
